(** * Turn orchestration of the CLI: a shallow embedding

    This development models the stream hook of
    [packages/cli/src/ui/hooks/useGeminiStream.ts] (content reassembly,
    event dispatch, tool-result submission, checkpoint recording, the
    streaming state, cancellation and [submitQuery]), the OpenAI content
    generator (token counter, streaming, conversion of messages and of
    responses) and [validateAuthMethod] of
    [packages/cli/src/config/auth.ts], and proves properties of those
    models.

    Conventions.  A JavaScript string is a [string] (a sequence of code
    units, here [ascii]); a JavaScript number that is an integer is a
    [Z] or a [nat]; a React ref or state cell is a field of a record that
    is threaded through the functions; [addItem], [markToolsAsSubmitted],
    [geminiClient.addHistory] and the like append to a log held in that
    record. *)

From Stdlib Require Import String Ascii List ZArith Lia Bool.
From Stdlib Require QArith Qround.
From stdpp Require Import gmap strings list pretty.

Local Open Scope Z_scope.
Local Open Scope nat_scope.
Local Open Scope stdpp_scope.

(* stdpp seals string append against [simpl]; the proofs below compute
   with it. *)
Local Arguments String.append !_ _ / : simpl nomatch.
#[local] Set Warnings "-register-all".

(** * Part I: the model *)

(** ** JavaScript string operations *)

Module JsString.

(** [s.length === 0], which for a string is also [!s]. *)
Definition isEmpty (s : string) : bool :=
  match s with EmptyString => true | String _ _ => false end.

(** [s.startsWith(p)]. *)
Definition startsWith (s p : string) : bool := String.prefix p s.

(** [s.substring(0, n)]. *)
Definition substring_to (n : nat) (s : string) : string :=
  String.substring 0 n s.

(** [s.substring(n)]. *)
Definition substring_from (n : nat) (s : string) : string :=
  String.substring n (String.length s - n) s.

(** [s.slice(-n)]: the last [n] code units, or all of [s] when it is
    shorter. *)
Definition slice_last (n : nat) (s : string) : string :=
  substring_from (String.length s - n) s.

(** [s.endsWith(p)]. *)
Definition endsWith (s p : string) : bool :=
  (String.length p <=? String.length s) &&
  String.eqb (slice_last (String.length p) s) p.

(** [s.replace(/c/g, d)] for single characters [c] and [d]. *)
Fixpoint replaceAll (c d : ascii) (s : string) : string :=
  match s with
  | EmptyString => EmptyString
  | String a s' => String (if Ascii.eqb a c then d else a) (replaceAll c d s')
  end.

End JsString.
Import JsString.

(** ** JSON values, as [JSON.stringify] writes them *)

Inductive JSON : Type :=
| JNull
| JBool (b : bool)
| JNumber (z : Z)
| JString (s : string)
| JArray (items : list JSON)
| JObject (fields : list (string * JSON)).

(** ** Values shared by the components *)

(** [ToolCallRequestInfo]. *)
Record ToolCallRequestInfo : Type := {
  callId : string;
  name : string;
  args : list (string * JSON);
  isClientInitiated : bool;
  prompt_id : string
}.

(** A [Part] of [@google/genai]: every field is optional. *)
Record Part : Type := {
  text : option string;
  inlineData : option (string * string);
  functionCall : option (string * JSON);
  functionResponse : option (string * JSON)
}.

(** A [Content]: a role and, possibly, parts. *)
Record Content : Type := {
  role : string;
  parts : option (list Part)
}.

(** ** The stream hook: content reassembly and event dispatch
    ([useGeminiStream.ts], [handleContentEvent] to
    [processGeminiStreamEvents]) *)

Module Stream.

(** The [type] tags of history items that the hook reads or writes. *)
Inductive MessageType : Type :=
| gemini | gemini_content | user | info | error | tool_group.

(** [ToolCallStatus] of a tool shown in a tool group. *)
Inductive ToolCallStatus : Type :=
| Pending | Canceled | Confirming | Executing | Success | Error.

Record IndividualToolCallDisplay : Type := {
  displayCallId : string;
  displayName : string;
  displayStatus : ToolCallStatus
}.

(** [HistoryItemWithoutId]: a text item of some type, or a tool group. *)
Inductive HistoryItemWithoutId : Type :=
| TextItem (type : MessageType) (itemText : string)
| ToolGroupItem (tools : list IndividualToolCallDisplay).

Record ThoughtSummary : Type := {
  subject : string;
  description : string
}.

(** [FinishReason] of [@google/genai], as listed in
    [handleFinishedEvent]. *)
Inductive FinishReason : Type :=
| FINISH_REASON_UNSPECIFIED | STOP | MAX_TOKENS | SAFETY | RECITATION
| LANGUAGE | BLOCKLIST | PROHIBITED_CONTENT | SPII | OTHER
| MALFORMED_FUNCTION_CALL | IMAGE_SAFETY | UNEXPECTED_TOOL_CALL.

(** [ServerGeminiStreamEvent]: the tagged union the backend yields. *)
Inductive GeminiEvent : Type :=
| Thought (value : ThoughtSummary)
| ContentEvent (value : string)
| ToolCallRequest (value : ToolCallRequestInfo)
| UserCancelled
| ErrorEvent (value : string)
| ChatCompressed (value : option (N * N))
| ToolCallConfirmation
| ToolCallResponse
| MaxSessionTurns
| Finished (value : FinishReason)
| LoopDetected.

(** [GeminiEventType]: the tags of the union. *)
Module GeminiEventType.
Inductive t : Type :=
| Thought | Content | ToolCallRequest | UserCancelled | Error
| ChatCompressed | ToolCallConfirmation | ToolCallResponse
| MaxSessionTurns | Finished | LoopDetected.
End GeminiEventType.

(** [event.type]. *)
Definition eventType (e : GeminiEvent) : GeminiEventType.t :=
  match e with
  | Thought _ => GeminiEventType.Thought
  | ContentEvent _ => GeminiEventType.Content
  | ToolCallRequest _ => GeminiEventType.ToolCallRequest
  | UserCancelled => GeminiEventType.UserCancelled
  | ErrorEvent _ => GeminiEventType.Error
  | ChatCompressed _ => GeminiEventType.ChatCompressed
  | ToolCallConfirmation => GeminiEventType.ToolCallConfirmation
  | ToolCallResponse => GeminiEventType.ToolCallResponse
  | MaxSessionTurns => GeminiEventType.MaxSessionTurns
  | Finished _ => GeminiEventType.Finished
  | LoopDetected => GeminiEventType.LoopDetected
  end.

(** The refs and state cells of the hook that the stream handlers touch.
    [transcript] is the log of [addItem] calls (item and timestamp), and
    [scheduled] the log of [scheduleToolCalls] calls.  A write through
    [setPendingHistoryItem] is visible at once in
    [pendingHistoryItemRef] (the cell is a state and a ref at a time). *)
Record Hook : Type := {
  turnCancelledRef : bool;
  pendingHistoryItemRef : option HistoryItemWithoutId;
  transcript : list (HistoryItemWithoutId * N);
  thought : option ThoughtSummary;
  isResponding : bool;
  loopDetectedRef : bool;
  scheduled : list (list ToolCallRequestInfo)
}.

Definition addItem (item : HistoryItemWithoutId) (timestamp : N) (h : Hook)
  : Hook :=
  {| turnCancelledRef := turnCancelledRef h;
     pendingHistoryItemRef := pendingHistoryItemRef h;
     transcript := transcript h ++ [(item, timestamp)];
     thought := thought h;
     isResponding := isResponding h;
     loopDetectedRef := loopDetectedRef h;
     scheduled := scheduled h |}.

Definition setPendingHistoryItem (item : option HistoryItemWithoutId)
  (h : Hook) : Hook :=
  {| turnCancelledRef := turnCancelledRef h;
     pendingHistoryItemRef := item;
     transcript := transcript h;
     thought := thought h;
     isResponding := isResponding h;
     loopDetectedRef := loopDetectedRef h;
     scheduled := scheduled h |}.

Definition setThought (t : option ThoughtSummary) (h : Hook) : Hook :=
  {| turnCancelledRef := turnCancelledRef h;
     pendingHistoryItemRef := pendingHistoryItemRef h;
     transcript := transcript h;
     thought := t;
     isResponding := isResponding h;
     loopDetectedRef := loopDetectedRef h;
     scheduled := scheduled h |}.

Definition setIsResponding (b : bool) (h : Hook) : Hook :=
  {| turnCancelledRef := turnCancelledRef h;
     pendingHistoryItemRef := pendingHistoryItemRef h;
     transcript := transcript h;
     thought := thought h;
     isResponding := b;
     loopDetectedRef := loopDetectedRef h;
     scheduled := scheduled h |}.

Definition setLoopDetected (b : bool) (h : Hook) : Hook :=
  {| turnCancelledRef := turnCancelledRef h;
     pendingHistoryItemRef := pendingHistoryItemRef h;
     transcript := transcript h;
     thought := thought h;
     isResponding := isResponding h;
     loopDetectedRef := b;
     scheduled := scheduled h |}.

Definition scheduleToolCalls (requests : list ToolCallRequestInfo)
  (h : Hook) : Hook :=
  {| turnCancelledRef := turnCancelledRef h;
     pendingHistoryItemRef := pendingHistoryItemRef h;
     transcript := transcript h;
     thought := thought h;
     isResponding := isResponding h;
     loopDetectedRef := loopDetectedRef h;
     scheduled := scheduled h ++ [requests] |}.

(** [pendingHistoryItemRef.current?.type] is ['gemini'] or
    ['gemini_content']. *)
Definition isGeminiItem (item : option HistoryItemWithoutId) : bool :=
  match item with
  | Some (TextItem gemini _) | Some (TextItem gemini_content _) => true
  | _ => false
  end.

(** [pendingHistoryItemRef.current?.text || '']. *)
Definition pendingText (h : Hook) : string :=
  match pendingHistoryItemRef h with
  | Some (TextItem _ t) => t
  | _ => ""
  end.

(** [item?.type as 'gemini' | 'gemini_content'].  It is read only after
    the pending item has been made a gemini item, so the last two cases
    are never taken (lemma [ensureGeminiPending_isGemini]). *)
Definition pendingType (h : Hook) : MessageType :=
  match pendingHistoryItemRef h with
  | Some (TextItem ty _) => ty
  | Some (ToolGroupItem _) => tool_group
  | None => gemini
  end.

Section Handlers.

(** What the hook imports and is not modelled here:
    [findLastSafeSplitPoint] of [markdownUtilities], the string values of
    the [GeminiEventType] enumeration, [parseAndFormatApiError] (with the
    configuration it reads), [config.getModel()] and
    [config.getMaxSessionTurns()]. *)
Variable findLastSafeSplitPoint : string -> nat.
Variable eventTypeName : GeminiEventType.t -> string.
Variable parseAndFormatApiError : string -> string.
Variable getModel : string.
Variable getMaxSessionTurns : Z.

(** Lines 394-406: the buffer the fragment leads to.  A fragment that
    starts with the buffer is taken as the full accumulated text, any
    other as an increment. *)
Definition accumulate (eventValue currentGeminiMessageBuffer : string)
  : string :=
  if startsWith eventValue currentGeminiMessageBuffer
  then eventValue
  else currentGeminiMessageBuffer +:+ eventValue.

(** Lines 418-429: a pending item that is not a gemini item is moved to
    the transcript and replaced by an empty gemini item. *)
Definition ensureGeminiPending (userMessageTimestamp : N) (h : Hook) : Hook :=
  if isGeminiItem (pendingHistoryItemRef h) then h
  else
    setPendingHistoryItem (Some (TextItem gemini ""))
      (match pendingHistoryItemRef h with
       | Some item => addItem item userMessageTimestamp h
       | None => h
       end).

(** Lines 436-444: whether the pending item is rewritten when no split is
    made. *)
Definition shouldUpdate (currentText newGeminiMessageBuffer : string) : bool :=
  let contentDiff :=
    (Z.of_nat (String.length newGeminiMessageBuffer)
     - Z.of_nat (String.length currentText))%Z in
  negb (String.eqb currentText newGeminiMessageBuffer) &&
  ((5 <? contentDiff)%Z
   || endsWith newGeminiMessageBuffer " "
   || endsWith newGeminiMessageBuffer "."
   || endsWith newGeminiMessageBuffer "!"
   || endsWith newGeminiMessageBuffer "?").

(** Lines 418-480: what a changed buffer does to the pending item and to
    the transcript, and the buffer that is handed back. *)
Definition emitContent (newGeminiMessageBuffer : string)
  (userMessageTimestamp : N) (h : Hook) : string * Hook :=
  let h1 := ensureGeminiPending userMessageTimestamp h in
  let splitPoint := findLastSafeSplitPoint newGeminiMessageBuffer in
  if splitPoint =? String.length newGeminiMessageBuffer then
    let currentText := pendingText h1 in
    if shouldUpdate currentText newGeminiMessageBuffer then
      (newGeminiMessageBuffer,
       setPendingHistoryItem
         (Some (TextItem (pendingType h1) newGeminiMessageBuffer)) h1)
    else (newGeminiMessageBuffer, h1)
  else
    let beforeText := substring_to splitPoint newGeminiMessageBuffer in
    let afterText := substring_from splitPoint newGeminiMessageBuffer in
    let currentText := pendingText h1 in
    let h2 :=
      if negb (isEmpty beforeText) && negb (String.eqb beforeText currentText)
      then addItem (TextItem (pendingType h1) beforeText)
             userMessageTimestamp h1
      else h1 in
    (afterText,
     setPendingHistoryItem (Some (TextItem gemini_content afterText)) h2).

(** [handleContentEvent]: the new buffer and the hook after the event. *)
Definition handleContentEvent (eventValue currentGeminiMessageBuffer : string)
  (userMessageTimestamp : N) (h : Hook) : string * Hook :=
  if turnCancelledRef h then ("", h)
  else if isEmpty eventValue then (currentGeminiMessageBuffer, h)
  else
    let newGeminiMessageBuffer :=
      accumulate eventValue currentGeminiMessageBuffer in
    if String.eqb newGeminiMessageBuffer currentGeminiMessageBuffer
    then (currentGeminiMessageBuffer, h)
    else emitContent newGeminiMessageBuffer userMessageTimestamp h.

(** [handleUserCancelledEvent]. *)
Definition cancelTool (tool : IndividualToolCallDisplay)
  : IndividualToolCallDisplay :=
  match displayStatus tool with
  | Pending | Confirming | Executing =>
      {| displayCallId := displayCallId tool;
         displayName := displayName tool;
         displayStatus := Canceled |}
  | _ => tool
  end.

Definition handleUserCancelledEvent (userMessageTimestamp : N) (h : Hook)
  : Hook :=
  if turnCancelledRef h then h
  else
    let h1 :=
      match pendingHistoryItemRef h with
      | Some (ToolGroupItem tools) =>
          setPendingHistoryItem None
            (addItem (ToolGroupItem (map cancelTool tools))
               userMessageTimestamp h)
      | Some item =>
          setPendingHistoryItem None (addItem item userMessageTimestamp h)
      | None => h
      end in
    setThought None
      (setIsResponding false
         (addItem (TextItem info "User cancelled the request.")
            userMessageTimestamp h1)).

(** [handleErrorEvent]. *)
Definition handleErrorEvent (eventValue : string) (userMessageTimestamp : N)
  (h : Hook) : Hook :=
  let h1 :=
    match pendingHistoryItemRef h with
    | Some item =>
        setPendingHistoryItem None (addItem item userMessageTimestamp h)
    | None => h
    end in
  setThought None
    (addItem (TextItem error (parseAndFormatApiError eventValue))
       userMessageTimestamp h1).

(** The table [finishReasonMessages] of [handleFinishedEvent]. *)
Definition finishReasonMessages (r : FinishReason) : option string :=
  match r with
  | FINISH_REASON_UNSPECIFIED => None
  | STOP => None
  | MAX_TOKENS => Some "Response truncated due to token limits."
  | SAFETY => Some "Response stopped due to safety reasons."
  | RECITATION => Some "Response stopped due to recitation policy."
  | LANGUAGE => Some "Response stopped due to unsupported language."
  | BLOCKLIST => Some "Response stopped due to forbidden terms."
  | PROHIBITED_CONTENT => Some "Response stopped due to prohibited content."
  | SPII =>
      Some "Response stopped due to sensitive personally identifiable information."
  | OTHER => Some "Response stopped for other reasons."
  | MALFORMED_FUNCTION_CALL =>
      Some "Response stopped due to malformed function call."
  | IMAGE_SAFETY => Some "Response stopped due to image safety violations."
  | UNEXPECTED_TOOL_CALL =>
      Some "Response stopped due to unexpected tool call."
  end.

Definition handleFinishedEvent (finishReason : FinishReason)
  (userMessageTimestamp : N) (h : Hook) : Hook :=
  match finishReasonMessages finishReason with
  | Some message =>
      addItem (TextItem info ("⚠️  " +:+ message)) userMessageTimestamp h
  | None => h
  end.

(** [${n ?? 'unknown'}] for a token count. *)
Definition countOrUnknown (n : option N) : string :=
  match n with Some k => pretty k | None => "unknown" end.

(** [handleChatCompressionEvent]; [now] is what [Date.now()] gives. *)
Definition handleChatCompressionEvent (eventValue : option (N * N))
  (now : N) (h : Hook) : Hook :=
  addItem
    (TextItem info
       ("IMPORTANT: This conversation approached the input token limit for "
        +:+ getModel +:+ ". "
        +:+ "A compressed context will be sent for future messages (compressed from: "
        +:+ countOrUnknown (fst <$> eventValue) +:+ " to "
        +:+ countOrUnknown (snd <$> eventValue) +:+ " tokens)."))
    now h.

(** [handleMaxSessionTurnsEvent]. *)
Definition handleMaxSessionTurnsEvent (now : N) (h : Hook) : Hook :=
  addItem
    (TextItem info
       ("The session has reached the maximum number of turns: "
        +:+ pretty getMaxSessionTurns +:+ ". "
        +:+ "Please update this limit in your setting.json file."))
    now h.

(** An event as the loop meets it: with the values that [Date.now()] and
    [Math.random()] give when its identifier is computed ([idClock], and
    [idRandom] as printed), and the value of [Date.now()] in the handlers
    that stamp an item with it ([itemClock]). *)
Record Delivery : Type := {
  event : GeminiEvent;
  idClock : N;
  idRandom : string;
  itemClock : N
}.

(** Lines 652-655: the identifier used to drop repeated events. *)
Definition eventId (d : Delivery) : string :=
  match event d with
  | ContentEvent value =>
      eventTypeName (eventType (event d)) +:+ "-"
      +:+ pretty (String.length value) +:+ "-" +:+ slice_last 10 value
  | _ =>
      eventTypeName (eventType (event d)) +:+ "-" +:+ pretty (idClock d)
      +:+ "-" +:+ idRandom d
  end.

(** The locals of [processGeminiStreamEvents] and the hook. *)
Record LoopState : Type := {
  geminiMessageBuffer : string;
  toolCallRequests : list ToolCallRequestInfo;
  processedEventIds : gset string;
  hook : Hook
}.

Inductive StreamProcessingStatus : Type :=
| Completed | StatusUserCancelled | StatusError.

(** [toolCallRequests.find((req) => req.callId === id)] finds one. *)
Definition hasRequest (id : string) (requests : list ToolCallRequestInfo)
  : bool :=
  existsb (fun req => String.eqb (callId req) id) requests.

(** Lines 664-730: the [switch] on the event type. *)
Definition dispatchEvent (d : Delivery) (userMessageTimestamp : N)
  (s : LoopState) : LoopState :=
  let withHook h :=
    {| geminiMessageBuffer := geminiMessageBuffer s;
       toolCallRequests := toolCallRequests s;
       processedEventIds := processedEventIds s;
       hook := h |} in
  match event d with
  | Thought value => withHook (setThought (Some value) (hook s))
  | ContentEvent value =>
      let r :=
        handleContentEvent value (geminiMessageBuffer s)
          userMessageTimestamp (hook s) in
      {| geminiMessageBuffer := fst r;
         toolCallRequests := toolCallRequests s;
         processedEventIds := processedEventIds s;
         hook := snd r |}
  | ToolCallRequest value =>
      if hasRequest (callId value) (toolCallRequests s) then s
      else
        {| geminiMessageBuffer := geminiMessageBuffer s;
           toolCallRequests := toolCallRequests s ++ [value];
           processedEventIds := processedEventIds s;
           hook := hook s |}
  | UserCancelled =>
      withHook (handleUserCancelledEvent userMessageTimestamp (hook s))
  | ErrorEvent value =>
      withHook (handleErrorEvent value userMessageTimestamp (hook s))
  | ChatCompressed value =>
      withHook (handleChatCompressionEvent value (itemClock d) (hook s))
  | ToolCallConfirmation | ToolCallResponse => s
  | MaxSessionTurns =>
      withHook (handleMaxSessionTurnsEvent (itemClock d) (hook s))
  | Finished value =>
      withHook (handleFinishedEvent value userMessageTimestamp (hook s))
  | LoopDetected => withHook (setLoopDetected true (hook s))
  end.

(** Lines 652-662 and the switch: one iteration of the [for await] loop.
    An event whose identifier was seen is skipped; otherwise the
    identifier is recorded and the event dispatched. *)
Definition processEvent (userMessageTimestamp : N) (s : LoopState)
  (d : Delivery) : LoopState :=
  if decide (eventId d ∈ processedEventIds s) then s
  else
    dispatchEvent d userMessageTimestamp
      {| geminiMessageBuffer := geminiMessageBuffer s;
         toolCallRequests := toolCallRequests s;
         processedEventIds := {[ eventId d ]} ∪ processedEventIds s;
         hook := hook s |}.

(** The state in which the loop starts. *)
Definition loopStart (h : Hook) : LoopState :=
  {| geminiMessageBuffer := "";
     toolCallRequests := [];
     processedEventIds := ∅;
     hook := h |}.

(** The loop over a stream that ends. *)
Definition runLoop (userMessageTimestamp : N) (stream : list Delivery)
  (s : LoopState) : LoopState :=
  fold_left (processEvent userMessageTimestamp) stream s.

(** [processGeminiStreamEvents]: after the loop the collected requests,
    if any, are scheduled. *)
Definition processGeminiStreamEvents (stream : list Delivery)
  (userMessageTimestamp : N) (h : Hook) : StreamProcessingStatus * Hook :=
  let s := runLoop userMessageTimestamp stream (loopStart h) in
  (Completed,
   match toolCallRequests s with
   | [] => hook s
   | _ :: _ => scheduleToolCalls (toolCallRequests s) (hook s)
   end).

End Handlers.

(** *** Fragments as the backend means them

    A fragment is meant as an increment of the message or as the whole
    message so far; the hook sees only its text. *)
Inductive Fragment : Type :=
| Delta (added : string)
| Snapshot (whole : string).

Definition payload (f : Fragment) : string :=
  match f with Delta d => d | Snapshot w => w end.

(** The message text after a fragment, as the backend means it. *)
Definition intend (T : string) (f : Fragment) : string :=
  match f with Delta d => T +:+ d | Snapshot w => w end.

(** The text of the gemini entries (types gemini and gemini_content) in
    a list of transcript entries, in order. *)
Definition committedText (entries : list (HistoryItemWithoutId * N))
  : string :=
  fold_right
    (fun e acc =>
       match fst e with
       | TextItem gemini t | TextItem gemini_content t => t +:+ acc
       | _ => acc
       end) "" entries.

(** What the transcript and the open buffer stand for together, for a
    hook whose transcript held nothing when the message began. *)
Definition reconstructed (buffer : string) (h : Hook) : string :=
  committedText (transcript h) +:+ buffer.

(** The text of the message that has been moved to the transcript: the
    gemini entries added since the message began, when the transcript
    had [base] entries. *)
Definition committedSince (base : nat) (h : Hook) : string :=
  committedText (drop base (transcript h)).

(** What the entries of the message and the open buffer stand for
    together. *)
Definition reconstructedSince (base : nat) (buffer : string) (h : Hook)
  : string :=
  committedSince base h +:+ buffer.

(** A run of [handleContentEvent] over the texts of fragments. *)
Definition feed (findLastSafeSplitPoint : string -> nat)
  (userMessageTimestamp : N) (st : string * Hook) (f : Fragment)
  : string * Hook :=
  handleContentEvent findLastSafeSplitPoint (payload f) (fst st)
    userMessageTimestamp (snd st).

(** Whether a fragment is read by [accumulate] as it is meant.  An
    increment is, unless it is not empty and starts with a buffer that is
    not empty; the whole message so far is, if it starts with the buffer
    and no text of this message has been moved to the transcript. *)
Definition readAsMeant (base : nat) (f : Fragment) (buffer : string)
  (h : Hook) : bool :=
  match f with
  | Delta d => isEmpty d || isEmpty buffer || negb (startsWith d buffer)
  | Snapshot w => isEmpty (committedSince base h) && startsWith w buffer
  end.

(** Whether the emission step keeps the text before the split point: no
    split is made, or that text is empty, or it differs from the text of
    the pending item (so that line 466 adds it to the transcript). *)
Definition splitKeepsText (findLastSafeSplitPoint : string -> nat)
  (newBuffer : string) (userMessageTimestamp : N) (h : Hook) : bool :=
  let splitPoint := findLastSafeSplitPoint newBuffer in
  (splitPoint =? String.length newBuffer)
  || isEmpty (substring_to splitPoint newBuffer)
  || negb (String.eqb (substring_to splitPoint newBuffer)
             (pendingText (ensureGeminiPending userMessageTimestamp h))).

(** The content event that carries a fragment to the loop.  The clock
    and the random number of a delivery play no part for a content
    event. *)
Definition fragmentDelivery (f : Fragment) : Delivery :=
  {| event := ContentEvent (payload f); idClock := 0; idRandom := "";
     itemClock := 0 |}.

Section Faithful.

Variable findLastSafeSplitPoint : string -> nat.
Variable eventTypeName : GeminiEventType.t -> string.
Variable parseAndFormatApiError : string -> string.
Variable getModel : string.
Variable getMaxSessionTurns : Z.

(** Whether the loop keeps the meaning of a fragment.  A fragment whose
    identifier has been seen in the turn is skipped by the loop: it must
    add nothing to the text.  Any other fragment must be read as it is
    meant, and the emission step, if it is reached, must keep the text
    before the split point. *)
Definition stepFaithful (base : nat) (userMessageTimestamp : N)
  (s : LoopState) (f : Fragment) : bool :=
  let soFar := reconstructedSince base (geminiMessageBuffer s) (hook s) in
  if bool_decide
       (eventId eventTypeName (fragmentDelivery f) ∈ processedEventIds s)
  then String.eqb (intend soFar f) soFar
  else
    readAsMeant base f (geminiMessageBuffer s) (hook s) &&
    (isEmpty (payload f)
     || String.eqb (accumulate (payload f) (geminiMessageBuffer s))
          (geminiMessageBuffer s)
     || splitKeepsText findLastSafeSplitPoint
          (accumulate (payload f) (geminiMessageBuffer s))
          userMessageTimestamp (hook s)).

(** Every fragment of a run through the loop keeps its meaning. *)
Fixpoint faithful (base : nat) (userMessageTimestamp : N)
  (fs : list Fragment) (s : LoopState) : bool :=
  match fs with
  | [] => true
  | f :: fs' =>
      stepFaithful base userMessageTimestamp s f &&
      faithful base userMessageTimestamp fs'
        (processEvent findLastSafeSplitPoint eventTypeName
           parseAndFormatApiError getModel getMaxSessionTurns
           userMessageTimestamp s (fragmentDelivery f))
  end.

End Faithful.

(** A split-point function that cuts after the last blank line, and
    nowhere if there is none. *)
Fixpoint lastBlankLine (s : string) (position : nat) (found : option nat)
  : option nat :=
  match s with
  | EmptyString => found
  | String c s' =>
      lastBlankLine s' (S position)
        (match s' with
         | String c' _ =>
             if Ascii.eqb c "010" && Ascii.eqb c' "010"
             then Some (position + 2) else found
         | EmptyString => found
         end)
  end.

Definition splitAfterBlankLine (s : string) : nat :=
  default (String.length s) (lastBlankLine s 0 None).

(** A split-point function that never splits. *)
Definition noSplit (s : string) : nat := String.length s.

(** A hook at the start of a turn: nothing pending, nothing written. *)
Definition idleHook : Hook :=
  {| turnCancelledRef := false;
     pendingHistoryItemRef := None;
     transcript := [];
     thought := None;
     isResponding := false;
     loopDetectedRef := false;
     scheduled := [] |}.


(** A content event as the loop meets it at the time [clock]. *)
Definition contentAt (clock : N) (value : string) : Delivery :=
  {| event := ContentEvent value; idClock := clock; idRandom := "0.25";
     itemClock := clock |}.

(** A naming of the event types, one name for each type. *)
Definition kindName (ty : GeminiEventType.t) : string :=
  match ty with
  | GeminiEventType.Thought => "thought"
  | GeminiEventType.Content => "content"
  | GeminiEventType.ToolCallRequest => "tool_call_request"
  | GeminiEventType.UserCancelled => "user_cancelled"
  | GeminiEventType.Error => "error"
  | GeminiEventType.ChatCompressed => "chat_compressed"
  | GeminiEventType.ToolCallConfirmation => "tool_call_confirmation"
  | GeminiEventType.ToolCallResponse => "tool_call_response"
  | GeminiEventType.MaxSessionTurns => "max_session_turns"
  | GeminiEventType.Finished => "finished"
  | GeminiEventType.LoopDetected => "loop_detected"
  end.

End Stream.

(** ** Submission of tool results
    ([useGeminiStream.ts], the [onComplete] callback given to
    [useReactToolScheduler], and [handleCompletedTools]) *)

Module Submission.

Inductive Status : Type :=
| scheduled | validating | awaiting_approval | executing
| success | error | cancelled.

(** A [TrackedToolCall].  [responseParts] is
    [response?.responseParts]: [None] when the call has no response or
    the response no parts. *)
Record TrackedToolCall : Type := {
  request : ToolCallRequestInfo;
  status : Status;
  responseParts : option (list Part)
}.

(** A batch in which every call is a completed call, as the parameter of
    [onComplete] is typed: a terminal status and a response with parts. *)
Definition isTerminalState (tc : TrackedToolCall) : bool :=
  match status tc with
  | success | error | cancelled => true
  | _ => false
  end.

Definition settled (batch : list TrackedToolCall) : Prop :=
  Forall (fun tc => isTerminalState tc = true /\ is_Some (responseParts tc))
    batch.

(** The refs of the hook that the submission reads and writes, and the
    logs of what it asks of its collaborators: [displayed] for
    [addItem(mapTrackedToolCallsToDisplay(batch))], [submitted] for
    [markToolsAsSubmitted], [clientHistory] for [geminiClient.addHistory],
    [memoryRefreshes] for [performMemoryRefresh], [continuations] for
    [submitQuery(responses, {isContinuation: true}, prompt_id)], and
    [timers] for the callbacks given to [setTimeout] that have not run. *)
Record Refs : Type := {
  toolSubmissionInProgressRef : bool;
  pendingToolSubmissionRef : option (list TrackedToolCall);
  processedMemoryToolsRef : gset string;
  displayed : list (list TrackedToolCall);
  submitted : list (list string);
  clientHistory : list Content;
  memoryRefreshes : nat;
  continuations : list (list Part * option string);
  timers : list (list TrackedToolCall)
}.

Definition initialRefs : Refs :=
  {| toolSubmissionInProgressRef := false;
     pendingToolSubmissionRef := None;
     processedMemoryToolsRef := ∅;
     displayed := [];
     submitted := [];
     clientHistory := [];
     memoryRefreshes := 0;
     continuations := [];
     timers := [] |}.

(** How a call of [handleCompletedTools] leaves its synchronous part. *)
Inductive PassResult : Type :=
| Refused
  (** returned at the guard of line 892 *)
| Returned
  (** went past the guard and returned before [submitQuery] *)
| Awaiting (responsesToSend : list Part) (prompt_id0 : option string).
  (** suspended at [await submitQuery(...)] *)

(** Lines 902-922. *)
Definition completedAndReadyToSubmit (tc : TrackedToolCall) : bool :=
  isTerminalState tc &&
  match responseParts tc with Some _ => true | None => false end.

Definition partsOf (tc : TrackedToolCall) : list Part :=
  default [] (responseParts tc).

Definition isNewMemorySave (seen : gset string) (tc : TrackedToolCall)
  : bool :=
  String.eqb (name (request tc)) "save_memory" &&
  match status tc with success => true | _ => false end &&
  negb (bool_decide (callId (request tc) ∈ seen)).

Definition isCancelled (tc : TrackedToolCall) : bool :=
  match status tc with cancelled => true | _ => false end.

(** [handleCompletedTools] up to and with the call of [submitQuery].
    [isResponding] and [modelSwitchedFromQuotaError] are the values the
    closure that runs was built with. *)
Definition handleCompletedTools_start
  (isResponding modelSwitchedFromQuotaError : bool)
  (completedToolCallsFromScheduler : list TrackedToolCall) (r : Refs)
  : PassResult * Refs :=
  if isResponding || toolSubmissionInProgressRef r then (Refused, r)
  else
    let completedAndReadyToSubmitTools :=
      filter (fun tc => completedAndReadyToSubmit tc = true)
        completedToolCallsFromScheduler in
    let clientTools :=
      filter (fun t => isClientInitiated (request t) = true)
        completedAndReadyToSubmitTools in
    let submitted1 :=
      match clientTools with
      | [] => submitted r
      | _ :: _ => submitted r ++ [map (fun t => callId (request t)) clientTools]
      end in
    let newSuccessfulMemorySaves :=
      filter (fun t => isNewMemorySave (processedMemoryToolsRef r) t = true)
        completedAndReadyToSubmitTools in
    let refreshes1 :=
      match newSuccessfulMemorySaves with
      | [] => memoryRefreshes r
      | _ :: _ => S (memoryRefreshes r)
      end in
    let processed1 :=
      list_to_set (map (fun t => callId (request t)) newSuccessfulMemorySaves)
      ∪ processedMemoryToolsRef r in
    let geminiTools :=
      filter (fun t => isClientInitiated (request t) = false)
        completedAndReadyToSubmitTools in
    let r1 :=
      {| toolSubmissionInProgressRef := true;
         pendingToolSubmissionRef := pendingToolSubmissionRef r;
         processedMemoryToolsRef := processed1;
         displayed := displayed r;
         submitted := submitted1;
         clientHistory := clientHistory r;
         memoryRefreshes := refreshes1;
         continuations := continuations r;
         timers := timers r |} in
    match geminiTools with
    | [] => (Returned, r1)
    | _ :: _ =>
        let responses := flat_map partsOf geminiTools in
        let callIdsToMarkAsSubmitted :=
          map (fun t => callId (request t)) geminiTools in
        if forallb isCancelled geminiTools then
          (Returned,
           {| toolSubmissionInProgressRef := true;
              pendingToolSubmissionRef := pendingToolSubmissionRef r1;
              processedMemoryToolsRef := processedMemoryToolsRef r1;
              displayed := displayed r1;
              submitted := submitted r1 ++ [callIdsToMarkAsSubmitted];
              clientHistory :=
                clientHistory r1
                ++ [{| role := "user"; parts := Some responses |}];
              memoryRefreshes := memoryRefreshes r1;
              continuations := continuations r1;
              timers := timers r1 |})
        else
          let prompt_ids := map (fun t => prompt_id (request t)) geminiTools in
          let r2 :=
            {| toolSubmissionInProgressRef := true;
               pendingToolSubmissionRef := pendingToolSubmissionRef r1;
               processedMemoryToolsRef := processedMemoryToolsRef r1;
               displayed := displayed r1;
               submitted := submitted r1 ++ [callIdsToMarkAsSubmitted];
               clientHistory := clientHistory r1;
               memoryRefreshes := memoryRefreshes r1;
               continuations := continuations r1;
               timers := timers r1 |} in
          if modelSwitchedFromQuotaError then (Returned, r2)
          else
            (Awaiting responses (head prompt_ids),
             {| toolSubmissionInProgressRef := true;
                pendingToolSubmissionRef := pendingToolSubmissionRef r2;
                processedMemoryToolsRef := processedMemoryToolsRef r2;
                displayed := displayed r2;
                submitted := submitted r2;
                clientHistory := clientHistory r2;
                memoryRefreshes := memoryRefreshes r2;
                continuations :=
                  continuations r2 ++ [(responses, head prompt_ids)];
                timers := timers r2 |})
    end.

(** Lines 1013-1029: the [finally] block, run when the awaited
    [submitQuery] has settled, whether it resolved or threw. *)
Definition handleCompletedTools_finally (r : Refs) : Refs :=
  match pendingToolSubmissionRef r with
  | Some pendingTools =>
      {| toolSubmissionInProgressRef := false;
         pendingToolSubmissionRef := None;
         processedMemoryToolsRef := processedMemoryToolsRef r;
         displayed := displayed r;
         submitted := submitted r;
         clientHistory := clientHistory r;
         memoryRefreshes := memoryRefreshes r;
         continuations := continuations r;
         timers := timers r ++ [pendingTools] |}
  | None =>
      {| toolSubmissionInProgressRef := false;
         pendingToolSubmissionRef := None;
         processedMemoryToolsRef := processedMemoryToolsRef r;
         displayed := displayed r;
         submitted := submitted r;
         clientHistory := clientHistory r;
         memoryRefreshes := memoryRefreshes r;
         continuations := continuations r;
         timers := timers r |}
  end.

(** How a call of [onComplete] ends. *)
Inductive Arrival : Type :=
| Ignored
  (** the batch was empty *)
| Queued
  (** a submission was in progress: the batch went to the pending slot *)
| Passed (result : PassResult).
  (** [handleCompletedTools] was called *)

(** Lines 111-144: the [onComplete] callback. *)
Definition onComplete (isResponding modelSwitchedFromQuotaError : bool)
  (completedToolCallsFromScheduler : list TrackedToolCall) (r : Refs)
  : Arrival * Refs :=
  match completedToolCallsFromScheduler with
  | [] => (Ignored, r)
  | _ :: _ =>
      let r1 :=
        {| toolSubmissionInProgressRef := toolSubmissionInProgressRef r;
           pendingToolSubmissionRef := pendingToolSubmissionRef r;
           processedMemoryToolsRef := processedMemoryToolsRef r;
           displayed := displayed r ++ [completedToolCallsFromScheduler];
           submitted := submitted r;
           clientHistory := clientHistory r;
           memoryRefreshes := memoryRefreshes r;
           continuations := continuations r;
           timers := timers r |} in
      if toolSubmissionInProgressRef r1 then
        (Queued,
         {| toolSubmissionInProgressRef := toolSubmissionInProgressRef r1;
            pendingToolSubmissionRef := Some completedToolCallsFromScheduler;
            processedMemoryToolsRef := processedMemoryToolsRef r1;
            displayed := displayed r1;
            submitted := submitted r1;
            clientHistory := clientHistory r1;
            memoryRefreshes := memoryRefreshes r1;
            continuations := continuations r1;
            timers := timers r1 |})
      else
        let res :=
          handleCompletedTools_start isResponding modelSwitchedFromQuotaError
            completedToolCallsFromScheduler r1 in
        (Passed (fst res), snd res)
  end.

(** Sample calls: one tool call with one text part as its response. *)
Definition sampleCall (id : string) (st : Status) (client : bool)
  : TrackedToolCall :=
  {| request :=
       {| callId := id; name := "read_file"; args := [];
          isClientInitiated := client; prompt_id := "session########1" |};
     status := st;
     responseParts :=
       Some [{| text := Some id; inlineData := None;
                functionCall := None; functionResponse := None |}] |}.

(** *** The event loop around the submission

    The hook runs on one thread.  Between two of its steps the scheduler
    may deliver a settled batch ([Settle]: [onComplete] is called by a
    closure built with the given [isResponding] and
    [modelSwitchedFromQuotaError]), the awaited continuation of a pass may
    settle ([ContinuationSettles], resolved or rejected: the [finally]
    block runs), or a callback given to [setTimeout] may run
    ([TimerFires]).  That callback is [handleCompletedTools] of the
    closure whose pass reached [submitQuery], so its [isResponding] and
    its [modelSwitchedFromQuotaError] are [false].

    Besides the refs, a machine state counts the passes suspended at
    [await submitQuery] ([inFlight]) and records where each non-empty
    batch went: [arrived] lists the batches given to [onComplete],
    [started] those for which [handleCompletedTools] went past its guard,
    [refused] those it returned for at the guard, [replaced] those
    overwritten in the pending slot. *)
Inductive Action : Type :=
| Settle (isResponding modelSwitchedFromQuotaError : bool)
    (batch : list TrackedToolCall)
| ContinuationSettles (resolved : bool)
| TimerFires.

Record Machine : Type := {
  refs : Refs;
  inFlight : nat;
  arrived : list (list TrackedToolCall);
  started : list (list TrackedToolCall);
  refused : list (list TrackedToolCall);
  replaced : list (list TrackedToolCall)
}.

Definition initialMachine : Machine :=
  {| refs := initialRefs; inFlight := 0;
     arrived := []; started := []; refused := []; replaced := [] |}.

(** The bookkeeping of a call of [handleCompletedTools]. *)
Definition record (batch : list TrackedToolCall) (res : PassResult)
  (r' : Refs) (m : Machine) : Machine :=
  match res with
  | Refused =>
      {| refs := r'; inFlight := inFlight m; arrived := arrived m;
         started := started m; refused := refused m ++ [batch];
         replaced := replaced m |}
  | Returned =>
      {| refs := r'; inFlight := inFlight m; arrived := arrived m;
         started := started m ++ [batch]; refused := refused m;
         replaced := replaced m |}
  | Awaiting _ _ =>
      {| refs := r'; inFlight := S (inFlight m); arrived := arrived m;
         started := started m ++ [batch]; refused := refused m;
         replaced := replaced m |}
  end.

Definition popTimer (r : Refs) : Refs :=
  {| toolSubmissionInProgressRef := toolSubmissionInProgressRef r;
     pendingToolSubmissionRef := pendingToolSubmissionRef r;
     processedMemoryToolsRef := processedMemoryToolsRef r;
     displayed := displayed r;
     submitted := submitted r;
     clientHistory := clientHistory r;
     memoryRefreshes := memoryRefreshes r;
     continuations := continuations r;
     timers := tail (timers r) |}.

Definition step (m : Machine) (a : Action) : Machine :=
  match a with
  | Settle isResponding modelSwitchedFromQuotaError batch =>
      let out :=
        onComplete isResponding modelSwitchedFromQuotaError batch (refs m) in
      match fst out with
      | Ignored => m
      | Queued =>
          {| refs := snd out; inFlight := inFlight m;
             arrived := arrived m ++ [batch];
             started := started m; refused := refused m;
             replaced :=
               replaced m ++ option_list (pendingToolSubmissionRef (refs m)) |}
      | Passed res =>
          record batch res (snd out)
            {| refs := refs m; inFlight := inFlight m;
               arrived := arrived m ++ [batch];
               started := started m; refused := refused m;
               replaced := replaced m |}
      end
  | ContinuationSettles _ =>
      match inFlight m with
      | 0 => m
      | S k =>
          {| refs := handleCompletedTools_finally (refs m); inFlight := k;
             arrived := arrived m; started := started m;
             refused := refused m; replaced := replaced m |}
      end
  | TimerFires =>
      match timers (refs m) with
      | [] => m
      | pendingTools :: _ =>
          let out :=
            handleCompletedTools_start false false pendingTools
              (popTimer (refs m)) in
          record pendingTools (fst out) (snd out) m
      end
  end.

Definition run (actions : list Action) (m : Machine) : Machine :=
  fold_left step actions m.

End Submission.

(** ** The checkpoint recorder
    ([useGeminiStream.ts], [saveRestorableToolCalls]) *)

Module Checkpoint.

Import Submission.

(** What the recorder reports through [onDebugMessage]. *)
Inductive DebugNotice : Type :=
| MkdirFailed
| MissingFilePath (toolName : string)
| GitUnavailable
| SnapshotFailed
| NoCommitHash
| CheckpointFailed.

(** What the collaborators answer while one tool call is recorded:
    [gitService.createFileSnapshot] and [getCurrentCommitHash] ([None]
    when the call throws), [new Date().toISOString()],
    [geminiClient.getHistory()] as JSON ([None] when it throws; the
    client is there, as its type [GeminiClient] says), and whether
    [fs.writeFile] succeeds. *)
Record CallEnv : Type := {
  createFileSnapshot : option string;
  getCurrentCommitHash : option string;
  toISOString : string;
  getHistory : option JSON;
  writeFileOk : bool
}.

Record Effects : Type := {
  files : list (string * JSON);
  notices : list DebugNotice
}.

(** [toolCall.request.args['file_path']], and its truthiness. *)
Definition lookupArg (key : string) (a : list (string * JSON))
  : option JSON :=
  snd <$> find (fun kv => String.eqb (fst kv) key) a.

Definition truthy (v : option JSON) : bool :=
  match v with
  | None | Some JNull | Some (JBool false) => false
  | Some (JNumber z) => negb (z =? 0)%Z
  | Some (JString s) => negb (isEmpty s)
  | Some _ => true
  end.

Definition isRestorable (tc : TrackedToolCall) : bool :=
  (String.eqb (name (request tc)) "replace"
   || String.eqb (name (request tc)) "write_file") &&
  match status tc with awaiting_approval => true | _ => false end.

Section Recorder.

(** [path.basename] and [path.join] of Node. *)
Variable basename : string -> string.
Variable join : string -> string -> string.

(** Lines 1115-1118. *)
Definition checkpointTimestamp (iso : string) : string :=
  replaceAll "." "_" (replaceAll ":" "-" iso).

(** Line 1121. *)
Definition checkpointFileName (iso filePath toolName : string) : string :=
  checkpointTimestamp iso +:+ "-" +:+ basename filePath +:+ "-"
  +:+ toolName +:+ ".json".

(** Lines 1130-1143: the object given to [JSON.stringify]. *)
Definition checkpointRecord (history clientHistory : JSON)
  (toolCall : TrackedToolCall) (commitHash filePath : string) : JSON :=
  JObject
    [("history", history);
     ("clientHistory", clientHistory);
     ("toolCall",
      JObject [("name", JString (name (request toolCall)));
               ("args", JObject (args (request toolCall)))]);
     ("commitHash", JString commitHash);
     ("filePath", JString filePath)].

(** A commit hash that is not falsy. *)
Definition usable (h : option string) : option string :=
  match h with
  | Some s => if isEmpty s then None else Some s
  | None => None
  end.

(** Lines 1115-1144: the file is named and written.  [path.basename]
    throws for a [file_path] that is not a string, and [getHistory] or
    [fs.writeFile] may throw: the [catch] of line 1145 then reports the
    failure and nothing is written. *)
Definition writeCheckpoint (checkpointDir : string) (history : JSON)
  (env : CallEnv) (toolCall : TrackedToolCall) (filePath : option JSON)
  (commitHash : string) (reported : list DebugNotice) : Effects :=
  match filePath, getHistory env with
  | Some (JString path), Some clientHistory =>
      if writeFileOk env then
        {| files :=
             [(join checkpointDir
                 (checkpointFileName (toISOString env) path
                    (name (request toolCall))),
               checkpointRecord history clientHistory toolCall commitHash
                 path)];
           notices := reported |}
      else {| files := []; notices := reported ++ [CheckpointFailed] |}
  | _, _ => {| files := []; notices := reported ++ [CheckpointFailed] |}
  end.

(** Lines 1076-1152: the body of the loop for one tool call. *)
Definition saveOne (checkpointDir : string) (history : JSON)
  (gitService : bool) (env : CallEnv) (toolCall : TrackedToolCall)
  : Effects :=
  let filePath := lookupArg "file_path" (args (request toolCall)) in
  if negb (truthy filePath) then
    {| files := [];
       notices := [MissingFilePath (name (request toolCall))] |}
  else if negb gitService then {| files := []; notices := [GitUnavailable] |}
  else
    let reported :=
      match createFileSnapshot env with
      | Some _ => []
      | None => [SnapshotFailed]
      end in
    match usable (createFileSnapshot env) with
    | Some commitHash =>
        writeCheckpoint checkpointDir history env toolCall filePath
          commitHash reported
    | None =>
        match getCurrentCommitHash env with
        | None => {| files := []; notices := reported ++ [CheckpointFailed] |}
        | Some current =>
            match usable (Some current) with
            | None => {| files := []; notices := reported ++ [NoCommitHash] |}
            | Some commitHash =>
                writeCheckpoint checkpointDir history env toolCall filePath
                  commitHash reported
            end
        end
    end.

(** What the claim says of a file written for the tool call [tc] under
    the answers [e]: its name is the timestamp, the base name of the
    target path and the name of the tool, and its content the object with
    the five fields. *)
Definition recordOf (checkpointDir : string) (history : JSON)
  (tc : TrackedToolCall) (e : CallEnv) (f : string * JSON) : Prop :=
  exists path commitHash clientHistory,
    lookupArg "file_path" (args (request tc)) = Some (JString path)
    /\ path <> ""
    /\ commitHash <> ""
    /\ getHistory e = Some clientHistory
    /\ fst f
       = join checkpointDir
           (checkpointTimestamp (toISOString e) +:+ "-" +:+ basename path
            +:+ "-" +:+ name (request tc) +:+ ".json")
    /\ snd f
       = JObject
           [("history", history);
            ("clientHistory", clientHistory);
            ("toolCall",
             JObject [("name", JString (name (request tc)));
                      ("args", JObject (args (request tc)))]);
            ("commitHash", JString commitHash);
            ("filePath", JString path)].

(** The loop, with the answers of the collaborators for the [i]-th
    restorable call given by [env i]. *)
Fixpoint saveAll (checkpointDir : string) (history : JSON)
  (gitService : bool) (env : nat -> CallEnv) (i : nat)
  (calls : list TrackedToolCall) : Effects :=
  match calls with
  | [] => {| files := []; notices := [] |}
  | toolCall :: rest =>
      let one := saveOne checkpointDir history gitService (env i) toolCall in
      let more := saveAll checkpointDir history gitService env (S i) rest in
      {| files := files one ++ files more;
         notices := notices one ++ notices more |}
  end.

(** [saveRestorableToolCalls].  [checkpointDir] is [None] when
    [storage.getProjectTempCheckpointsDir()] is falsy; [mkdirOk] says
    that [fs.mkdir] resolved or failed with [EEXIST]. *)
Definition saveRestorableToolCalls (checkpointingEnabled : bool)
  (checkpointDir : option string) (mkdirOk gitService : bool)
  (history : JSON) (env : nat -> CallEnv) (toolCalls : list TrackedToolCall)
  : Effects :=
  if negb checkpointingEnabled then {| files := []; notices := [] |}
  else
    match filter (fun tc => isRestorable tc = true) toolCalls with
    | [] => {| files := []; notices := [] |}
    | restorableToolCalls =>
        match checkpointDir with
        | None => {| files := []; notices := [] |}
        | Some dir =>
            if mkdirOk
            then saveAll dir history gitService env 0 restorableToolCalls
            else {| files := []; notices := [MkdirFailed] |}
        end
    end.

End Recorder.

(** The field names of a JSON object. *)
Definition keys (j : JSON) : option (list string) :=
  match j with
  | JObject fields => Some (map fst fields)
  | _ => None
  end.

(** One field of a JSON object. *)
Definition field (key : string) (j : JSON) : option JSON :=
  match j with
  | JObject fields => lookupArg key fields
  | _ => None
  end.

(** The last component of a path written with [/]. *)
Fixpoint afterLastSlash (acc s : string) : string :=
  match s with
  | EmptyString => acc
  | String c s' =>
      if Ascii.eqb c "/" then afterLastSlash s' s' else afterLastSlash acc s'
  end.

Definition posixBasename (p : string) : string := afterLastSlash p p.

Definition posixJoin (dir file : string) : string := dir +:+ "/" +:+ file.

End Checkpoint.

(** ** Token counting of the OpenAI content generator
    ([OpenAIContentGenerator.countTokens]) *)

Module OpenAI.

Record CountTokensResponse : Type := { totalTokens : Z }.

(** [Math.ceil(n / 4)] for the length [n] of a string. *)
Definition ceilQuarter (n : nat) : Z :=
  Qround.Qceiling (QArith_base.Qmake (Z.of_nat n) 4).

Section CountTokens.

(** The request's [contents] and [toContents] of the code-assist
    converter, which brings them to a list of [Content]. *)
Variable ContentListUnion : Type.
Variable toContents : ContentListUnion -> list Content.

(** The inner loop: the parts of one content. *)
Definition addParts (totalTokens : Z) (ps : list Part) : Z :=
  fold_left
    (fun total part =>
       match text part with
       | Some t =>
           if isEmpty t then total
           else (total + ceilQuarter (String.length t))%Z
       | None => total
       end)
    ps totalTokens.

(** The outer loop: the contents. *)
Definition addContents (totalTokens : Z) (contents : list Content) : Z :=
  fold_left
    (fun total content =>
       match parts content with
       | Some ps => addParts total ps
       | None => total
       end)
    contents totalTokens.

Definition countTokens (requestContents : ContentListUnion)
  : CountTokensResponse :=
  {| totalTokens := addContents 0 (toContents requestContents) |}.

End CountTokens.

(** The texts of the parts of a list of contents, in order. *)
Definition textsOf (contents : list Content) : list string :=
  omap text (flat_map (fun c => default [] (parts c)) contents).

(** The sum of the quarters, rounded up, of the lengths of texts. *)
Definition quarterSum (texts : list string) : Z :=
  foldr (fun t acc => (ceilQuarter (String.length t) + acc)%Z) 0%Z texts.

End OpenAI.

(** ** Validation of the authentication method
    ([packages/cli/src/config/auth.ts], [validateAuthMethod]) *)

Module Auth.

(** The members of [AuthType] that [validateAuthMethod] names. *)
Inductive AuthType : Type :=
| LOGIN_WITH_GOOGLE | CLOUD_SHELL | LOGIN_WITH_GOOGLE_GCA
| USE_GEMINI | USE_VERTEX_AI | USE_OPENAI.

(** [!process.env[key]]: the variable is missing or empty. *)
Definition unset (env : gmap string string) (key : string) : bool :=
  match env !! key with
  | Some v => isEmpty v
  | None => true
  end.

(** What a call does besides its result: the environment it leaves and
    whether it asked for the key on the terminal. *)
Record Outcome : Type := {
  result : option string;
  environment : gmap string string;
  prompted : bool
}.

Section Validate.

(** The string values of [AuthType] (of the core package) and
    [loadEnvironment] of [settings.js], as it changes [process.env]. *)
Variable authTypeValue : AuthType -> string.
Variable loadEnvironment : gmap string string -> gmap string string.

(** [validateAuthMethod]; [answer] is what [rl.question] resolves to if
    it is called. *)
Definition validateAuthMethod (authMethod : string) (answer : string)
  (processEnv : gmap string string) : Outcome :=
  let env := loadEnvironment processEnv in
  let done r := {| result := r; environment := env; prompted := false |} in
  if String.eqb authMethod (authTypeValue LOGIN_WITH_GOOGLE)
     || String.eqb authMethod (authTypeValue CLOUD_SHELL)
  then done None
  else if String.eqb authMethod (authTypeValue LOGIN_WITH_GOOGLE_GCA) then
    if unset env "GOOGLE_CLOUD_PROJECT" then
      done
        (Some ("[Error] GOOGLE_CLOUD_PROJECT is not set." +:+ String "010" ""
               +:+ "Please set it using:" +:+ String "010" ""
               +:+ "  export GOOGLE_CLOUD_PROJECT=<your-project-id>"
               +:+ String "010" "" +:+ "and try again."))
    else done None
  else if String.eqb authMethod (authTypeValue USE_GEMINI) then
    if unset env "GEMINI_API_KEY" then
      done
        (Some "GEMINI_API_KEY environment variable not found. Add that to your environment and try again (no reload needed if using .env)!")
    else done None
  else if String.eqb authMethod (authTypeValue USE_VERTEX_AI) then
    let hasVertexProjectLocationConfig :=
      negb (unset env "GOOGLE_CLOUD_PROJECT")
      && negb (unset env "GOOGLE_CLOUD_LOCATION") in
    let hasGoogleApiKey := negb (unset env "GOOGLE_API_KEY") in
    if negb hasVertexProjectLocationConfig && negb hasGoogleApiKey then
      done
        (Some ("When using Vertex AI, you must specify either:"
               +:+ String "010" ""
               +:+ "• GOOGLE_CLOUD_PROJECT and GOOGLE_CLOUD_LOCATION environment variables."
               +:+ String "010" ""
               +:+ "• GOOGLE_API_KEY environment variable (if using express mode)."
               +:+ String "010" ""
               +:+ "Update your environment and try again (no reload needed if using .env)!"))
    else done None
  else if String.eqb authMethod (authTypeValue USE_OPENAI) then
    if unset env "OPENAI_API_KEY" then
      if isEmpty answer then
        {| result := Some "OPENAI_API_KEY not provided.";
           environment := env; prompted := true |}
      else
        {| result := None;
           environment := <["OPENAI_API_KEY" := answer]> env;
           prompted := true |}
    else done None
  else done (Some "Invalid auth method selected.").

End Validate.

(** A variable that is there and not empty. *)
Definition provided (env : gmap string string) (key : string) : Prop :=
  exists v, env !! key = Some v /\ v <> "".

(** A naming of the authentication types, one name for each, with the
    value ['openai-api-key'] that the design notes of the repository give
    for [USE_OPENAI]. *)
Definition authTypeName (a : AuthType) : string :=
  match a with
  | LOGIN_WITH_GOOGLE => "oauth-personal"
  | CLOUD_SHELL => "cloud-shell"
  | LOGIN_WITH_GOOGLE_GCA => "oauth-gca"
  | USE_GEMINI => "gemini-api-key"
  | USE_VERTEX_AI => "vertex-ai"
  | USE_OPENAI => "openai-api-key"
  end.

End Auth.

(** ** The OpenAI content generator: streaming and conversion of
    completions ([OpenAIContentGenerator.generateContentStream],
    [createStreamingResponse], [convertToGenerateContentResponse],
    [mapFinishReason]) *)

Module OpenAIGenerator.

(** A tool call of a completion; while streaming, [toolCallId] is the
    [id] of the first fragment, which may be missing. *)
Record ToolCall : Type := {
  toolCallId : option string;
  functionName : string;
  functionArguments : string
}.

(** A fragment of a tool call in a streamed chunk: [function?.name] and
    [function?.arguments] are [None] when missing. *)
Record ToolCallDelta : Type := {
  index : nat;
  deltaId : option string;
  deltaName : option string;
  deltaArguments : option string
}.

(** What the loop reads of a chunk: [choices[0]?.delta?.content],
    [choices[0]?.delta?.tool_calls] and [choices[0]?.finish_reason]. *)
Record Chunk : Type := {
  deltaContent : option string;
  deltaToolCalls : option (list ToolCallDelta);
  finish_reason : option string
}.

(** The one candidate of a [GenerateContentResponse]: the parts of its
    content (the role is 'model') and its finish reason. *)
Record GenerateContentResponse : Type := {
  candidateParts : list Part;
  finishReason : option Stream.FinishReason
}.

(** A string that is there and not empty. *)
Definition truthyString (s : option string) : bool :=
  match s with Some t => negb (isEmpty t) | None => false end.

Definition textPart (t : string) : Part :=
  {| text := Some t; inlineData := None;
     functionCall := None; functionResponse := None |}.

Definition functionCallPart (fname : string) (fargs : JSON) : Part :=
  {| text := None; inlineData := None;
     functionCall := Some (fname, fargs); functionResponse := None |}.

(** [accumulatedToolCalls[i]]: [None] for a hole and past the end. *)
Definition slot (i : nat) (calls : list (option ToolCall)) : option ToolCall :=
  mjoin (calls !! i).

(** [accumulatedToolCalls[i] = call]: past the end the array grows, with
    holes before the new element. *)
Definition assignAt (i : nat) (call : ToolCall)
  (calls : list (option ToolCall)) : list (option ToolCall) :=
  if i <? length calls then <[i := Some call]> calls
  else calls ++ replicate (i - length calls) None ++ [Some call].

(** Lines 139-156: one fragment of a tool call. *)
Definition addToolCallDelta (calls : list (option ToolCall))
  (d : ToolCallDelta) : list (option ToolCall) :=
  let calls1 :=
    match slot (index d) calls with
    | Some _ => calls
    | None =>
        assignAt (index d)
          {| toolCallId := deltaId d; functionName := "";
             functionArguments := "" |} calls
    end in
  let calls2 :=
    match slot (index d) calls1, deltaName d with
    | Some call, Some n =>
        if isEmpty n then calls1
        else
          assignAt (index d)
            {| toolCallId := toolCallId call;
               functionName := functionName call +:+ n;
               functionArguments := functionArguments call |} calls1
    | _, _ => calls1
    end in
  match slot (index d) calls2, deltaArguments d with
  | Some call, Some a =>
      if isEmpty a then calls2
      else
        assignAt (index d)
          {| toolCallId := toolCallId call;
             functionName := functionName call;
             functionArguments := functionArguments call +:+ a |} calls2
  | _, _ => calls2
  end.

Section Generator.

(** [JSON.parse]: [None] when it throws. *)
Variable parse : string -> option JSON.

(** Lines 437-451: the parts for the tool calls.  A hole of the array
    is [undefined], and reading its [function] throws: [None]. *)
Fixpoint toolCallParts (toolCalls : list (option ToolCall))
  : option (list Part) :=
  match toolCalls with
  | [] => Some []
  | None :: _ => None
  | Some call :: rest =>
      match toolCallParts rest with
      | None => None
      | Some more =>
          if negb (isEmpty (functionName call))
             && negb (isEmpty (functionArguments call))
          then
            match parse (functionArguments call) with
            | Some a => Some (functionCallPart (functionName call) a :: more)
            | None => Some more
            end
          else Some more
      end
  end.

(** [createStreamingResponse]; [None] when it throws. *)
Definition createStreamingResponse (content : string) (isComplete : bool)
  (toolCalls : option (list (option ToolCall)))
  : option GenerateContentResponse :=
  let textParts := if isEmpty content then [] else [textPart content] in
  match toolCalls with
  | None =>
      Some {| candidateParts := textParts;
              finishReason := if isComplete then Some Stream.STOP else None |}
  | Some calls =>
      match toolCallParts calls with
      | None => None
      | Some callParts =>
          Some {| candidateParts := textParts ++ callParts;
                  finishReason :=
                    if isComplete then Some Stream.STOP else None |}
      end
  end.

(** The locals of the loop of [generateContentStream], what it has
    yielded, and whether it has thrown. *)
Record Run : Type := {
  accumulatedContent : string;
  accumulatedToolCalls : list (option ToolCall);
  previousContentLength : nat;
  yielded : list GenerateContentResponse;
  thrown : bool
}.

Definition startRun : Run :=
  {| accumulatedContent := ""; accumulatedToolCalls := [];
     previousContentLength := 0; yielded := []; thrown := false |}.

(** Lines 126-135: the content of the chunk, if it has some. *)
Definition addContent (r : Run) (chunk : Chunk) : Run :=
  match deltaContent chunk with
  | Some content =>
      if isEmpty content then r
      else
        let accumulated := accumulatedContent r +:+ content in
        let newContent :=
          substring_from (previousContentLength r) accumulated in
        if isEmpty newContent then
          {| accumulatedContent := accumulated;
             accumulatedToolCalls := accumulatedToolCalls r;
             previousContentLength := previousContentLength r;
             yielded := yielded r; thrown := thrown r |}
        else
          {| accumulatedContent := accumulated;
             accumulatedToolCalls := accumulatedToolCalls r;
             previousContentLength := String.length accumulated;
             yielded :=
               yielded r
               ++ [{| candidateParts := [textPart newContent];
                      finishReason := None |}];
             thrown := thrown r |}
  | None => r
  end.

(** Lines 137-157: the fragments of tool calls of the chunk. *)
Definition addToolCalls (r : Run) (chunk : Chunk) : Run :=
  match deltaToolCalls chunk with
  | Some deltas =>
      {| accumulatedContent := accumulatedContent r;
         accumulatedToolCalls :=
           fold_left addToolCallDelta deltas (accumulatedToolCalls r);
         previousContentLength := previousContentLength r;
         yielded := yielded r; thrown := thrown r |}
  | None => r
  end.

(** Lines 159-169: the end of the completion.  A response is yielded
    only if tool calls were accumulated. *)
Definition finishChunk (r : Run) (chunk : Chunk) : Run :=
  if truthyString (finish_reason chunk) then
    match accumulatedToolCalls r with
    | [] => r
    | _ :: _ =>
        match
          createStreamingResponse (accumulatedContent r) true
            (Some (accumulatedToolCalls r))
        with
        | Some response =>
            {| accumulatedContent := accumulatedContent r;
               accumulatedToolCalls := accumulatedToolCalls r;
               previousContentLength := previousContentLength r;
               yielded := yielded r ++ [response]; thrown := thrown r |}
        | None =>
            {| accumulatedContent := accumulatedContent r;
               accumulatedToolCalls := accumulatedToolCalls r;
               previousContentLength := previousContentLength r;
               yielded := yielded r; thrown := true |}
        end
    end
  else r.

(** Lines 123-170: the body of the loop for one chunk.  After a throw
    nothing more is read. *)
Definition onChunk (r : Run) (chunk : Chunk) : Run :=
  if thrown r then r
  else finishChunk (addToolCalls (addContent r chunk) chunk) chunk.

(** The generator run over the chunks of a stream that ends. *)
Definition generateContentStream (chunks : list Chunk) : Run :=
  fold_left onChunk chunks startRun.

(** [mapFinishReason] of a [finish_reason] that may be [null]. *)
Definition mapFinishReason (reason : option string)
  : option Stream.FinishReason :=
  match reason with
  | Some s =>
      if String.eqb s "stop" then Some Stream.STOP
      else if String.eqb s "length" then Some Stream.MAX_TOKENS
      else if String.eqb s "tool_calls" then Some Stream.STOP
      else if String.eqb s "content_filter" then Some Stream.SAFETY
      else Some Stream.OTHER
  | None => Some Stream.OTHER
  end.

(** What [convertToGenerateContentResponse] reads of a completion:
    the message of the first choice and the usage. *)
Record Completion : Type := {
  messageContent : option string;
  messageToolCalls : option (list ToolCall);
  choiceFinishReason : option string;
  usagePromptTokens : option Z;
  usageCompletionTokens : option Z;
  usageTotalTokens : option Z
}.

Record UsageMetadata : Type := {
  promptTokenCount : Z;
  candidatesTokenCount : Z;
  totalTokenCount : Z
}.

(** [JSON.parse(arguments || '{}')] for each tool call of the message;
    [None] when one of them throws. *)
Fixpoint messageToolCallParts (toolCalls : list ToolCall)
  : option (list Part) :=
  match toolCalls with
  | [] => Some []
  | call :: rest =>
      match
        parse (if isEmpty (functionArguments call) then "{}"
               else functionArguments call)
      with
      | None => None
      | Some a =>
          match messageToolCallParts rest with
          | None => None
          | Some more => Some (functionCallPart (functionName call) a :: more)
          end
      end
  end.

(** [usage?.field || 0]. *)
Definition orZero (n : option Z) : Z := default 0%Z n.

(** [convertToGenerateContentResponse]; [None] when it throws. *)
Definition convertToGenerateContentResponse (completion : Completion)
  : option (GenerateContentResponse * UsageMetadata) :=
  let textParts :=
    match messageContent completion with
    | Some c => if isEmpty c then [] else [textPart c]
    | None => []
    end in
  match
    match messageToolCalls completion with
    | Some calls => messageToolCallParts calls
    | None => Some []
    end
  with
  | None => None
  | Some callParts =>
      Some
        ({| candidateParts := textParts ++ callParts;
            finishReason := mapFinishReason (choiceFinishReason completion) |},
         {| promptTokenCount := orZero (usagePromptTokens completion);
            candidatesTokenCount := orZero (usageCompletionTokens completion);
            totalTokenCount := orZero (usageTotalTokens completion) |})
  end.

End Generator.

(** The contents of the chunks that carry some, in order. *)
Definition contentsOf (chunks : list Chunk) : list string :=
  omap (fun c => match deltaContent c with
                 | Some t => if isEmpty t then None else Some t
                 | None => None
                 end) chunks.

(** The fragments of tool calls of the chunks, in order. *)
Definition deltasOf (chunks : list Chunk) : list ToolCallDelta :=
  flat_map (fun c => default [] (deltaToolCalls c)) chunks.

(** The response that carries one piece of text while streaming. *)
Definition textResponse (t : string) : GenerateContentResponse :=
  {| candidateParts := [textPart t]; finishReason := None |}.

(** Strings joined with nothing between them. *)
Definition joined (l : list string) : string :=
  fold_right String.append "" l.

(** A response yielded for a piece of text, not for the end. *)
Definition isIncremental (r : GenerateContentResponse) : bool :=
  match finishReason r with None => true | Some _ => false end.

(** The fragments of the tool call at one index, in order. *)
Definition fragmentsFor (i : nat) (ds : list ToolCallDelta)
  : list ToolCallDelta :=
  filter (fun d => index d = i) ds.

(** A tool call with the names and arguments of fragments added. *)
Definition extendCall (call : ToolCall) (fs : list ToolCallDelta) : ToolCall :=
  {| toolCallId := toolCallId call;
     functionName := functionName call +:+ joined (omap deltaName fs);
     functionArguments :=
       functionArguments call +:+ joined (omap deltaArguments fs) |}.

End OpenAIGenerator.

(** ** Sample streams *)

(** A parser for the examples: it reads the empty object only. *)
Definition parseEmptyObject (s : string) : option JSON :=
  if String.eqb s "{}" then Some (JObject []) else None.

Definition textChunks : list OpenAIGenerator.Chunk :=
  [ {| OpenAIGenerator.deltaContent := Some "Hel";
       OpenAIGenerator.deltaToolCalls := None;
       OpenAIGenerator.finish_reason := None |};
    {| OpenAIGenerator.deltaContent := Some "lo";
       OpenAIGenerator.deltaToolCalls := Some [];
       OpenAIGenerator.finish_reason := None |};
    {| OpenAIGenerator.deltaContent := None;
       OpenAIGenerator.deltaToolCalls := None;
       OpenAIGenerator.finish_reason := Some "stop" |} ].

Definition toolChunks : list OpenAIGenerator.Chunk :=
  [ {| OpenAIGenerator.deltaContent := Some "Hi";
       OpenAIGenerator.deltaToolCalls :=
         Some [ {| OpenAIGenerator.index := 0;
                   OpenAIGenerator.deltaId := Some "call_1";
                   OpenAIGenerator.deltaName := Some "read";
                   OpenAIGenerator.deltaArguments := Some "{" |} ];
       OpenAIGenerator.finish_reason := None |} ].

Definition lastToolChunk : OpenAIGenerator.Chunk :=
  {| OpenAIGenerator.deltaContent := None;
     OpenAIGenerator.deltaToolCalls :=
       Some [ {| OpenAIGenerator.index := 0;
                 OpenAIGenerator.deltaId := None;
                 OpenAIGenerator.deltaName := None;
                 OpenAIGenerator.deltaArguments := Some "}" |} ];
     OpenAIGenerator.finish_reason := Some "tool_calls" |}.

(** ** Notices of the checkpoint recorder *)

(** The notices with which the recorder leaves a tool call without a
    checkpoint (each is followed by [continue] or ends the [catch] of
    line 1145); the other two tell of the directory and of a snapshot
    that failed before the current commit was tried. *)
Definition leavesCall (n : Checkpoint.DebugNotice) : bool :=
  match n with
  | Checkpoint.MissingFilePath _ | Checkpoint.GitUnavailable
  | Checkpoint.NoCommitHash | Checkpoint.CheckpointFailed => true
  | Checkpoint.MkdirFailed | Checkpoint.SnapshotFailed => false
  end.

(** The calls that the effects account for: the files written and the
    notices that leave a call. *)
Definition outcomes (eff : Checkpoint.Effects) : nat :=
  length (Checkpoint.files eff)
  + length (filter (fun n => leavesCall n = true) (Checkpoint.notices eff)).

(** ** A turn of the conversation ([useGeminiStream.ts]:
    [streamingState], [cancelOngoingRequest], [prepareQueryForGemini],
    [handleLoopDetectedEvent], [submitQuery]) *)

Module Turn.

Import Stream.

Inductive StreamingState : Type :=
| Idle | Responding | WaitingForConfirmation.

(** What [streamingState] reads of a tracked tool call;
    [responseSubmittedToGemini] is [false] when the field is missing. *)
Record ToolCallState : Type := {
  toolStatus : Submission.Status;
  responseSubmittedToGemini : bool
}.

Definition awaitsApproval (tc : ToolCallState) : bool :=
  match toolStatus tc with Submission.awaiting_approval => true | _ => false end.

(** Lines 179-189: a call that runs or waits to run, or that has ended
    and whose response has not been handed to the model. *)
Definition keepsResponding (tc : ToolCallState) : bool :=
  match toolStatus tc with
  | Submission.executing | Submission.scheduled | Submission.validating => true
  | Submission.success | Submission.error | Submission.cancelled =>
      negb (responseSubmittedToGemini tc)
  | Submission.awaiting_approval => false
  end.

(** Lines 173-194. *)
Definition streamingState (isResponding : bool)
  (toolCalls : list ToolCallState) : StreamingState :=
  if existsb awaitsApproval toolCalls then WaitingForConfirmation
  else if isResponding || existsb keepsResponding toolCalls then Responding
  else Idle.

(** A [PartListUnion]: a string, or parts that this code only hands
    on. *)
Inductive PartListUnion : Type :=
| QueryString (s : string)
| QueryParts (ps : list Part).

(** The hook beyond the cells of the stream handlers: the abort
    controllers made so far with their [aborted] flags, the newest first
    ([abortControllerRef.current] is the head), the two quota flags, the
    cell [initError], and the logs of [startNewPrompt()],
    [onCancelSubmit()], [onAuthError()] and
    [geminiClient.sendMessageStream(query, signal, prompt_id)].
    Telemetry and logging ([logUserPrompt], [onDebugMessage],
    [logger.logMessage], [console.log]) are left out. *)
Record Session : Type := {
  hookState : Hook;
  abortControllers : list bool;
  modelSwitchedFromQuotaError : bool;
  quotaErrorOccurred : bool;
  initError : option string;
  newPrompts : nat;
  cancelSubmits : nat;
  authErrors : nat;
  sent : list (PartListUnion * string)
}.

Definition withHook (f : Hook -> Hook) (s : Session) : Session :=
  {| hookState := f (hookState s);
     abortControllers := abortControllers s;
     modelSwitchedFromQuotaError := modelSwitchedFromQuotaError s;
     quotaErrorOccurred := quotaErrorOccurred s;
     initError := initError s;
     newPrompts := newPrompts s;
     cancelSubmits := cancelSubmits s;
     authErrors := authErrors s;
     sent := sent s |}.

Definition setTurnCancelled (b : bool) (h : Hook) : Hook :=
  {| turnCancelledRef := b;
     pendingHistoryItemRef := pendingHistoryItemRef h;
     transcript := transcript h;
     thought := thought h;
     isResponding := isResponding h;
     loopDetectedRef := loopDetectedRef h;
     scheduled := scheduled h |}.

(** [abortControllerRef.current?.abort()]. *)
Definition abort (controllers : list bool) : list bool :=
  match controllers with
  | [] => []
  | _ :: older => true :: older
  end.

(** [cancelOngoingRequest] (lines 196-224), in a closure that was built
    when the streaming state was [seen]; [now1] and [now2] are what
    [Date.now()] gives at lines 206 and 213. *)
Definition cancelOngoingRequest (seen : StreamingState) (now1 now2 : N)
  (s : Session) : Session :=
  match seen with
  | Responding =>
      if turnCancelledRef (hookState s) then s
      else
        let h1 := setTurnCancelled true (hookState s) in
        let h2 :=
          match pendingHistoryItemRef h1 with
          | Some item => addItem item now1 h1
          | None => h1
          end in
        let h3 := addItem (TextItem info "Request cancelled.") now2 h2 in
        {| hookState := setIsResponding false (setPendingHistoryItem None h3);
           abortControllers := abort (abortControllers s);
           modelSwitchedFromQuotaError := modelSwitchedFromQuotaError s;
           quotaErrorOccurred := quotaErrorOccurred s;
           initError := initError s;
           newPrompts := newPrompts s;
           cancelSubmits := S (cancelSubmits s);
           authErrors := authErrors s;
           sent := sent s |}
  | _ => s
  end.

(** [handleLoopDetectedEvent] (lines 614-622). *)
Definition handleLoopDetectedEvent (now : N) (h : Hook) : Hook :=
  addItem
    (TextItem info
       "A potential loop was detected. This can happen due to repetitive tool calls or other model behavior. The request has been halted.")
    now h.

(** What [handleSlashCommand] resolves to when it is not falsy. *)
Inductive SlashCommandResult : Type :=
| ScheduleTool (toolName : string) (toolArgs : list (string * JSON))
| SubmitPrompt (content : PartListUnion)
| Handled.

(** How [prepareQueryForGemini] ends: with a query to send, with
    nothing to send, or rejected because a collaborator threw. *)
Inductive Prepared : Type :=
| Proceed (queryToSend : PartListUnion)
| Stop
| Rejected.

(** How the stream that [sendMessageStream] gives ends: it is
    exhausted, or it throws (as [sendMessageStream] itself may): an
    [UnauthorizedError], a Node error named [AbortError], or another
    error, with what [getErrorMessage] makes of it. *)
Inductive StreamError : Type :=
| Unauthorized
| AbortError
| OtherError (message : string).

Inductive Ending : Type :=
| Ends
| Fails (e : StreamError).

(** What reaches the hook while it awaits the next event of the stream:
    the event, or the Escape key, handled by [cancelOngoingRequest]. *)
Inductive Inbound : Type :=
| Deliver (d : Delivery)
| Escape (seen : StreamingState) (now1 now2 : N).

(** How a call of [submitQuery] ends. *)
Inductive Result : Type :=
| Busy
  (** returned at the guard of line 768 *)
| NotSent
  (** [prepareQueryForGemini] gave nothing to send *)
| PrepareThrew
  (** [prepareQueryForGemini] rejected *)
| StreamEnded
| StreamFailed.

Section Submit.

(** The imports of the stream handlers. *)
Variable findLastSafeSplitPoint : string -> nat.
Variable eventTypeName : GeminiEventType.t -> string.
Variable parseAndFormatApiError : string -> string.
Variable getModel : string.
Variable getMaxSessionTurns : Z.

(** [String.prototype.trim]. *)
Variable trim : string -> string.

(** The collaborators of [prepareQueryForGemini], each with what it
    does to the hook; the answer is [None] when it throws.
    [handleSlashCommand] answers [Some None] for a falsy result, and
    [handleAtCommand] answers [shouldProceed] and [processedQuery]. *)
Variable handleSlashCommand :
  string -> Session -> option (option SlashCommandResult) * Session.
Variable shellModeActive : bool.
Variable handleShellCommand : string -> Session -> option bool * Session.
Variable isAtCommand : string -> bool.
Variable handleAtCommand :
  string -> N -> Session -> option (bool * option PartListUnion) * Session.

(** [config.getSessionId()] and [getPromptCount()]. *)
Variable getSessionId : string.
Variable getPromptCount : nat.

Definition userItem (trimmedQuery : string) (userMessageTimestamp : N)
  (s : Session) : Session :=
  withHook (addItem (TextItem user trimmedQuery) userMessageTimestamp) s.

(** Lines 309-349: the query is an @-command or a plain query. *)
Definition prepareText (trimmedQuery : string) (userMessageTimestamp : N)
  (s : Session) : Prepared * Session :=
  if isAtCommand trimmedQuery then
    match handleAtCommand trimmedQuery userMessageTimestamp s with
    | (None, s1) => (Rejected, s1)
    | (Some (shouldProceed, processedQuery), s1) =>
        let s2 := userItem trimmedQuery userMessageTimestamp s1 in
        if negb shouldProceed then (Stop, s2)
        else
          match processedQuery with
          | Some localQueryToSendToGemini =>
              (Proceed localQueryToSendToGemini, s2)
          | None => (Stop, s2)
          end
    end
  else
    (Proceed (QueryString trimmedQuery),
     userItem trimmedQuery userMessageTimestamp s).

(** [prepareQueryForGemini] (lines 235-361); [idClock] and [idRandom]
    are what [Date.now()] and [Math.random().toString(16).slice(2)] give
    at line 276. *)
Definition prepareQueryForGemini (query : PartListUnion)
  (userMessageTimestamp : N) (prompt_id0 : string) (idClock : N)
  (idRandom : string) (s : Session) : Prepared * Session :=
  if turnCancelledRef (hookState s) then (Stop, s)
  else
    match query with
    | QueryParts _ => (Proceed query, s)
    | QueryString q =>
        let trimmedQuery := trim q in
        if isEmpty trimmedQuery then (Stop, s)
        else
          match handleSlashCommand trimmedQuery s with
          | (None, s1) => (Rejected, s1)
          | (Some (Some (ScheduleTool toolName toolArgs)), s1) =>
              (Stop,
               withHook
                 (scheduleToolCalls
                    [{| callId :=
                          toolName +:+ "-" +:+ pretty idClock +:+ "-"
                          +:+ idRandom;
                        name := toolName;
                        args := toolArgs;
                        isClientInitiated := true;
                        prompt_id := prompt_id0 |}]) s1)
          | (Some (Some (SubmitPrompt content)), s1) => (Proceed content, s1)
          | (Some (Some Handled), s1) => (Stop, s1)
          | (Some None, s1) =>
              if shellModeActive then
                match handleShellCommand trimmedQuery s1 with
                | (None, s2) => (Rejected, s2)
                | (Some true, s2) => (Stop, s2)
                | (Some false, s2) =>
                    prepareText trimmedQuery userMessageTimestamp s2
                end
              else prepareText trimmedQuery userMessageTimestamp s1
          end
    end.

(** One step of the [for await] loop of [processGeminiStreamEvents], or
    the Escape key between two steps.  The hook of the loop state and
    the hook of the session are one object. *)
Definition onInbound (userMessageTimestamp : N)
  (st : LoopState * Session) (i : Inbound) : LoopState * Session :=
  match i with
  | Deliver d =>
      let l :=
        processEvent findLastSafeSplitPoint eventTypeName
          parseAndFormatApiError getModel getMaxSessionTurns
          userMessageTimestamp (fst st) d in
      (l, withHook (fun _ => hook l) (snd st))
  | Escape seen now1 now2 =>
      let s := cancelOngoingRequest seen now1 now2 (snd st) in
      ({| geminiMessageBuffer := geminiMessageBuffer (fst st);
          toolCallRequests := toolCallRequests (fst st);
          processedEventIds := processedEventIds (fst st);
          hook := hookState s |}, s)
  end.

Definition runInbound (userMessageTimestamp : N) (inbound : list Inbound)
  (s : Session) : LoopState * Session :=
  fold_left (onInbound userMessageTimestamp) inbound
    (loopStart (hookState s), s).

(** Lines 830-841: the pending item is moved to the transcript if its
    text is more than blanks, and a loop that was detected is
    reported. *)
Definition flushPending (userMessageTimestamp : N) (h : Hook) : Hook :=
  match pendingHistoryItemRef h with
  | Some (TextItem ty t) =>
      if isEmpty (trim t) then h
      else
        setPendingHistoryItem None
          (addItem (TextItem ty t) userMessageTimestamp h)
  | _ => h
  end.

Definition reportLoop (loopClock : N) (h : Hook) : Hook :=
  if loopDetectedRef h
  then handleLoopDetectedEvent loopClock (setLoopDetected false h)
  else h.

(** Lines 842-859: the [catch] block. *)
Definition onStreamError (e : StreamError) (userMessageTimestamp : N)
  (s : Session) : Session :=
  match e with
  | Unauthorized =>
      {| hookState := hookState s;
         abortControllers := abortControllers s;
         modelSwitchedFromQuotaError := modelSwitchedFromQuotaError s;
         quotaErrorOccurred := quotaErrorOccurred s;
         initError := initError s;
         newPrompts := newPrompts s;
         cancelSubmits := cancelSubmits s;
         authErrors := S (authErrors s);
         sent := sent s |}
  | AbortError => s
  | OtherError message =>
      withHook
        (addItem
           (TextItem error
              (parseAndFormatApiError
                 (if isEmpty message then "Unknown error" else message)))
           userMessageTimestamp) s
  end.

(** Lines 806-812: what [submitQuery] does before it asks for the
    stream. *)
Definition opening (queryToSend : PartListUnion) (isContinuation : bool)
  (prompt_id0 : string) (s : Session) : Session :=
  let s1 :=
    if isContinuation then s
    else
      {| hookState := setThought None (hookState s);
         abortControllers := abortControllers s;
         modelSwitchedFromQuotaError := modelSwitchedFromQuotaError s;
         quotaErrorOccurred := quotaErrorOccurred s;
         initError := initError s;
         newPrompts := S (newPrompts s);
         cancelSubmits := cancelSubmits s;
         authErrors := authErrors s;
         sent := sent s |} in
  {| hookState := setIsResponding true (hookState s1);
     abortControllers := abortControllers s1;
     modelSwitchedFromQuotaError := modelSwitchedFromQuotaError s1;
     quotaErrorOccurred := quotaErrorOccurred s1;
     initError := None;
     newPrompts := newPrompts s1;
     cancelSubmits := cancelSubmits s1;
     authErrors := authErrors s1;
     sent := sent s1 ++ [(queryToSend, prompt_id0)] |}.

(** Lines 814-841, when the stream is exhausted: the requests collected
    are scheduled, the pending item is flushed and a loop reported. *)
Definition onStreamEnd (userMessageTimestamp loopClock : N)
  (requests : list ToolCallRequestInfo) (h : Hook) : Hook :=
  reportLoop loopClock
    (flushPending userMessageTimestamp
       (match requests with
        | [] => h
        | _ :: _ => scheduleToolCalls requests h
        end)).

(** Lines 806-862: [submitQuery] from the moment it has a query to
    send.  [loopClock] is what [Date.now()] gives in
    [handleLoopDetectedEvent]. *)
Definition respond (queryToSend : PartListUnion) (isContinuation : bool)
  (prompt_id0 : string) (userMessageTimestamp : N) (inbound : list Inbound)
  (ending : Ending) (loopClock : N) (s : Session) : Result * Session :=
  let st :=
    runInbound userMessageTimestamp inbound
      (opening queryToSend isContinuation prompt_id0 s) in
  match ending with
  | Ends =>
      (StreamEnded,
       withHook
         (fun h =>
            setIsResponding false
              (onStreamEnd userMessageTimestamp loopClock
                 (toolCallRequests (fst st)) h))
         (snd st))
  | Fails e =>
      (StreamFailed,
       withHook (setIsResponding false)
         (onStreamError e userMessageTimestamp (snd st)))
  end.

(** Lines 779-789: a new turn is armed.  The quota flags are lowered
    unless the query is a continuation, a new abort controller is made
    and the cancellation flag is lowered. *)
Definition arming (isContinuation : bool) (s : Session) : Session :=
  {| hookState := setTurnCancelled false (hookState s);
     abortControllers := false :: abortControllers s;
     modelSwitchedFromQuotaError :=
       if isContinuation then modelSwitchedFromQuotaError s else false;
     quotaErrorOccurred :=
       if isContinuation then quotaErrorOccurred s else false;
     initError := initError s;
     newPrompts := newPrompts s;
     cancelSubmits := cancelSubmits s;
     authErrors := authErrors s;
     sent := sent s |}.

(** Lines 791-793: the prompt id, made up when none is given. *)
Definition promptIdOr (prompt_id0 : option string) : string :=
  match prompt_id0 with
  | Some p =>
      if isEmpty p
      then getSessionId +:+ "########" +:+ pretty getPromptCount
      else p
  | None => getSessionId +:+ "########" +:+ pretty getPromptCount
  end.

(** [submitQuery] (lines 755-880), in a closure that was built when the
    streaming state was [seen]; [now] is what [Date.now()] gives at
    line 779. *)
Definition submitQuery (query : PartListUnion) (isContinuation : bool)
  (prompt_id0 : option string) (seen : StreamingState) (now idClock : N)
  (idRandom : string) (inbound : list Inbound) (ending : Ending)
  (loopClock : N) (s : Session) : Result * Session :=
  if match seen with Idle => false | _ => true end && negb isContinuation
  then (Busy, s)
  else
    match
      prepareQueryForGemini query now (promptIdOr prompt_id0) idClock
        idRandom (arming isContinuation s)
    with
    | (Rejected, s2) => (PrepareThrew, s2)
    | (Stop, s2) => (NotSent, s2)
    | (Proceed queryToSend, s2) =>
        respond queryToSend isContinuation (promptIdOr prompt_id0) now
          inbound ending loopClock s2
    end.

End Submit.

(** The hook of a loop state and the hook of its session are the same
    object. *)
Definition inSync (st : LoopState * Session) : Prop :=
  hook (fst st) = hookState (snd st).

(** An inbound that is an event of the stream. *)
Definition isDeliver (i : Inbound) : bool :=
  match i with Deliver _ => true | Escape _ _ _ => false end.

(** A tool call that has ended and whose response the model has. *)
Definition isSubmitted (tc : ToolCallState) : bool :=
  match toolStatus tc with
  | Submission.success | Submission.error | Submission.cancelled =>
      responseSubmittedToGemini tc
  | _ => false
  end.

(** [trim] for strings of ASCII: blanks, tabs and line ends are taken
    off both ends. *)
Definition isBlank (c : ascii) : bool :=
  match nat_of_ascii c with
  | 9 | 10 | 11 | 12 | 13 | 32 => true
  | _ => false
  end.

Fixpoint trimStart (s : string) : string :=
  match s with
  | String c s' => if isBlank c then trimStart s' else s
  | EmptyString => EmptyString
  end.

Fixpoint trimEnd (s : string) : string :=
  match s with
  | EmptyString => EmptyString
  | String c s' =>
      match trimEnd s' with
      | EmptyString => if isBlank c then EmptyString else String c EmptyString
      | rest => String c rest
      end
  end.

Definition asciiTrim (s : string) : string := trimEnd (trimStart s).

(** A session in which nothing has happened. *)
Definition idleSession : Session :=
  {| hookState := idleHook;
     abortControllers := [];
     modelSwitchedFromQuotaError := false;
     quotaErrorOccurred := false;
     initError := None;
     newPrompts := 0;
     cancelSubmits := 0;
     authErrors := 0;
     sent := [] |}.


(** Events as the loop meets them, for the examples. *)
Definition contentDelivery (value : string) : Delivery :=
  {| event := ContentEvent value; idClock := 0; idRandom := "0.5";
     itemClock := 0 |}.



(** A session in which a group of two tools is pending, one of them
    running. *)
Definition runningTools : list IndividualToolCallDisplay :=
  [{| displayCallId := "call-1"; displayName := "read_file";
      displayStatus := Success |};
   {| displayCallId := "call-2"; displayName := "run_shell_command";
      displayStatus := Executing |}].

Definition toolsPending : Session :=
  withHook (setPendingHistoryItem (Some (ToolGroupItem runningTools)))
    idleSession.

End Turn.

(** ** Messages for the OpenAI API
    ([OpenAIContentGenerator.convertToOpenAIMessages]) *)

Module OpenAIMessages.

Inductive Role : Type := user | assistant | system.

(** A part of the content of a user message: text, or an image given by
    its URL. *)
Inductive ContentPart : Type :=
| TextContent (t : string)
| ImageContent (url : string).

(** A [ChatCompletionMessageParam], in the four shapes that the
    conversion makes: a message with a string as content, a user message
    with content parts, an assistant message without content and with
    one tool call, and a tool message. *)
Inductive Message : Type :=
| Plain (messageRole : Role) (content : string)
| Multi (contentParts : list ContentPart)
| ToolCalls (id fname arguments : string)
| ToolResult (content tool_call_id : string).

(** Lines 255-260. *)
Definition roleOf (r : string) : Role :=
  if String.eqb r "user" then user
  else if String.eqb r "model" then assistant
  else system.

(** [part.text] when it is truthy. *)
Definition truthyText (p : Part) : option string :=
  match text p with
  | Some t => if isEmpty t then None else Some t
  | None => None
  end.

(** [parts.join(' ')]. *)
Fixpoint join (l : list string) : string :=
  match l with
  | [] => ""
  | [t] => t
  | t :: rest => t +:+ " " +:+ join rest
  end.

(** The conversion in progress: the messages pushed, the content parts
    of the content at hand, and how often [Date.now()] has been read. *)
Record Acc : Type := {
  messages : list Message;
  contentParts : list ContentPart;
  ticks : nat
}.

Section Convert.

(** [JSON.stringify], and the clock: [clock k] is what [Date.now()]
    gives when it is read for the [k]-th time in a conversion. *)
Variable stringify : JSON -> string.
Variable clock : nat -> N.

(** Lines 279-320: one part of a content with the role [r]. *)
Definition convertPart (r : Role) (acc : Acc) (part : Part) : Acc :=
  match truthyText part with
  | Some t =>
      {| messages := messages acc;
         contentParts := contentParts acc ++ [TextContent t];
         ticks := ticks acc |}
  | None =>
      match inlineData part with
      | Some (mimeType, data) =>
          {| messages := messages acc;
             contentParts :=
               contentParts acc
               ++ [ImageContent
                     ("data:" +:+ mimeType +:+ ";base64," +:+ data)];
             ticks := ticks acc |}
      | None =>
          match functionCall part with
          | Some (fname, fargs) =>
              match r with
              | assistant =>
                  if isEmpty fname then acc
                  else
                    {| messages :=
                         messages acc
                         ++ [ToolCalls
                               ("call_" +:+ pretty (clock (ticks acc)))
                               fname
                               (stringify
                                  (if Checkpoint.truthy (Some fargs)
                                   then fargs else JObject []))];
                       contentParts := contentParts acc;
                       ticks := S (ticks acc) |}
              | _ => acc
              end
          | None =>
              match functionResponse part with
              | Some (_, response) =>
                  {| messages :=
                       messages acc
                       ++ [ToolResult (stringify response)
                             ("call_" +:+ pretty (clock (ticks acc)))];
                     contentParts := contentParts acc;
                     ticks := S (ticks acc) |}
              | None => acc
              end
          end
      end
  end.

(** The text of a content part, [''] for an image. *)
Definition textOrEmpty (c : ContentPart) : string :=
  match c with TextContent t => t | ImageContent _ => "" end.

Definition textOnly (c : ContentPart) : option string :=
  match c with TextContent t => Some t | ImageContent _ => None end.

(** Lines 322-349: the message for the content parts collected. *)
Definition closing (r : Role) (collected : list ContentPart) : list Message :=
  match collected with
  | [] => []
  | _ :: _ =>
      match r with
      | user => [Multi collected]
      | assistant =>
          let textContent := join (omap textOnly collected) in
          if isEmpty textContent then [] else [Plain assistant textContent]
      | system => [Plain system (join (map textOrEmpty collected))]
      end
  end.

(** Lines 254-351: one content. *)
Definition convertContent (acc : Acc) (c : Content) : Acc :=
  let r := roleOf (role c) in
  let complex (ps : list Part) :=
    let done :=
      fold_left (convertPart r) ps
        {| messages := messages acc; contentParts := [];
           ticks := ticks acc |} in
    {| messages := messages done ++ closing r (contentParts done);
       contentParts := [];
       ticks := ticks done |} in
  match parts c with
  | None => acc
  | Some [p] =>
      match truthyText p with
      | Some t =>
          {| messages := messages acc ++ [Plain r t];
             contentParts := [];
             ticks := ticks acc |}
      | None => complex [p]
      end
  | Some ps => complex ps
  end.

Definition convertToOpenAIMessages (contents : list Content) : list Message :=
  messages
    (fold_left convertContent contents
       {| messages := []; contentParts := []; ticks := 0 |}).

(** The message that a part leads to at once, when the clock has been
    read [k] times: a tool call or a tool result. *)
Definition toolMessage (r : Role) (k : nat) (part : Part) : option Message :=
  match truthyText part, inlineData part with
  | None, None =>
      match functionCall part with
      | Some (fname, fargs) =>
          match r with
          | assistant =>
              if isEmpty fname then None
              else
                Some (ToolCalls ("call_" +:+ pretty (clock k)) fname
                        (stringify
                           (if Checkpoint.truthy (Some fargs)
                            then fargs else JObject [])))
          | _ => None
          end
      | None =>
          match functionResponse part with
          | Some (_, response) =>
              Some (ToolResult (stringify response)
                      ("call_" +:+ pretty (clock k)))
          | None => None
          end
      end
  | _, _ => None
  end.

(** The tool messages of the parts of a content, in order. *)
Fixpoint toolMessages (r : Role) (k : nat) (ps : list Part) : list Message :=
  match ps with
  | [] => []
  | part :: rest =>
      match toolMessage r k part with
      | Some m => m :: toolMessages r (S k) rest
      | None => toolMessages r k rest
      end
  end.

End Convert.

(** The content part that a part of a content is collected as. *)
Definition contentPartOf (part : Part) : option ContentPart :=
  match truthyText part with
  | Some t => Some (TextContent t)
  | None =>
      match inlineData part with
      | Some (mimeType, data) =>
          Some (ImageContent ("data:" +:+ mimeType +:+ ";base64," +:+ data))
      | None => None
      end
  end.

(** A content with exactly one part, which has text. *)
Definition isSimple (ps : list Part) : bool :=
  match ps with
  | [p] => match truthyText p with Some _ => true | None => false end
  | _ => false
  end.

(** The identifiers in a list of messages: of tool calls and of the
    tool calls that tool results refer to. *)
Definition callIdOf (m : Message) : option string :=
  match m with
  | ToolCalls id _ _ => Some id
  | ToolResult _ tool_call_id => Some tool_call_id
  | _ => None
  end.

(** The strings that a message carries as text. *)
Definition textsOfMessage (m : Message) : list string :=
  match m with
  | Plain _ content => [content]
  | Multi collected => omap textOnly collected
  | _ => []
  end.

(** [t] occurs in [s]. *)
Definition occursIn (t s : string) : Prop :=
  exists before after, s = before +:+ t +:+ after.

(** A content of the model for the examples: a sentence and a function
    call. *)
Definition announcedCall : Content :=
  {| role := "model";
     parts :=
       Some [OpenAIGenerator.textPart "I will read it.";
             OpenAIGenerator.functionCallPart "read_file" (JObject [])] |}.

End OpenAIMessages.

(** ** A hook with an earlier reply *)

(** The hook when a second message begins: the transcript holds the
    first query and the reply to it. *)
Definition afterFirstReply : Stream.Hook :=
  {| Stream.turnCancelledRef := false;
     Stream.pendingHistoryItemRef := None;
     Stream.transcript :=
       [(Stream.TextItem Stream.user "hi", 1%N);
        (Stream.TextItem Stream.gemini "Hello there.", 1%N)];
     Stream.thought := None;
     Stream.isResponding := true;
     Stream.loopDetectedRef := false;
     Stream.scheduled := [] |}.

(** ** Two races of the submission *)

(** The first batch is being submitted when the second settles and is
    queued; the continuation settles and hands the second batch to a
    timer; before the timer runs a third batch settles and starts a
    pass. *)
Definition raceBeforeTimer : Submission.Machine :=
  Submission.run
    [Submission.Settle false false
       [Submission.sampleCall "call-1" Submission.success false];
     Submission.Settle false false
       [Submission.sampleCall "call-2" Submission.success false];
     Submission.ContinuationSettles true;
     Submission.Settle false false
       [Submission.sampleCall "call-3" Submission.success false]]
    Submission.initialMachine.

(** A batch whose one call for the model was cancelled has settled and
    has been taken up. *)
Definition afterCancelledBatch : Submission.Machine :=
  Submission.step Submission.initialMachine
    (Submission.Settle false false
       [Submission.sampleCall "call-1" Submission.cancelled false]).

(** An action of the event loop that is not the arrival of a batch. *)
Definition isArrival (a : Submission.Action) : bool :=
  match a with Submission.Settle _ _ _ => true | _ => false end.

(** * Part II: properties *)

(** ** Strings *)

Section StringFacts.

Lemma isEmpty_true s : isEmpty s = true <-> s = "".
Proof. destruct s; simpl; split; congruence. Qed.

Lemma isEmpty_false s : isEmpty s = false <-> s <> "".
Proof. destruct s; simpl; split; congruence. Qed.

Lemma string_app_empty_r s : s +:+ "" = s.
Proof. induction s as [|a s IH]; simpl; [reflexivity | now rewrite IH]. Qed.

Lemma string_app_assoc s t u : (s +:+ t) +:+ u = s +:+ (t +:+ u).
Proof. induction s as [|a s IH]; simpl; [reflexivity | now rewrite IH]. Qed.

Lemma string_app_eq_self s t : s +:+ t = s -> t = "".
Proof.
  induction s as [|a s IH]; simpl; intros H; [assumption|].
  injection H as H. auto.
Qed.

Lemma substring_whole s : String.substring 0 (String.length s) s = s.
Proof. induction s as [|a s IH]; simpl; [reflexivity | now rewrite IH]. Qed.

(** Cutting a string at any position loses nothing. *)
Lemma substring_split n s : substring_to n s +:+ substring_from n s = s.
Proof.
  unfold substring_to, substring_from. revert n.
  induction s as [|a s IH]; intros [|n]; simpl; try reflexivity.
  - now rewrite substring_whole.
  - now rewrite IH.
Qed.

Lemma startsWith_of_empty p : startsWith "" p = true -> p = "".
Proof. destruct p; [reflexivity | discriminate]. Qed.

End StringFacts.

(** ** The content reassembler *)

Section ReassemblerFacts.

Import Stream.

Variable findLastSafeSplitPoint : string -> nat.

Local Abbreviation handleContentEvent :=
  (Stream.handleContentEvent findLastSafeSplitPoint).
Local Abbreviation emitContent := (Stream.emitContent findLastSafeSplitPoint).

Lemma ensureGeminiPending_isGemini ts h :
  isGeminiItem (pendingHistoryItemRef (ensureGeminiPending ts h)) = true.
Proof.
  unfold ensureGeminiPending.
  destruct (isGeminiItem (pendingHistoryItemRef h)) eqn:E; [exact E|].
  reflexivity.
Qed.

Lemma pendingType_gemini ts h :
  pendingType (ensureGeminiPending ts h) = gemini
  \/ pendingType (ensureGeminiPending ts h) = gemini_content.
Proof.
  pose proof (ensureGeminiPending_isGemini ts h) as H.
  unfold pendingType.
  destruct (pendingHistoryItemRef (ensureGeminiPending ts h))
    as [[[] t|tools]|]; simpl in H; try discriminate; auto.
Qed.

Lemma ensureGeminiPending_cancelled ts h :
  turnCancelledRef (ensureGeminiPending ts h) = turnCancelledRef h.
Proof.
  unfold ensureGeminiPending.
  destruct (isGeminiItem _); [reflexivity|].
  destruct (pendingHistoryItemRef h); reflexivity.
Qed.

Lemma committedText_app l1 l2 :
  committedText (l1 ++ l2) = committedText l1 +:+ committedText l2.
Proof.
  induction l1 as [|[item t] l1 IH]; simpl; [reflexivity|].
  destruct item as [[] txt|tools]; simpl; rewrite ?IH, ?string_app_assoc;
    reflexivity.
Qed.

(** Moving a pending item that is not a gemini item to the transcript
    adds nothing to the text of the assistant message. *)
Lemma ensureGeminiPending_committed ts h :
  committedText (transcript (ensureGeminiPending ts h))
  = committedText (transcript h).
Proof.
  unfold ensureGeminiPending.
  destruct (isGeminiItem (pendingHistoryItemRef h)) eqn:E; [reflexivity|].
  destruct (pendingHistoryItemRef h) as [[[] t|tools]|]; simpl in *;
    try discriminate; rewrite ?committedText_app; simpl;
    rewrite ?string_app_empty_r; reflexivity.
Qed.

(** The three ways out of [handleContentEvent] in a turn that is not
    cancelled. *)
Lemma handleContentEvent_empty buffer ts h :
  turnCancelledRef h = false ->
  handleContentEvent "" buffer ts h = (buffer, h).
Proof. intros Hc. unfold Stream.handleContentEvent. now rewrite Hc. Qed.

Lemma handleContentEvent_same eventValue buffer ts h :
  turnCancelledRef h = false ->
  accumulate eventValue buffer = buffer ->
  handleContentEvent eventValue buffer ts h = (buffer, h).
Proof.
  intros Hc E. unfold Stream.handleContentEvent. rewrite Hc.
  destruct (isEmpty eventValue); [reflexivity|].
  now rewrite E, String.eqb_refl.
Qed.

Lemma handleContentEvent_emit eventValue buffer ts h :
  turnCancelledRef h = false ->
  eventValue <> "" ->
  accumulate eventValue buffer <> buffer ->
  handleContentEvent eventValue buffer ts h
  = emitContent (accumulate eventValue buffer) ts h.
Proof.
  intros Hc Hev E. unfold Stream.handleContentEvent. rewrite Hc.
  apply isEmpty_false in Hev. rewrite Hev.
  apply String.eqb_neq in E. now rewrite E.
Qed.

Lemma accumulate_whole eventValue buffer :
  startsWith eventValue buffer = true ->
  accumulate eventValue buffer = eventValue.
Proof. intros H. unfold accumulate. now rewrite H. Qed.

Lemma accumulate_increment eventValue buffer :
  startsWith eventValue buffer = false ->
  accumulate eventValue buffer = buffer +:+ eventValue.
Proof. intros H. unfold accumulate. now rewrite H. Qed.

Lemma increment_changes eventValue buffer :
  eventValue <> "" -> buffer +:+ eventValue <> buffer.
Proof. intros Hev E. apply string_app_eq_self in E. contradiction. Qed.

(** What the emission step hands back: the new buffer, or what of it
    follows the split point. *)
Lemma emitContent_returns newBuffer ts h :
  fst (emitContent newBuffer ts h)
  = if findLastSafeSplitPoint newBuffer =? String.length newBuffer
    then newBuffer
    else substring_from (findLastSafeSplitPoint newBuffer) newBuffer.
Proof.
  unfold Stream.emitContent. destruct (_ =? _); [|reflexivity].
  now destruct (shouldUpdate _ _).
Qed.

Lemma handleContentEvent_cancelled eventValue buffer ts h :
  turnCancelledRef h = true ->
  handleContentEvent eventValue buffer ts h = ("", h).
Proof. intros Hc. unfold Stream.handleContentEvent. now rewrite Hc. Qed.

(** C4, amended.  In a turn that has been cancelled
    [handleContentEvent] gives back the empty string and leaves the hook
    as it is, whatever the buffer and the fragment.  In a turn that is
    not cancelled it applies a fragment as follows.  An empty fragment
    gives back the buffer and leaves the hook as it is.  A fragment that
    starts with the buffer makes the fragment the new buffer, any other
    fragment makes [buffer + fragment] the new buffer; the emission step
    is run on that new buffer, and what is given back is the new buffer,
    or the part of it after the split point if a split is made.  When the
    new buffer is the buffer, nothing is emitted: the buffer is given
    back and the hook (pending item and transcript) is as before. *)
Theorem handleContentEvent_apply
  (eventValue buffer : string) (ts : N) (h : Hook) :
  (turnCancelledRef h = true ->
   handleContentEvent eventValue buffer ts h = ("", h))
  /\ (turnCancelledRef h = false ->
      (eventValue = "" ->
       handleContentEvent eventValue buffer ts h = (buffer, h))
      /\ (eventValue <> "" -> startsWith eventValue buffer = true ->
          accumulate eventValue buffer = eventValue
          /\ (eventValue <> buffer ->
              handleContentEvent eventValue buffer ts h
              = emitContent eventValue ts h
              /\ fst (handleContentEvent eventValue buffer ts h)
                 = if findLastSafeSplitPoint eventValue
                      =? String.length eventValue
                   then eventValue
                   else substring_from (findLastSafeSplitPoint eventValue)
                          eventValue))
      /\ (eventValue <> "" -> startsWith eventValue buffer = false ->
          accumulate eventValue buffer = buffer +:+ eventValue
          /\ handleContentEvent eventValue buffer ts h
             = emitContent (buffer +:+ eventValue) ts h
          /\ fst (handleContentEvent eventValue buffer ts h)
             = if findLastSafeSplitPoint (buffer +:+ eventValue)
                  =? String.length (buffer +:+ eventValue)
               then buffer +:+ eventValue
               else substring_from
                      (findLastSafeSplitPoint (buffer +:+ eventValue))
                      (buffer +:+ eventValue))
      /\ (accumulate eventValue buffer = buffer ->
          handleContentEvent eventValue buffer ts h = (buffer, h))).
Proof.
  split; [apply handleContentEvent_cancelled|].
  intros Hc. split; [|split; [|split]].
  - intros ->. now apply handleContentEvent_empty.
  - intros Hev Hpre. pose proof (accumulate_whole _ _ Hpre) as Hacc.
    split; [exact Hacc|]. intros Hne.
    assert (Hgo : handleContentEvent eventValue buffer ts h
                  = emitContent eventValue ts h).
    { rewrite <- Hacc at 2. apply handleContentEvent_emit; congruence. }
    split; [exact Hgo|]. rewrite Hgo. apply emitContent_returns.
  - intros Hev Hpre. pose proof (accumulate_increment _ _ Hpre) as Hacc.
    assert (Hgo : handleContentEvent eventValue buffer ts h
                  = emitContent (buffer +:+ eventValue) ts h).
    { rewrite <- Hacc. apply handleContentEvent_emit; try assumption.
      rewrite Hacc. now apply increment_changes. }
    split; [exact Hacc|]. split; [exact Hgo|].
    rewrite Hgo. apply emitContent_returns.
  - now apply handleContentEvent_same.
Qed.

(** The two cases of the emission step. *)
Lemma emitContent_no_split newBuffer ts h :
  findLastSafeSplitPoint newBuffer = String.length newBuffer ->
  emitContent newBuffer ts h
  = (newBuffer,
     let h1 := ensureGeminiPending ts h in
     if shouldUpdate (pendingText h1) newBuffer
     then setPendingHistoryItem
            (Some (TextItem (pendingType h1) newBuffer)) h1
     else h1).
Proof.
  intros E. unfold Stream.emitContent. rewrite E, Nat.eqb_refl.
  destruct (shouldUpdate _ _); reflexivity.
Qed.

Lemma emitContent_split newBuffer ts h :
  findLastSafeSplitPoint newBuffer <> String.length newBuffer ->
  emitContent newBuffer ts h
  = let h1 := ensureGeminiPending ts h in
    let beforeText :=
      substring_to (findLastSafeSplitPoint newBuffer) newBuffer in
    let afterText :=
      substring_from (findLastSafeSplitPoint newBuffer) newBuffer in
    (afterText,
     setPendingHistoryItem (Some (TextItem gemini_content afterText))
       (if negb (isEmpty beforeText)
           && negb (String.eqb beforeText (pendingText h1))
        then addItem (TextItem (pendingType h1) beforeText) ts h1
        else h1)).
Proof.
  intros E. unfold Stream.emitContent. apply Nat.eqb_neq in E.
  now rewrite E.
Qed.

(** C7, amended.  After a fragment has changed the buffer, the pending
    item is a gemini item (of type gemini or gemini_content).  If the safe
    split point is the length of the new buffer, the new buffer is given
    back, nothing is added to the transcript by the split, and the pending
    item takes the new buffer as its text only if [shouldUpdate] holds
    (the text differs, and it grew by more than five characters or ends
    in a space, a full stop, an exclamation or a question mark);
    otherwise the pending item stays as it was.  If the split point is
    another position, the text after it is given back and becomes the
    pending item, the text before it is added to the transcript only if
    it is not empty and differs from the text of the pending item, and
    the two texts together are the new buffer. *)
Theorem emitContent_split_or_update (newBuffer : string) (ts : N) (h : Hook) :
  let h1 := ensureGeminiPending ts h in
  let splitPoint := findLastSafeSplitPoint newBuffer in
  let beforeText := substring_to splitPoint newBuffer in
  let afterText := substring_from splitPoint newBuffer in
  (pendingType h1 = gemini \/ pendingType h1 = gemini_content)
  /\ (splitPoint = String.length newBuffer ->
      fst (emitContent newBuffer ts h) = newBuffer
      /\ transcript (snd (emitContent newBuffer ts h)) = transcript h1
      /\ pendingHistoryItemRef (snd (emitContent newBuffer ts h))
         = if shouldUpdate (pendingText h1) newBuffer
           then Some (TextItem (pendingType h1) newBuffer)
           else pendingHistoryItemRef h1)
  /\ (splitPoint <> String.length newBuffer ->
      fst (emitContent newBuffer ts h) = afterText
      /\ pendingHistoryItemRef (snd (emitContent newBuffer ts h))
         = Some (TextItem gemini_content afterText)
      /\ transcript (snd (emitContent newBuffer ts h))
         = transcript h1
           ++ (if negb (isEmpty beforeText)
                  && negb (String.eqb beforeText (pendingText h1))
               then [(TextItem (pendingType h1) beforeText, ts)]
               else [])
      /\ beforeText +:+ afterText = newBuffer).
Proof.
  intros h1 splitPoint beforeText afterText.
  split; [apply pendingType_gemini|]. split.
  - intros E. rewrite (emitContent_no_split _ _ _ E). simpl.
    fold h1. destruct (shouldUpdate (pendingText h1) newBuffer);
      repeat split; reflexivity.
  - intros E. rewrite (emitContent_split _ _ _ E). simpl.
    fold h1 splitPoint beforeText afterText.
    assert (Hcut : beforeText +:+ afterText = newBuffer)
      by apply substring_split.
    destruct (negb (isEmpty beforeText)
              && negb (String.eqb beforeText (pendingText h1)));
      simpl; rewrite ?app_nil_r; repeat split; assumption.
Qed.

Lemma emitContent_cancelled_flag newBuffer ts h :
  turnCancelledRef (snd (emitContent newBuffer ts h)) = turnCancelledRef h.
Proof.
  unfold Stream.emitContent. destruct (_ =? _).
  - destruct (shouldUpdate _ _); simpl;
      now rewrite ensureGeminiPending_cancelled.
  - destruct (_ && _); simpl; now rewrite ensureGeminiPending_cancelled.
Qed.

Lemma handleContentEvent_cancelled_flag ev buf ts h :
  turnCancelledRef (snd (handleContentEvent ev buf ts h))
  = turnCancelledRef h.
Proof.
  unfold Stream.handleContentEvent.
  destruct (turnCancelledRef h) eqn:Hc; [exact Hc|].
  destruct (isEmpty ev); [exact Hc|].
  destruct (String.eqb _ _); [exact Hc|].
  now rewrite emitContent_cancelled_flag.
Qed.

(** The content handler schedules no tool call. *)
Lemma handleContentEvent_scheduled ev buf ts h :
  scheduled (snd (handleContentEvent ev buf ts h)) = scheduled h.
Proof.
  assert (He : scheduled (ensureGeminiPending ts h) = scheduled h).
  { unfold ensureGeminiPending. destruct (isGeminiItem _); [reflexivity|].
    destruct (pendingHistoryItemRef h); reflexivity. }
  unfold Stream.handleContentEvent.
  destruct (turnCancelledRef h); [reflexivity|].
  destruct (isEmpty ev); [reflexivity|].
  destruct (String.eqb _ _); [reflexivity|].
  unfold Stream.emitContent. destruct (_ =? _).
  - destruct (shouldUpdate _ _); simpl; exact He.
  - destruct (_ && _); simpl; exact He.
Qed.

(** The emission step keeps the message text when the split keeps it. *)
Lemma emitContent_reconstructed newBuffer ts h :
  splitKeepsText findLastSafeSplitPoint newBuffer ts h = true ->
  reconstructed (fst (emitContent newBuffer ts h))
    (snd (emitContent newBuffer ts h))
  = committedText (transcript h) +:+ newBuffer.
Proof.
  intros Hk. unfold reconstructed.
  destruct (Nat.eq_dec (findLastSafeSplitPoint newBuffer)
              (String.length newBuffer)) as [E|E].
  - rewrite (emitContent_no_split _ _ _ E). simpl.
    destruct (shouldUpdate _ _); simpl;
      now rewrite ensureGeminiPending_committed.
  - rewrite (emitContent_split _ _ _ E). simpl.
    pose proof (substring_split (findLastSafeSplitPoint newBuffer) newBuffer)
      as Hsplit.
    unfold splitKeepsText in Hk. apply Nat.eqb_neq in E. rewrite E in Hk.
    simpl in Hk.
    destruct (isEmpty (substring_to (findLastSafeSplitPoint newBuffer)
                         newBuffer)) eqn:Hb; simpl in *.
    + apply isEmpty_true in Hb. rewrite Hb in Hsplit. simpl in Hsplit.
      rewrite ensureGeminiPending_committed. now rewrite Hsplit.
    + rewrite Hk. simpl.
      rewrite committedText_app, ensureGeminiPending_committed.
      destruct (pendingType_gemini ts h) as [-> | ->]; simpl;
        now rewrite string_app_empty_r, string_app_assoc, Hsplit.
Qed.

End ReassemblerFacts.

(** C1 as stated fails: of the two increments "a" and "ab", which stand
    for "aab", the second starts with the buffer "a" and is taken for the
    whole text, so that the reassembled text is "ab". *)
Lemma reassembly_drops_increment_prefix :
  fold_left Stream.intend [Stream.Delta "a"; Stream.Delta "ab"] "" = "aab"
  /\ fold_left (Stream.feed Stream.noSplit 0%N)
       [Stream.Delta "a"; Stream.Delta "ab"] ("", Stream.idleHook)
     = ("ab",
        Stream.setPendingHistoryItem
          (Some (Stream.TextItem Stream.gemini "")) Stream.idleHook)
  /\ Stream.reconstructed "ab"
       (Stream.setPendingHistoryItem
          (Some (Stream.TextItem Stream.gemini "")) Stream.idleHook)
     <> "aab".
Proof. repeat split. discriminate. Qed.

(** With a split function that cuts after a blank line, a fragment meant
    as the whole text is added in full after a split, so that text of the
    message stands twice. *)
Example snapshot_after_split_repeats :
  let nl := String "010" EmptyString in
  let first := "Intro." +:+ nl +:+ nl +:+ "Next" in
  let st :=
    fold_left (Stream.feed Stream.splitAfterBlankLine 0%N)
      [Stream.Snapshot first; Stream.Snapshot (first +:+ " part")]
      ("", Stream.idleHook) in
  Stream.reconstructed (fst st) (snd st)
  = ("Intro." +:+ nl +:+ nl) +:+ "Next" +:+ first +:+ " part".
Proof. reflexivity. Qed.

(** With the same split function, the text before the split point is
    dropped when it is the text of the pending item. *)
Example split_drops_pending_text :
  let nl := String "010" EmptyString in
  let st :=
    fold_left (Stream.feed Stream.splitAfterBlankLine 0%N)
      [Stream.Delta ("Hello." +:+ nl +:+ nl); Stream.Delta "World"]
      ("", Stream.idleHook) in
  Stream.reconstructed (fst st) (snd st) = "World"
  /\ Stream.transcript (snd st) = [].
Proof. split; reflexivity. Qed.

(** A fragment that starts with the buffer "Hel" becomes the buffer. *)
Lemma handleContentEvent_apply_witness :
  Stream.accumulate "Hello" "Hel" = "Hello"
  /\ Stream.handleContentEvent Stream.noSplit "Hello" "Hel" 0%N
       Stream.idleHook
     = Stream.emitContent Stream.noSplit "Hello" 0%N Stream.idleHook
  /\ fst (Stream.handleContentEvent Stream.noSplit "Hello" "Hel" 0%N
            Stream.idleHook)
     = "Hello".
Proof.
  destruct (handleContentEvent_apply Stream.noSplit "Hello" "Hel" 0%N
              Stream.idleHook) as [_ Hlive].
  destruct (Hlive eq_refl) as (_ & Hsnap & _).
  destruct (Hsnap ltac:(discriminate) eq_refl) as [Hacc Hgo].
  destruct (Hgo ltac:(discriminate)) as [Hemit Hback].
  split; [exact Hacc|]. split; [exact Hemit | exact Hback].
Defined.

(** C4 as stated fails: once [cancelOngoingRequest] has raised the flag
    of the turn, an empty fragment does not give back the buffer "Hello"
    and a fragment that starts with the buffer does not become the
    buffer: both give back the empty string. *)
Lemma handleContentEvent_cancelled_gives_empty :
  Stream.turnCancelledRef
    (Turn.hookState
       (Turn.cancelOngoingRequest Turn.Responding 8%N 8%N
          (Turn.opening (Turn.QueryString "hello") false "p1"
             Turn.idleSession)))
  = true
  /\ fst (Stream.handleContentEvent Stream.noSplit "" "Hello" 7%N
            (Turn.hookState
               (Turn.cancelOngoingRequest Turn.Responding 8%N 8%N
                  (Turn.opening (Turn.QueryString "hello") false "p1"
                     Turn.idleSession))))
     <> "Hello"
  /\ fst (Stream.handleContentEvent Stream.noSplit "Hello world" "Hello" 7%N
            (Turn.hookState
               (Turn.cancelOngoingRequest Turn.Responding 8%N 8%N
                  (Turn.opening (Turn.QueryString "hello") false "p1"
                     Turn.idleSession))))
     <> "Hello world".
Proof. repeat split; discriminate. Qed.

(** C7 as stated fails: for the new buffer "Hel" the split point is the
    length of the buffer, and the pending item is not updated to it (the
    text grew by three characters and ends in none of the four marks). *)
Lemma emitContent_leaves_pending_stale :
  Stream.noSplit "Hel" = String.length "Hel"
  /\ Stream.emitContent Stream.noSplit "Hel" 0%N Stream.idleHook
     = ("Hel",
        Stream.setPendingHistoryItem
          (Some (Stream.TextItem Stream.gemini "")) Stream.idleHook)
  /\ Stream.pendingHistoryItemRef
       (snd (Stream.emitContent Stream.noSplit "Hel" 0%N Stream.idleHook))
     <> Some (Stream.TextItem Stream.gemini "Hel").
Proof. repeat split. discriminate. Qed.

(** A split after a blank line: the text before it goes to the
    transcript and the text after it becomes the pending item. *)
Lemma emitContent_split_or_update_witness :
  fst (Stream.emitContent Stream.splitAfterBlankLine
         ("Hello." +:+ String "010" (String "010" "World")) 0%N
         Stream.idleHook)
  = "World"
  /\ Stream.pendingHistoryItemRef
       (snd (Stream.emitContent Stream.splitAfterBlankLine
               ("Hello." +:+ String "010" (String "010" "World")) 0%N
               Stream.idleHook))
     = Some (Stream.TextItem Stream.gemini_content "World")
  /\ Stream.transcript
       (snd (Stream.emitContent Stream.splitAfterBlankLine
               ("Hello." +:+ String "010" (String "010" "World")) 0%N
               Stream.idleHook))
     = [(Stream.TextItem Stream.gemini
           ("Hello." +:+ String "010" (String "010" "")), 0%N)].
Proof.
  destruct (emitContent_split_or_update Stream.splitAfterBlankLine
              ("Hello." +:+ String "010" (String "010" "World")) 0%N
              Stream.idleHook) as (_ & _ & Hcut).
  destruct (Hcut ltac:(discriminate)) as (H1 & H2 & H3 & _).
  split; [exact H1|]. split; [exact H2 | exact H3].
Defined.

(** ** The stream event dispatcher *)

Section DispatcherFacts.

Import Stream.

Variable findLastSafeSplitPoint : string -> nat.
Variable eventTypeName : GeminiEventType.t -> string.
Variable parseAndFormatApiError : string -> string.
Variable getModel : string.
Variable getMaxSessionTurns : Z.

Local Abbreviation eventId := (Stream.eventId eventTypeName).
Local Abbreviation dispatchEvent :=
  (Stream.dispatchEvent findLastSafeSplitPoint parseAndFormatApiError
     getModel getMaxSessionTurns).
Local Abbreviation processEvent :=
  (Stream.processEvent findLastSafeSplitPoint eventTypeName
     parseAndFormatApiError getModel getMaxSessionTurns).
Local Abbreviation runLoop :=
  (Stream.runLoop findLastSafeSplitPoint eventTypeName
     parseAndFormatApiError getModel getMaxSessionTurns).

Lemma hasRequest_true id requests :
  hasRequest id requests = true <-> id ∈ map callId requests.
Proof.
  unfold hasRequest. rewrite existsb_exists, list_elem_of_In, in_map_iff.
  split.
  - intros (req & Hin & Heq). apply String.eqb_eq in Heq. eauto.
  - intros (req & Heq & Hin). exists req.
    split; [exact Hin | now apply String.eqb_eq].
Qed.

Lemma hasRequest_false id requests :
  hasRequest id requests = false <-> id ∉ map callId requests.
Proof.
  rewrite <- hasRequest_true. destruct (hasRequest id requests); split;
    congruence.
Qed.

(** The switch never changes the set of identifiers seen. *)
Lemma dispatchEvent_ids d ts s :
  processedEventIds (dispatchEvent d ts s) = processedEventIds s.
Proof.
  unfold Stream.dispatchEvent. destruct (event d); try reflexivity.
  destruct (hasRequest _ _); reflexivity.
Qed.

(** Only a tool call request changes the list of requests. *)
Lemma dispatchEvent_requests d ts s :
  toolCallRequests (dispatchEvent d ts s)
  = match event d with
    | ToolCallRequest value =>
        if hasRequest (callId value) (toolCallRequests s)
        then toolCallRequests s
        else toolCallRequests s ++ [value]
    | _ => toolCallRequests s
    end.
Proof.
  unfold Stream.dispatchEvent. destruct (event d); try reflexivity.
  destruct (hasRequest _ _); reflexivity.
Qed.

Lemma handleUserCancelledEvent_flag ts h :
  turnCancelledRef (handleUserCancelledEvent ts h) = turnCancelledRef h.
Proof.
  unfold handleUserCancelledEvent.
  destruct (turnCancelledRef h) eqn:E; [exact E|].
  destruct (pendingHistoryItemRef h) as [[ty t|tools]|]; exact E.
Qed.

(** No handler writes the cancellation flag. *)
Lemma dispatchEvent_flag d ts s :
  turnCancelledRef (hook (dispatchEvent d ts s)) = turnCancelledRef (hook s).
Proof.
  unfold Stream.dispatchEvent. destruct (event d); simpl; try reflexivity.
  - apply handleContentEvent_cancelled_flag.
  - destruct (hasRequest _ _); reflexivity.
  - apply handleUserCancelledEvent_flag.
  - unfold handleErrorEvent. destruct (pendingHistoryItemRef (hook s));
      reflexivity.
  - unfold handleFinishedEvent. destruct (finishReasonMessages _);
      reflexivity.
Qed.

(** No handler of the switch schedules a tool call. *)
Lemma dispatchEvent_scheduled d ts s :
  scheduled (hook (dispatchEvent d ts s)) = scheduled (hook s).
Proof.
  unfold Stream.dispatchEvent. destruct (event d); simpl; try reflexivity.
  - apply handleContentEvent_scheduled.
  - destruct (hasRequest _ _); reflexivity.
  - unfold handleUserCancelledEvent. destruct (turnCancelledRef (hook s));
      [reflexivity|].
    destruct (pendingHistoryItemRef (hook s)) as [[ty t|tools]|]; reflexivity.
  - unfold handleErrorEvent. destruct (pendingHistoryItemRef (hook s));
      reflexivity.
  - unfold handleFinishedEvent. destruct (finishReasonMessages _);
      reflexivity.
Qed.

Lemma processEvent_seen ts s d :
  eventId d ∈ processedEventIds s -> processEvent ts s d = s.
Proof.
  intros H. unfold Stream.processEvent. now rewrite decide_True.
Qed.

Lemma processEvent_fresh ts s d :
  eventId d ∉ processedEventIds s ->
  processEvent ts s d
  = dispatchEvent d ts
      {| geminiMessageBuffer := geminiMessageBuffer s;
         toolCallRequests := toolCallRequests s;
         processedEventIds := {[ eventId d ]} ∪ processedEventIds s;
         hook := hook s |}.
Proof.
  intros H. unfold Stream.processEvent. now rewrite decide_False.
Qed.

Lemma processEvent_records ts s d :
  eventId d ∈ processedEventIds (processEvent ts s d).
Proof.
  destruct (decide (eventId d ∈ processedEventIds s)) as [H|H].
  - now rewrite processEvent_seen.
  - rewrite processEvent_fresh by exact H. rewrite dispatchEvent_ids.
    simpl. set_solver.
Qed.

Lemma processEvent_ids_grow ts s d :
  processedEventIds s ⊆ processedEventIds (processEvent ts s d).
Proof.
  destruct (decide (eventId d ∈ processedEventIds s)) as [H|H].
  - now rewrite processEvent_seen.
  - rewrite processEvent_fresh by exact H. rewrite dispatchEvent_ids.
    simpl. set_solver.
Qed.

Lemma runLoop_ids_grow ts stream s :
  processedEventIds s ⊆ processedEventIds (runLoop ts stream s).
Proof.
  revert s. induction stream as [|d stream IH]; intros s; simpl; [done|].
  etrans; [apply (processEvent_ids_grow ts s d) | apply IH].
Qed.

(** The loop looks at every event of the stream: each identifier is in
    the set when the loop ends. *)
Lemma runLoop_records_all ts stream s :
  Forall (fun d => eventId d ∈ processedEventIds (runLoop ts stream s))
    stream.
Proof.
  revert s. induction stream as [|d stream IH]; intros s; simpl;
    constructor; [|apply IH].
  apply (runLoop_ids_grow ts stream), processEvent_records.
Qed.

Lemma processEvent_requests_nodup ts s d :
  NoDup (map callId (toolCallRequests s)) ->
  NoDup (map callId (toolCallRequests (processEvent ts s d))).
Proof.
  intros Hnd.
  destruct (decide (eventId d ∈ processedEventIds s)) as [H|H].
  - now rewrite processEvent_seen.
  - rewrite processEvent_fresh by exact H. rewrite dispatchEvent_requests.
    simpl. destruct (event d); try exact Hnd.
    destruct (hasRequest (callId value) (toolCallRequests s)) eqn:E;
      [exact Hnd|].
    apply hasRequest_false in E. rewrite map_app. simpl.
    apply NoDup_app. repeat split; [exact Hnd | | apply NoDup_singleton].
    intros x Hx Hx'. apply list_elem_of_singleton in Hx'. subst. auto.
Qed.

Lemma runLoop_requests_nodup ts stream s :
  NoDup (map callId (toolCallRequests s)) ->
  NoDup (map callId (toolCallRequests (runLoop ts stream s))).
Proof.
  revert s. induction stream as [|d stream IH]; intros s H; simpl; [exact H|].
  apply IH, processEvent_requests_nodup, H.
Qed.

Lemma runLoop_scheduled ts stream s :
  scheduled (hook (runLoop ts stream s)) = scheduled (hook s).
Proof.
  revert s. induction stream as [|d stream IH]; intros s; simpl;
    [reflexivity|].
  rewrite IH.
  destruct (decide (eventId d ∈ processedEventIds s)) as [H|H].
  - now rewrite processEvent_seen.
  - rewrite processEvent_fresh by exact H. now rewrite dispatchEvent_scheduled.
Qed.

(** C5.  In the loop over the events of a turn, an event whose
    identifier has been seen leaves everything as it is: buffer, list of
    requests, set of identifiers and hook, hence transcript and pending
    item.  A tool call request whose call identifier is in the list of
    requests leaves the list as it is.  Whatever the stream, the call
    identifiers collected by the loop are pairwise distinct, the
    collected requests are what is handed to the scheduler, once, when
    the stream ends, and every event of the stream has its identifier in
    the set at the end, so that an event delivered again under the same
    identifier is skipped. *)
Theorem duplicate_events_skipped (ts : N) (h : Hook) (stream : list Delivery)
  (s : LoopState) (d : Delivery) :
  (eventId d ∈ processedEventIds s -> processEvent ts s d = s)
  /\ (forall value, event d = ToolCallRequest value ->
      callId value ∈ map callId (toolCallRequests s) ->
      toolCallRequests (processEvent ts s d) = toolCallRequests s)
  /\ NoDup (map callId (toolCallRequests (runLoop ts stream (loopStart h))))
  /\ scheduled
       (snd (Stream.processGeminiStreamEvents findLastSafeSplitPoint
               eventTypeName parseAndFormatApiError getModel
               getMaxSessionTurns stream ts h))
     = scheduled h
       ++ match toolCallRequests (runLoop ts stream (loopStart h)) with
          | [] => []
          | _ :: _ => [toolCallRequests (runLoop ts stream (loopStart h))]
          end
  /\ Forall
       (fun d' =>
          processEvent ts (runLoop ts stream (loopStart h)) d'
          = runLoop ts stream (loopStart h))
       stream.
Proof.
  split; [apply processEvent_seen|]. split; [|split; [|split]].
  - intros value Hev Hin.
    destruct (decide (eventId d ∈ processedEventIds s)) as [H|H].
    + now rewrite processEvent_seen.
    + rewrite processEvent_fresh by exact H. rewrite dispatchEvent_requests.
      simpl. rewrite Hev. apply hasRequest_true in Hin. now rewrite Hin.
  - apply runLoop_requests_nodup. simpl. constructor.
  - unfold Stream.processGeminiStreamEvents. simpl.
    destruct (toolCallRequests (runLoop ts stream (loopStart h)));
      simpl; rewrite runLoop_scheduled; simpl;
      [now rewrite app_nil_r | reflexivity].
  - eapply Forall_impl; [apply runLoop_records_all|].
    intros d' Hd'. apply processEvent_seen. exact Hd'.
Qed.

(** A content event is told from an earlier one only by its length and
    its last ten characters: whatever else differs, and whatever events
    came before the earlier one and between the two, the later one is
    skipped: the loop ends in the same state with it as without it. *)
Theorem content_events_same_tail_skipped (ts : N) (s : LoopState)
  (before between : list Delivery) (d1 d2 : Delivery)
  (value1 value2 : string) :
  event d1 = ContentEvent value1 ->
  event d2 = ContentEvent value2 ->
  String.length value1 = String.length value2 ->
  slice_last 10 value1 = slice_last 10 value2 ->
  processEvent ts (runLoop ts (before ++ d1 :: between) s) d2
  = runLoop ts (before ++ d1 :: between) s
  /\ runLoop ts (before ++ d1 :: between ++ [d2]) s
     = runLoop ts (before ++ d1 :: between) s.
Proof.
  intros H1 H2 Hlen Htail.
  assert (Hid : eventId d2 = eventId d1)
    by (unfold Stream.eventId; now rewrite H1, H2, Hlen, Htail).
  assert (Hseen : eventId d2
                  ∈ processedEventIds (runLoop ts (before ++ d1 :: between) s)).
  { rewrite Hid.
    pose proof (runLoop_records_all ts (before ++ d1 :: between) s) as Hall.
    rewrite Forall_forall in Hall. apply Hall.
    apply elem_of_app. right. constructor. }
  split; [now apply processEvent_seen|].
  replace (before ++ d1 :: between ++ [d2])
    with ((before ++ d1 :: between) ++ [d2])
    by (now rewrite <- app_assoc).
  unfold Stream.runLoop at 1. rewrite fold_left_app. cbn [fold_left].
  now apply processEvent_seen.
Qed.

Lemma processEvent_flag ts s d :
  turnCancelledRef (hook (processEvent ts s d)) = turnCancelledRef (hook s).
Proof.
  destruct (decide (eventId d ∈ processedEventIds s)) as [H|H].
  - now rewrite processEvent_seen.
  - rewrite processEvent_fresh by exact H. now rewrite dispatchEvent_flag.
Qed.



End DispatcherFacts.

(** A content event that repeats an identifier is skipped. *)
Lemma duplicate_events_skipped_witness :
  Stream.processEvent Stream.noSplit Stream.kindName (fun e => e) "model" 100
    7%N
    (Stream.processEvent Stream.noSplit Stream.kindName (fun e => e)
       "model" 100 7%N (Stream.loopStart Stream.idleHook)
       {| Stream.event := Stream.ContentEvent "Hello world.";
          Stream.idClock := 1%N; Stream.idRandom := "0.25";
          Stream.itemClock := 1%N |})
    {| Stream.event := Stream.ContentEvent "Hello world.";
       Stream.idClock := 2%N; Stream.idRandom := "0.75";
       Stream.itemClock := 2%N |}
  = Stream.processEvent Stream.noSplit Stream.kindName (fun e => e)
      "model" 100 7%N (Stream.loopStart Stream.idleHook)
      {| Stream.event := Stream.ContentEvent "Hello world.";
         Stream.idClock := 1%N; Stream.idRandom := "0.25";
         Stream.itemClock := 1%N |}.
Proof.
  apply (duplicate_events_skipped Stream.noSplit Stream.kindName
           (fun e => e) "model" 100 7%N Stream.idleHook []).
  exact (processEvent_records Stream.noSplit Stream.kindName (fun e => e)
           "model" 100 7%N (Stream.loopStart Stream.idleHook)
           {| Stream.event := Stream.ContentEvent "Hello world.";
              Stream.idClock := 1%N; Stream.idRandom := "0.25";
              Stream.itemClock := 1%N |}).
Defined.

(** The fragments "ha", "!", "ha": the third has the identifier of the
    first and is skipped, so that the buffer ends as "ha!". *)
Lemma content_events_same_tail_skipped_witness :
  Stream.geminiMessageBuffer
    (Stream.runLoop Stream.noSplit Stream.kindName (fun e => e) "model" 100
       7%N
       ([] ++ Stream.contentAt 1 "ha"
           :: [Stream.contentAt 2 "!"] ++ [Stream.contentAt 3 "ha"])
       (Stream.loopStart Stream.idleHook))
  = "ha!".
Proof.
  destruct (content_events_same_tail_skipped Stream.noSplit Stream.kindName
              (fun e => e) "model" 100 7%N (Stream.loopStart Stream.idleHook)
              [] [Stream.contentAt 2 "!"] (Stream.contentAt 1 "ha")
              (Stream.contentAt 3 "ha") "ha" "ha"
              eq_refl eq_refl eq_refl eq_refl) as [_ Hrun].
  rewrite Hrun. vm_compute. reflexivity.
Defined.



(** ** Submission of tool results *)

Section SubmissionFacts.

Import Submission.

(** At the guard: nothing happens when the closure was built while
    responding or a submission is in progress. *)
Lemma handleCompletedTools_refused isResponding ms batch r :
  isResponding || toolSubmissionInProgressRef r = true ->
  handleCompletedTools_start isResponding ms batch r = (Refused, r).
Proof. intros H. unfold handleCompletedTools_start. now rewrite H. Qed.

(** Past the guard: the lock is taken, and neither the pending slot nor
    the timers nor the display log are touched; a continuation is issued
    exactly when the pass ends at [submitQuery]. *)
Lemma handleCompletedTools_passed isResponding ms batch r :
  isResponding || toolSubmissionInProgressRef r = false ->
  let out := handleCompletedTools_start isResponding ms batch r in
  fst out <> Refused
  /\ toolSubmissionInProgressRef (snd out) = true
  /\ pendingToolSubmissionRef (snd out) = pendingToolSubmissionRef r
  /\ timers (snd out) = timers r
  /\ displayed (snd out) = displayed r
  /\ continuations (snd out)
     = continuations r
       ++ match fst out with
          | Awaiting responses id => [(responses, id)]
          | _ => []
          end.
Proof.
  intros H. unfold handleCompletedTools_start. rewrite H.
  destruct (filter _ (filter _ batch)) as [|t ts] eqn:Eg; simpl.
  { rewrite app_nil_r. repeat split; discriminate. }
  destruct (isCancelled t && forallb isCancelled ts); simpl.
  { rewrite app_nil_r. repeat split; discriminate. }
  destruct ms; simpl; rewrite ?app_nil_r; repeat split; discriminate.
Qed.

Local Abbreviation lock m := (toolSubmissionInProgressRef (refs m)).
Local Abbreviation waiting m :=
  (option_list (pendingToolSubmissionRef (refs m)) ++ timers (refs m)).

(** What every step keeps: at most one pass is suspended at
    [submitQuery], the lock is held while one is, and every batch that
    arrived is in exactly one place. *)
Lemma step_invariant m a :
  inFlight m <= 1
  /\ (inFlight m = 1 -> lock m = true)
  /\ arrived m ≡ₚ started m ++ refused m ++ replaced m ++ waiting m ->
  inFlight (step m a) <= 1
  /\ (inFlight (step m a) = 1 -> lock (step m a) = true)
  /\ arrived (step m a)
     ≡ₚ started (step m a) ++ refused (step m a) ++ replaced (step m a)
        ++ waiting (step m a).
Proof.
  intros (Hle & Hlock & Hperm).
  destruct a as [isResponding ms batch | resolved | ].
  - (* a batch settles *)
    unfold step, onComplete. destruct batch as [|t batch]; [now simpl|].
    cbn [toolSubmissionInProgressRef].
    destruct (toolSubmissionInProgressRef (refs m)) eqn:El; cbn [fst snd].
    + simpl. split; [exact Hle|]. split; [reflexivity|].
      rewrite Hperm. destruct (pendingToolSubmissionRef (refs m)); simpl;
        solve_Permutation.
    + match goal with
      | |- context [handleCompletedTools_start ?i ?q ?b ?r] =>
          destruct (i || toolSubmissionInProgressRef r) eqn:Eg;
          [ rewrite (handleCompletedTools_refused i q b r Eg)
          | pose proof (handleCompletedTools_passed i q b r Eg)
              as (Hnr & Hl' & Hp' & Ht' & _ & _);
            destruct (handleCompletedTools_start i q b r) as [res r'] ]
      end; cbn [fst snd] in *.
      * simpl. split; [exact Hle|].
        split; [intros E1; specialize (Hlock E1); congruence|].
        rewrite Hperm. solve_Permutation.
      * assert (inFlight m = 0) as E0
          by (destruct (inFlight m) as [|[|k]]; [lia | | lia];
              specialize (Hlock eq_refl); congruence).
        simpl in Hp', Ht'.
        destruct res; [contradiction| |]; simpl; rewrite Hp', Ht', ?E0;
          (repeat split; [lia | auto |]); rewrite Hperm; solve_Permutation.
  - (* the continuation settles *)
    unfold step. destruct (inFlight m) as [|k] eqn:Ek; [now rewrite Ek|].
    assert (k = 0) as -> by lia.
    unfold handleCompletedTools_finally.
    destruct (pendingToolSubmissionRef (refs m)) eqn:Ep; simpl;
      (repeat split; [lia | discriminate |]); rewrite Hperm;
      solve_Permutation.
  - (* a timer fires *)
    unfold step. destruct (timers (refs m)) as [|p rest] eqn:Et;
      [now rewrite Et|].
    match goal with
    | |- context [handleCompletedTools_start ?i ?q ?b ?r] =>
        destruct (i || toolSubmissionInProgressRef r) eqn:Eg;
        [ rewrite (handleCompletedTools_refused i q b r Eg)
        | pose proof (handleCompletedTools_passed i q b r Eg)
            as (Hnr & Hl' & Hp' & Ht' & _ & _);
          destruct (handleCompletedTools_start i q b r) as [res r'] ]
    end; cbn [fst snd] in *.
    + simpl. rewrite Et. simpl. repeat split; [exact Hle| exact Hlock |].
      rewrite Hperm. solve_Permutation.
    + simpl in Eg, Hp', Ht'. rewrite Et in Ht'. simpl in Ht'.
      assert (inFlight m = 0) as E0
        by (destruct (inFlight m) as [|[|k]]; [lia | | lia];
            specialize (Hlock eq_refl); congruence).
      destruct res; [contradiction| |]; simpl; rewrite Hp', Ht', ?E0;
        (repeat split; [lia | auto |]); rewrite Hperm; solve_Permutation.
Qed.

Lemma run_invariant actions m :
  inFlight m <= 1
  /\ (inFlight m = 1 -> lock m = true)
  /\ arrived m ≡ₚ started m ++ refused m ++ replaced m ++ waiting m ->
  inFlight (run actions m) <= 1
  /\ (inFlight (run actions m) = 1 -> lock (run actions m) = true)
  /\ arrived (run actions m)
     ≡ₚ started (run actions m) ++ refused (run actions m)
        ++ replaced (run actions m) ++ waiting (run actions m).
Proof.
  revert m. induction actions as [|a actions IH]; intros m H; [exact H|].
  simpl. apply IH, step_invariant, H.
Qed.

Lemma initial_invariant :
  inFlight initialMachine <= 1
  /\ (inFlight initialMachine = 1 -> lock initialMachine = true)
  /\ arrived initialMachine
     ≡ₚ started initialMachine ++ refused initialMachine
        ++ replaced initialMachine ++ waiting initialMachine.
Proof. simpl. split; [lia|]. split; [discriminate | reflexivity]. Qed.

(** While the lock is held no pass starts and no continuation is
    issued, whatever happens. *)
Lemma step_locked m a :
  lock m = true ->
  started (step m a) = started m
  /\ continuations (refs (step m a)) = continuations (refs m)
  /\ submitted (refs (step m a)) = submitted (refs m)
  /\ (inFlight m = 0 -> lock (step m a) = true /\ inFlight (step m a) = 0).
Proof.
  intros Hl. destruct a as [isResponding ms batch | resolved | ].
  - unfold step, onComplete. destruct batch as [|t batch]; [now simpl|].
    cbn [toolSubmissionInProgressRef]. rewrite Hl. simpl. rewrite ?Hl. auto.
  - unfold step. destruct (inFlight m) as [|k] eqn:Ek.
    + rewrite Ek. auto.
    + unfold handleCompletedTools_finally.
      destruct (pendingToolSubmissionRef (refs m)); simpl;
        repeat split; discriminate.
  - unfold step. destruct (timers (refs m)) as [|p rest] eqn:Et; [auto|].
    rewrite handleCompletedTools_refused by (simpl; exact Hl).
    simpl. auto.
Qed.

(** A batch that settles while the lock is held goes to the pending
    slot, in the place of the batch that was there. *)
Lemma step_queues m isResponding ms batch :
  lock m = true -> batch <> [] ->
  pendingToolSubmissionRef (refs (step m (Settle isResponding ms batch)))
  = Some batch
  /\ replaced (step m (Settle isResponding ms batch))
     = replaced m ++ option_list (pendingToolSubmissionRef (refs m)).
Proof.
  intros Hl Hne. unfold step, onComplete.
  destruct batch as [|t batch]; [contradiction|].
  cbn [toolSubmissionInProgressRef]. rewrite Hl. simpl. auto.
Qed.

(** When the continuation of the pass in flight settles, resolved or
    rejected, the lock is released and the batch in the pending slot, if
    any, is handed to a timer. *)
Lemma step_releases m resolved :
  inFlight m = 1 ->
  lock (step m (ContinuationSettles resolved)) = false
  /\ inFlight (step m (ContinuationSettles resolved)) = 0
  /\ pendingToolSubmissionRef (refs (step m (ContinuationSettles resolved)))
     = None
  /\ timers (refs (step m (ContinuationSettles resolved)))
     = timers (refs m) ++ option_list (pendingToolSubmissionRef (refs m)).
Proof.
  intros H1. unfold step. rewrite H1. unfold handleCompletedTools_finally.
  destruct (pendingToolSubmissionRef (refs m)); simpl;
    rewrite ?app_nil_r; auto.
Qed.

(** A timer that fires while the lock is free starts the pass of its
    batch. *)
Lemma step_timer_starts m batch rest :
  lock m = false -> timers (refs m) = batch :: rest ->
  started (step m TimerFires) = started m ++ [batch]
  /\ timers (refs (step m TimerFires)) = rest
  /\ lock (step m TimerFires) = true.
Proof.
  intros Hl Ht. unfold step. rewrite Ht.
  pose proof (handleCompletedTools_passed false false batch
                (popTimer (refs m)) Hl) as (Hnr & Hl' & _ & Ht' & _).
  destruct (handleCompletedTools_start false false batch (popTimer (refs m)))
    as [res r']. cbn [fst snd] in *. simpl in Ht'. rewrite Ht in Ht'.
  destruct res; [contradiction| |]; simpl; auto.
Qed.

(** The discipline of the lock.  In every state the event loop can
    reach: at most one
    submission pass is suspended at its continuation, and the lock is
    held while one is.  While the lock is held, a batch that settles is
    put in the single pending slot, in the place of (not merged with) the
    batch that was there, and no step starts a pass or issues a
    continuation: a queued batch is not processed before the lock is
    released.  When the continuation of the pass in flight settles, the
    lock is released and the queued batch is handed to a timer; when the
    timer fires while the lock is free, the pass of that batch starts.
    Every batch that arrived is in exactly one place: it started a pass,
    or it was refused at the guard of [handleCompletedTools], or it was
    replaced in the slot, or it waits in the slot or with the timers; so
    if the batches that arrived are distinct, none is processed twice. *)
Theorem submission_serialized (actions : list Action) :
  let m := run actions initialMachine in
  inFlight m <= 1
  /\ (inFlight m = 1 -> lock m = true)
  /\ (lock m = true ->
      forall isResponding ms batch, batch <> [] ->
        pendingToolSubmissionRef
          (refs (step m (Settle isResponding ms batch))) = Some batch
        /\ replaced (step m (Settle isResponding ms batch))
           = replaced m ++ option_list (pendingToolSubmissionRef (refs m)))
  /\ (lock m = true ->
      forall a,
        started (step m a) = started m
        /\ continuations (refs (step m a)) = continuations (refs m))
  /\ (inFlight m = 1 ->
      forall resolved,
        lock (step m (ContinuationSettles resolved)) = false
        /\ inFlight (step m (ContinuationSettles resolved)) = 0
        /\ pendingToolSubmissionRef
             (refs (step m (ContinuationSettles resolved))) = None
        /\ timers (refs (step m (ContinuationSettles resolved)))
           = timers (refs m)
             ++ option_list (pendingToolSubmissionRef (refs m)))
  /\ (lock m = false ->
      forall batch rest, timers (refs m) = batch :: rest ->
        started (step m TimerFires) = started m ++ [batch]
        /\ timers (refs (step m TimerFires)) = rest
        /\ lock (step m TimerFires) = true)
  /\ arrived m ≡ₚ started m ++ refused m ++ replaced m ++ waiting m
  /\ (NoDup (arrived m) -> NoDup (started m)).
Proof.
  intros m.
  destruct (run_invariant actions initialMachine initial_invariant)
    as (Hle & Hlock & Hperm).
  fold m in Hle, Hlock, Hperm.
  split; [exact Hle|]. split; [exact Hlock|].
  split; [|split; [|split; [|split; [|split]]]].
  - intros Hl isResponding ms batch Hne. now apply step_queues.
  - intros Hl a. destruct (step_locked m a Hl) as (H1 & H2 & _). auto.
  - intros H1 resolved. now apply step_releases.
  - intros Hl batch rest Ht. now apply step_timer_starts.
  - exact Hperm.
  - intros Hnd. rewrite Hperm in Hnd. now apply NoDup_app in Hnd as [? _].
Qed.

(** Three batches, each of one call for the model that succeeded. *)
Lemma submission_serialized_witness :
  pendingToolSubmissionRef
    (refs
       (step
          (run [Settle false false [sampleCall "call-1" success false]]
             initialMachine)
          (Settle false false [sampleCall "call-2" success false])))
  = Some [sampleCall "call-2" success false]
  /\ replaced
       (step
          (run [Settle false false [sampleCall "call-1" success false]]
             initialMachine)
          (Settle false false [sampleCall "call-2" success false]))
     = [].
Proof.
  destruct (submission_serialized
              [Settle false false [sampleCall "call-1" success false]])
    as (_ & _ & Hq & _).
  apply (Hq eq_refl false false [sampleCall "call-2" success false]).
  discriminate.
Defined.

(** A batch that was queued can be dropped without being replaced.  The first batch is being submitted when the second
    settles and is queued; the continuation settles and hands the second
    batch to a timer; before the timer runs a third batch settles and
    starts a pass; the timer then runs into the guard.  At the end nothing
    is in flight or waiting, and the second batch was neither processed
    nor replaced: its call was never marked as submitted. *)
Lemma queued_batch_dropped_at_guard :
  started
    (run [Settle false false [sampleCall "call-1" success false];
          Settle false false [sampleCall "call-2" success false];
          ContinuationSettles true;
          Settle false false [sampleCall "call-3" success false];
          TimerFires;
          ContinuationSettles true] initialMachine)
  = [[sampleCall "call-1" success false];
     [sampleCall "call-3" success false]]
  /\ refused
       (run [Settle false false [sampleCall "call-1" success false];
             Settle false false [sampleCall "call-2" success false];
             ContinuationSettles true;
             Settle false false [sampleCall "call-3" success false];
             TimerFires;
             ContinuationSettles true] initialMachine)
     = [[sampleCall "call-2" success false]]
  /\ replaced
       (run [Settle false false [sampleCall "call-1" success false];
             Settle false false [sampleCall "call-2" success false];
             ContinuationSettles true;
             Settle false false [sampleCall "call-3" success false];
             TimerFires;
             ContinuationSettles true] initialMachine)
     = []
  /\ submitted
       (refs
          (run [Settle false false [sampleCall "call-1" success false];
                Settle false false [sampleCall "call-2" success false];
                ContinuationSettles true;
                Settle false false [sampleCall "call-3" success false];
                TimerFires;
                ContinuationSettles true] initialMachine))
     = [["call-1"]; ["call-3"]]
  /\ inFlight
       (run [Settle false false [sampleCall "call-1" success false];
             Settle false false [sampleCall "call-2" success false];
             ContinuationSettles true;
             Settle false false [sampleCall "call-3" success false];
             TimerFires;
             ContinuationSettles true] initialMachine)
     = 0
  /\ waiting
       (run [Settle false false [sampleCall "call-1" success false];
             Settle false false [sampleCall "call-2" success false];
             ContinuationSettles true;
             Settle false false [sampleCall "call-3" success false];
             TimerFires;
             ContinuationSettles true] initialMachine)
     = [].
Proof. repeat split. Qed.

Lemma run_locked actions m :
  lock m = true -> inFlight m = 0 ->
  lock (run actions m) = true
  /\ inFlight (run actions m) = 0
  /\ started (run actions m) = started m
  /\ continuations (refs (run actions m)) = continuations (refs m)
  /\ submitted (refs (run actions m)) = submitted (refs m).
Proof.
  revert m. induction actions as [|a actions IH]; intros m Hl H0; [auto|].
  destruct (step_locked m a Hl) as (Hs & Hc & Hsub & Hkeep).
  destruct (Hkeep H0) as [Hl' H0'].
  destruct (IH (step m a) Hl' H0') as (? & ? & ? & ? & ?).
  simpl. repeat split; congruence.
Qed.

(** C3 fails on the code.  A batch whose one call for the model was
    cancelled starts a pass that takes the lock and returns before
    [submitQuery], hence outside the [try ... finally] that releases it:
    no pass is in flight and the lock is held.  From then on, whatever
    happens, the lock stays held: a batch that settles later is queued,
    no pass starts, nothing is marked as submitted and no continuation is
    issued. *)
Theorem lock_held_after_cancelled_batch (actions : list Action) :
  let m1 :=
    step initialMachine
      (Settle false false [sampleCall "call-1" cancelled false]) in
  let m :=
    run (Settle false false [sampleCall "call-2" success false] :: actions)
      m1 in
  started m1 = [[sampleCall "call-1" cancelled false]]
  /\ inFlight m1 = 0
  /\ lock m1 = true
  /\ pendingToolSubmissionRef
       (refs (step m1 (Settle false false [sampleCall "call-2" success false])))
     = Some [sampleCall "call-2" success false]
  /\ lock m = true
  /\ started m = [[sampleCall "call-1" cancelled false]]
  /\ submitted (refs m) = [["call-1"]]
  /\ continuations (refs m) = [].
Proof.
  intros m1 m.
  assert (H1 : lock m1 = true) by reflexivity.
  assert (H0 : inFlight m1 = 0) by reflexivity.
  destruct (run_locked
              (Settle false false [sampleCall "call-2" success false]
               :: actions) m1 H1 H0) as (Hl & _ & Hs & Hc & Hsub).
  fold m in Hl, Hs, Hc, Hsub.
  repeat split; try assumption.
Qed.

Lemma settled_ready batch :
  settled batch ->
  filter (fun tc => completedAndReadyToSubmit tc = true) batch = batch.
Proof.
  unfold settled. induction 1 as [|tc batch [Ht [ps Hps]] _ IH];
    [reflexivity|].
  rewrite filter_cons_True, IH; [reflexivity|].
  unfold completedAndReadyToSubmit. now rewrite Ht, Hps.
Qed.

Lemma backend_all_cancelled batch :
  Forall (fun tc => isClientInitiated (request tc) = false ->
                    status tc = cancelled) batch ->
  forallb isCancelled
    (filter (fun tc => isClientInitiated (request tc) = false) batch) = true.
Proof.
  induction 1 as [|tc batch Htc _ IH]; [reflexivity|].
  destruct (isClientInitiated (request tc)) eqn:Ec.
  - rewrite filter_cons_False by congruence. exact IH.
  - rewrite filter_cons_True by exact Ec. simpl. rewrite IH.
    unfold isCancelled. now rewrite Htc.
Qed.

(** One pass over a cancelled batch.  For a settled batch in which every
    call for the model has the status cancelled, [handleCompletedTools] issues no continuation: it
    never ends at [submitQuery] and the log of continuations is as
    before.  When it goes past its guard, the response parts of those
    calls, in order, are appended to the history of the client as one
    user entry (none if there is no such call), and the identifier of
    every such call is marked as submitted. *)
Theorem cancelled_batch_not_continued (isResponding ms : bool)
  (batch : list TrackedToolCall) (r : Refs) :
  settled batch ->
  Forall (fun tc => isClientInitiated (request tc) = false ->
                    status tc = cancelled) batch ->
  let out := handleCompletedTools_start isResponding ms batch r in
  let backend :=
    filter (fun tc => isClientInitiated (request tc) = false) batch in
  (forall responses id, fst out <> Awaiting responses id)
  /\ continuations (snd out) = continuations r
  /\ (isResponding = false -> toolSubmissionInProgressRef r = false ->
      clientHistory (snd out)
      = clientHistory r
        ++ match backend with
           | [] => []
           | _ :: _ =>
               [{| role := "user";
                   parts := Some (flat_map partsOf backend) |}]
           end
      /\ Forall (fun tc => callId (request tc) ∈ concat (submitted (snd out)))
           backend).
Proof.
  intros Hs Hc out backend. subst out.
  unfold handleCompletedTools_start.
  destruct (isResponding || toolSubmissionInProgressRef r) eqn:Eg.
  { simpl. split; [discriminate|]. split; [reflexivity|].
    intros -> Hl. rewrite Hl in Eg. discriminate. }
  rewrite (settled_ready _ Hs). fold backend.
  pose proof (backend_all_cancelled _ Hc) as Hall. fold backend in Hall.
  destruct backend as [|t ts] eqn:Eb.
  { simpl. rewrite app_nil_r. repeat split; try discriminate.
    constructor. }
  rewrite Hall. simpl. repeat split; try discriminate.
  rewrite concat_app. simpl. rewrite app_nil_r.
  apply Forall_forall. intros tc Htc.
  apply elem_of_app. right.
  change (callId (request tc)
          ∈ map (fun t0 => callId (request t0)) (t :: ts)).
  apply list_elem_of_fmap. exists tc. split; [reflexivity | exact Htc].
Qed.

(** A batch of one cancelled call for the model and one call of the
    client. *)
Lemma cancelled_batch_not_continued_witness :
  clientHistory
    (snd (handleCompletedTools_start false false
            [sampleCall "call-1" cancelled false;
             sampleCall "call-2" success true] initialRefs))
  = [{| role := "user";
        parts := Some (partsOf (sampleCall "call-1" cancelled false)) |}]
  /\ Forall
       (fun tc =>
          callId (request tc)
          ∈ concat
              (submitted
                 (snd (handleCompletedTools_start false false
                         [sampleCall "call-1" cancelled false;
                          sampleCall "call-2" success true] initialRefs))))
       [sampleCall "call-1" cancelled false].
Proof.
  assert (Hs : settled [sampleCall "call-1" cancelled false;
                        sampleCall "call-2" success true]).
  { repeat constructor; simpl; eauto. }
  assert (Hc : Forall
                 (fun tc => isClientInitiated (request tc) = false ->
                            status tc = cancelled)
                 [sampleCall "call-1" cancelled false;
                  sampleCall "call-2" success true]).
  { repeat constructor; simpl; discriminate. }
  destruct (cancelled_batch_not_continued false false _ initialRefs Hs Hc)
    as (_ & _ & H).
  exact (H eq_refl eq_refl).
Defined.

End SubmissionFacts.

(** ** The checkpoint recorder *)

Section CheckpointFacts.

Import Submission Checkpoint.

Variable basename : string -> string.
Variable join : string -> string -> string.

Local Abbreviation checkpointFileName :=
  (Checkpoint.checkpointFileName basename).
Local Abbreviation saveOne := (Checkpoint.saveOne basename join).
Local Abbreviation saveAll := (Checkpoint.saveAll basename join).
Local Abbreviation saveRestorableToolCalls :=
  (Checkpoint.saveRestorableToolCalls basename join).

Lemma usable_nonempty h s : usable h = Some s -> s <> "".
Proof.
  destruct h as [t|]; simpl; [|discriminate].
  destruct (isEmpty t) eqn:E; [discriminate|].
  intros [= <-]. now apply isEmpty_false.
Qed.

Lemma writeCheckpoint_files checkpointDir history e tc commitHash reported :
  truthy (lookupArg "file_path" (args (request tc))) = true ->
  commitHash <> "" ->
  Forall (Checkpoint.recordOf basename join checkpointDir history tc e)
    (files
       (Checkpoint.writeCheckpoint basename join checkpointDir history e tc
          (lookupArg "file_path" (args (request tc))) commitHash reported)).
Proof.
  intros Ht Hh. unfold Checkpoint.writeCheckpoint.
  destruct (lookupArg "file_path" (args (request tc)))
    as [[| | |path| |]|] eqn:Ea; try (simpl; constructor).
  destruct (getHistory e) as [clientHistory|] eqn:Eh; [|simpl; constructor].
  destruct (writeFileOk e); simpl; constructor; [|constructor].
  exists path, commitHash, clientHistory. simpl in Ht.
  repeat split; try reflexivity; try assumption.
  apply isEmpty_false. now destruct (isEmpty path).
Qed.

Lemma saveOne_files checkpointDir history gitService e tc :
  Forall (Checkpoint.recordOf basename join checkpointDir history tc e)
    (files (saveOne checkpointDir history gitService e tc)).
Proof.
  unfold Checkpoint.saveOne.
  destruct (truthy (lookupArg "file_path" (args (request tc)))) eqn:Ef;
    simpl; [|constructor].
  destruct gitService; simpl; [|constructor].
  destruct (usable (createFileSnapshot e)) as [h1|] eqn:E1.
  - apply writeCheckpoint_files; [exact Ef|]. eapply usable_nonempty, E1.
  - destruct (getCurrentCommitHash e) as [h2|] eqn:E2; [|simpl; constructor].
    cbn [usable]. destruct (isEmpty h2) eqn:E3; [simpl; constructor|].
    apply writeCheckpoint_files; [exact Ef|]. now apply isEmpty_false.
Qed.

Lemma saveAll_files checkpointDir history gitService env i calls :
  Forall
    (fun f =>
       exists tc k,
         tc ∈ calls
         /\ Checkpoint.recordOf basename join checkpointDir history tc
              (env k) f)
    (files (saveAll checkpointDir history gitService env i calls)).
Proof.
  revert i. induction calls as [|tc calls IH]; intros i; simpl;
    [constructor|].
  apply Forall_app. split.
  - eapply Forall_impl; [apply saveOne_files|].
    intros f Hf. exists tc, i. split; [left | exact Hf].
  - eapply Forall_impl; [apply (IH (S i))|].
    intros f (tc' & k & Hin & Hf). exists tc', k. split; [now right | exact Hf].
Qed.

Lemma replaceAll_absent c d s :
  c <> d -> Forall (fun a => a <> c) (list_ascii_of_string (replaceAll c d s)).
Proof.
  intros Hcd. induction s as [|a s IH]; simpl; constructor; [|exact IH].
  destruct (Ascii.eqb_spec a c); congruence.
Qed.

Lemma replaceAll_keeps c d x s :
  x <> d ->
  Forall (fun a => a <> x) (list_ascii_of_string s) ->
  Forall (fun a => a <> x) (list_ascii_of_string (replaceAll c d s)).
Proof.
  intros Hx. induction s as [|a s IH]; simpl; intros H; inversion_clear H;
    constructor; auto.
  destruct (Ascii.eqb a c); congruence.
Qed.

(** C9, amended.  Every file that [saveRestorableToolCalls] writes is
    written for one of the tool calls it was given, a call of [replace]
    or [write_file] that awaits approval and has a non-empty string as
    [file_path].  Its content is the JSON object with exactly the fields
    history, clientHistory, toolCall (with exactly name and args),
    commitHash (not empty) and filePath, and its name, in the checkpoint
    directory, is the timestamp, a dash, the base name of the file path,
    a dash, the name of the tool and ".json", where the timestamp is the
    ISO timestamp with each colon replaced by a dash and each full stop by
    an underscore: it holds no colon and no full stop. *)
Theorem checkpoint_records_wellformed (checkpointingEnabled : bool)
  (checkpointDir : option string) (mkdirOk gitService : bool)
  (history : JSON) (env : nat -> CallEnv) (toolCalls : list TrackedToolCall) :
  Forall
    (fun f =>
       exists dir tc k,
         checkpointDir = Some dir
         /\ tc ∈ toolCalls
         /\ isRestorable tc = true
         /\ Checkpoint.recordOf basename join dir history tc (env k) f
         /\ keys (snd f)
            = Some ["history"; "clientHistory"; "toolCall"; "commitHash";
                    "filePath"]
         /\ (keys <$> field "toolCall" (snd f)) = Some (Some ["name"; "args"])
         /\ Forall (fun a => a <> ":"%char /\ a <> "."%char)
              (list_ascii_of_string
                 (checkpointTimestamp (toISOString (env k)))))
    (files
       (saveRestorableToolCalls checkpointingEnabled checkpointDir mkdirOk
          gitService history env toolCalls)).
Proof.
  unfold Checkpoint.saveRestorableToolCalls.
  destruct checkpointingEnabled; simpl; [|constructor].
  destruct (filter (fun tc => isRestorable tc = true) toolCalls)
    as [|tc0 rest] eqn:Efil; [constructor|].
  destruct checkpointDir as [dir|]; [|constructor].
  destruct mkdirOk; [|constructor].
  eapply Forall_impl;
    [exact (saveAll_files dir history gitService env 0 (tc0 :: rest))|].
  intros f (tc & k & Hin & Hrec). rewrite <- Efil in Hin.
  apply list_elem_of_filter in Hin as [Hres Hin].
  exists dir, tc, k. repeat split; try assumption.
  - destruct Hrec as (path & h & ch & _ & _ & _ & _ & _ & ->). reflexivity.
  - destruct Hrec as (path & h & ch & _ & _ & _ & _ & _ & ->). reflexivity.
  - unfold checkpointTimestamp.
    apply Forall_and. split.
    + apply replaceAll_keeps; [discriminate|].
      apply replaceAll_absent. discriminate.
    + apply replaceAll_absent. discriminate.
Qed.

End CheckpointFacts.

(** C9 as stated fails: the file written at 2025-07-01T12:30:45.123Z for
    a [write_file] call on /home/u/notes.txt is not named by the ISO
    timestamp, the base name and the tool name. *)
Lemma checkpoint_name_is_not_iso :
  map fst
    (Checkpoint.files
       (Checkpoint.saveRestorableToolCalls Checkpoint.posixBasename
          Checkpoint.posixJoin true (Some "/tmp/checkpoints") true true
          (JArray [])
          (fun _ =>
             {| Checkpoint.createFileSnapshot := Some "abc123";
                Checkpoint.getCurrentCommitHash := Some "def456";
                Checkpoint.toISOString := "2025-07-01T12:30:45.123Z";
                Checkpoint.getHistory := Some (JArray []);
                Checkpoint.writeFileOk := true |})
          [{| Submission.request :=
                {| callId := "call-1"; name := "write_file";
                   args := [("file_path", JString "/home/u/notes.txt");
                            ("content", JString "text")];
                   isClientInitiated := false;
                   prompt_id := "session########1" |};
              Submission.status := Submission.awaiting_approval;
              Submission.responseParts := None |}]))
  = ["/tmp/checkpoints/2025-07-01T12-30-45_123Z-notes.txt-write_file.json"]
  /\ "/tmp/checkpoints/2025-07-01T12-30-45_123Z-notes.txt-write_file.json"
     <> Checkpoint.posixJoin "/tmp/checkpoints"
          ("2025-07-01T12:30:45.123Z" +:+ "-"
           +:+ Checkpoint.posixBasename "/home/u/notes.txt" +:+ "-"
           +:+ "write_file" +:+ ".json").
Proof. split; [reflexivity | discriminate]. Qed.

(** The record written for that call has the five fields. *)
Lemma checkpoint_records_wellformed_witness :
  Forall
    (fun f =>
       Checkpoint.keys (snd f)
       = Some ["history"; "clientHistory"; "toolCall"; "commitHash";
               "filePath"]
       /\ (Checkpoint.keys <$> Checkpoint.field "toolCall" (snd f))
          = Some (Some ["name"; "args"]))
    (Checkpoint.files
       (Checkpoint.saveRestorableToolCalls Checkpoint.posixBasename
          Checkpoint.posixJoin true (Some "/tmp/checkpoints") true true
          (JArray [])
          (fun _ =>
             {| Checkpoint.createFileSnapshot := Some "abc123";
                Checkpoint.getCurrentCommitHash := Some "def456";
                Checkpoint.toISOString := "2025-07-01T12:30:45.123Z";
                Checkpoint.getHistory := Some (JArray []);
                Checkpoint.writeFileOk := true |})
          [{| Submission.request :=
                {| callId := "call-1"; name := "write_file";
                   args := [("file_path", JString "/home/u/notes.txt");
                            ("content", JString "text")];
                   isClientInitiated := false;
                   prompt_id := "session########1" |};
              Submission.status := Submission.awaiting_approval;
              Submission.responseParts := None |}])).
Proof.
  eapply Forall_impl; [apply checkpoint_records_wellformed|].
  intros f (dir & tc & k & _ & _ & _ & _ & Hkeys & Htool & _).
  split; assumption.
Defined.

(** ** Token counting *)

Section TokenFacts.

Import OpenAI.

Variable ContentListUnion : Type.
Variable toContents : ContentListUnion -> list Content.

Local Arguments ceilQuarter : simpl never.

(** [Math.ceil(n / 4)] is the least integer [c] with [n <= 4 c]. *)
Lemma ceilQuarter_ceiling n :
  (4 * (ceilQuarter n - 1) < Z.of_nat n <= 4 * ceilQuarter n)%Z.
Proof.
  change (ceilQuarter n) with (- (- Z.of_nat n / 4))%Z.
  pose proof (Z.div_mod (- Z.of_nat n) 4 ltac:(lia)).
  pose proof (Z.mod_pos_bound (- Z.of_nat n) 4 ltac:(lia)).
  lia.
Qed.

Lemma ceilQuarter_nonneg n : (0 <= ceilQuarter n)%Z.
Proof. pose proof (ceilQuarter_ceiling n). lia. Qed.

Lemma ceilQuarter_zero : ceilQuarter 0 = 0%Z.
Proof. reflexivity. Qed.

Lemma quarterSum_cons t l :
  quarterSum (t :: l) = (ceilQuarter (String.length t) + quarterSum l)%Z.
Proof. reflexivity. Qed.

Lemma quarterSum_app l1 l2 :
  quarterSum (l1 ++ l2) = (quarterSum l1 + quarterSum l2)%Z.
Proof.
  induction l1 as [|t l1 IH]; simpl; [reflexivity|]. rewrite IH. lia.
Qed.

Lemma quarterSum_nonneg l : (0 <= quarterSum l)%Z.
Proof.
  induction l as [|t l IH]; simpl; [lia|].
  pose proof (ceilQuarter_nonneg (String.length t)). lia.
Qed.

Lemma addParts_sum total ps :
  addParts total ps = (total + quarterSum (omap text ps))%Z.
Proof.
  revert total. induction ps as [|p ps IH]; intros total; [simpl; lia|].
  change (addParts total (p :: ps))
    with (addParts
            match text p with
            | Some t =>
                if isEmpty t then total
                else (total + ceilQuarter (String.length t))%Z
            | None => total
            end ps).
  rewrite IH.
  change (omap text (p :: ps))
    with (match text p with
          | Some t => t :: omap text ps
          | None => omap text ps
          end).
  destruct (text p) as [[|a t]|]; rewrite ?quarterSum_cons;
    cbn [isEmpty String.length]; rewrite ?ceilQuarter_zero; lia.
Qed.

Lemma addContents_sum total contents :
  addContents total contents = (total + quarterSum (textsOf contents))%Z.
Proof.
  revert total. induction contents as [|c contents IH]; intros total;
    [unfold textsOf; simpl; lia|].
  change (addContents total (c :: contents))
    with (addContents
            match parts c with
            | Some ps => addParts total ps
            | None => total
            end contents).
  rewrite IH.
  change (textsOf (c :: contents))
    with (omap text (default [] (parts c) ++
                     flat_map (fun c => default [] (parts c)) contents)).
  rewrite omap_app, quarterSum_app. fold (textsOf contents).
  destruct (parts c) as [ps|]; [rewrite addParts_sum|]; simpl; lia.
Qed.

(** C10.  [countTokens] gives as [totalTokens] the sum, over the texts of
    the parts of the contents of the request (in the form [toContents]
    gives them), of the ceiling of a quarter of the length of the text,
    where the ceiling [c] of a quarter of [n] is the integer with
    [4 (c - 1) < n <= 4 c]; a part without text adds nothing.  The count
    is a function of the contents, it is never negative, and it is zero
    when there are no contents. *)
Theorem countTokens_sum (requestContents : ContentListUnion) :
  totalTokens (countTokens ContentListUnion toContents requestContents)
  = quarterSum (textsOf (toContents requestContents))
  /\ (forall n,
        (4 * (ceilQuarter n - 1) < Z.of_nat n <= 4 * ceilQuarter n)%Z)
  /\ (forall other,
        toContents other = toContents requestContents ->
        countTokens ContentListUnion toContents other
        = countTokens ContentListUnion toContents requestContents)
  /\ (0 <= totalTokens
             (countTokens ContentListUnion toContents requestContents))%Z
  /\ (toContents requestContents = [] ->
      totalTokens (countTokens ContentListUnion toContents requestContents)
      = 0%Z).
Proof.
  assert (H : totalTokens
                (countTokens ContentListUnion toContents requestContents)
              = quarterSum (textsOf (toContents requestContents)))
    by (unfold countTokens; simpl; rewrite addContents_sum; lia).
  split; [exact H|]. split; [apply ceilQuarter_ceiling|]. split; [|split].
  - intros other E. unfold countTokens. now rewrite E.
  - rewrite H. apply quarterSum_nonneg.
  - intros E. rewrite H, E. reflexivity.
Qed.

End TokenFacts.

(** Two contents: texts of five and eight characters, a part without
    text and a content without parts: 2 + 2 tokens. *)
Lemma countTokens_sum_witness :
  OpenAI.totalTokens
    (OpenAI.countTokens (list Content) (fun contents => contents)
       [{| role := "user";
           parts :=
             Some [{| text := Some "Hello"; inlineData := None;
                      functionCall := None; functionResponse := None |};
                   {| text := None; inlineData := Some ("image/png", "AAAA");
                      functionCall := None; functionResponse := None |}] |};
        {| role := "model"; parts := None |};
        {| role := "model";
           parts :=
             Some [{| text := Some "12345678"; inlineData := None;
                      functionCall := None; functionResponse := None |}] |}])
  = 4%Z.
Proof.
  destruct (countTokens_sum (list Content) (fun contents => contents)
              [{| role := "user";
                  parts :=
                    Some [{| text := Some "Hello"; inlineData := None;
                             functionCall := None; functionResponse := None |};
                          {| text := None;
                             inlineData := Some ("image/png", "AAAA");
                             functionCall := None;
                             functionResponse := None |}] |};
               {| role := "model"; parts := None |};
               {| role := "model";
                  parts :=
                    Some [{| text := Some "12345678"; inlineData := None;
                             functionCall := None;
                             functionResponse := None |}] |}]) as [H _].
  rewrite H. reflexivity.
Defined.

(** ** Validation of the authentication method *)

Section AuthFacts.

Import Auth.

Variable authTypeValue : AuthType -> string.
Variable loadEnvironment : gmap string string -> gmap string string.

Local Abbreviation validateAuthMethod :=
  (Auth.validateAuthMethod authTypeValue loadEnvironment).

Lemma unset_false env key : unset env key = false <-> provided env key.
Proof.
  unfold unset, provided. destruct (env !! key) as [v|]; split.
  - intros H. exists v. split; [reflexivity | now apply isEmpty_false].
  - intros (w & [= <-] & Hw). now apply isEmpty_false.
  - discriminate.
  - intros (w & [=] & _).
Qed.

(** A method is accepted only with its credentials: when
    [validateAuthMethod] answers [null], the method is one of the two
    Google logins that need nothing, or it is one of the other four and,
    in the environment the call leaves, the variables it needs are set
    and not empty: the project for the GCA login, the Gemini key, the
    project and the location or else the Google key for Vertex AI, the
    OpenAI key (possibly just typed in).  Any other method is refused. *)
Theorem validateAuthMethod_accepts_with_credentials
  (authMethod answer : string) (processEnv : gmap string string) :
  result (validateAuthMethod authMethod answer processEnv) = None ->
  authMethod = authTypeValue LOGIN_WITH_GOOGLE
  \/ authMethod = authTypeValue CLOUD_SHELL
  \/ (authMethod = authTypeValue LOGIN_WITH_GOOGLE_GCA
      /\ provided (environment (validateAuthMethod authMethod answer processEnv))
           "GOOGLE_CLOUD_PROJECT")
  \/ (authMethod = authTypeValue USE_GEMINI
      /\ provided (environment (validateAuthMethod authMethod answer processEnv))
           "GEMINI_API_KEY")
  \/ (authMethod = authTypeValue USE_VERTEX_AI
      /\ ((provided
             (environment (validateAuthMethod authMethod answer processEnv))
             "GOOGLE_CLOUD_PROJECT"
           /\ provided
                (environment (validateAuthMethod authMethod answer processEnv))
                "GOOGLE_CLOUD_LOCATION")
          \/ provided
               (environment (validateAuthMethod authMethod answer processEnv))
               "GOOGLE_API_KEY"))
  \/ (authMethod = authTypeValue USE_OPENAI
      /\ provided (environment (validateAuthMethod authMethod answer processEnv))
           "OPENAI_API_KEY").
Proof.
  unfold Auth.validateAuthMethod.
  destruct (String.eqb_spec authMethod (authTypeValue LOGIN_WITH_GOOGLE));
    [auto|].
  destruct (String.eqb_spec authMethod (authTypeValue CLOUD_SHELL)); [auto|].
  cbn [orb].
  destruct (String.eqb_spec authMethod (authTypeValue LOGIN_WITH_GOOGLE_GCA)).
  { destruct (unset _ "GOOGLE_CLOUD_PROJECT") eqn:E; [discriminate|].
    intros _. right. right. left. split; [assumption|].
    now apply unset_false. }
  destruct (String.eqb_spec authMethod (authTypeValue USE_GEMINI)).
  { destruct (unset _ "GEMINI_API_KEY") eqn:E; [discriminate|].
    intros _. do 3 right. left. split; [assumption|]. now apply unset_false. }
  destruct (String.eqb_spec authMethod (authTypeValue USE_VERTEX_AI)).
  { destruct (unset _ "GOOGLE_API_KEY") eqn:Ek;
      destruct (unset _ "GOOGLE_CLOUD_PROJECT") eqn:Ep;
      destruct (unset _ "GOOGLE_CLOUD_LOCATION") eqn:El;
      cbn; try discriminate; intros _; do 4 right; left;
      (split; [assumption|]);
      rewrite <- ?unset_false; auto. }
  destruct (String.eqb_spec authMethod (authTypeValue USE_OPENAI)).
  { destruct (unset _ "OPENAI_API_KEY") eqn:E.
    - destruct (isEmpty answer) eqn:Ea; [discriminate|].
      intros _. do 5 right. split; [assumption|]. cbn.
      exists answer. split; [apply lookup_insert_eq | now apply isEmpty_false].
    - intros _. do 5 right. split; [assumption|]. now apply unset_false. }
  discriminate.
Qed.

(** [validateAuthMethod] asks for a key on the terminal only for the
    OpenAI method when its key is missing or empty; a call that does not
    ask leaves the environment as [loadEnvironment] made it, and a call
    that asks changes at most the variable [OPENAI_API_KEY], to the
    answer: after an answer that is not empty the environment is that of
    [loadEnvironment] with [OPENAI_API_KEY] set to the answer, and after
    an empty answer it is unchanged. *)
Theorem validateAuthMethod_environment
  (authMethod answer : string) (processEnv : gmap string string) :
  (prompted (validateAuthMethod authMethod answer processEnv) = true ->
   authMethod = authTypeValue USE_OPENAI
   /\ unset (loadEnvironment processEnv) "OPENAI_API_KEY" = true)
  /\ (prompted (validateAuthMethod authMethod answer processEnv) = false ->
      environment (validateAuthMethod authMethod answer processEnv)
      = loadEnvironment processEnv)
  /\ (forall key, key <> "OPENAI_API_KEY" ->
      environment (validateAuthMethod authMethod answer processEnv) !! key
      = loadEnvironment processEnv !! key)
  /\ (forall v,
      environment (validateAuthMethod authMethod answer processEnv)
        !! "OPENAI_API_KEY" = Some v ->
      loadEnvironment processEnv !! "OPENAI_API_KEY" = Some v
      \/ v = answer)
  /\ (prompted (validateAuthMethod authMethod answer processEnv) = true ->
      environment (validateAuthMethod authMethod answer processEnv)
      = if isEmpty answer then loadEnvironment processEnv
        else <["OPENAI_API_KEY" := answer]> (loadEnvironment processEnv)).
Proof.
  unfold Auth.validateAuthMethod.
  destruct (_ || _); [cbn; repeat split; auto; discriminate|].
  destruct (String.eqb authMethod (authTypeValue LOGIN_WITH_GOOGLE_GCA)).
  { destruct (unset _ _); cbn; repeat split; auto; discriminate. }
  destruct (String.eqb authMethod (authTypeValue USE_GEMINI)).
  { destruct (unset _ _); cbn; repeat split; auto; discriminate. }
  destruct (String.eqb authMethod (authTypeValue USE_VERTEX_AI)).
  { destruct (_ && _); cbn; repeat split; auto; discriminate. }
  destruct (String.eqb_spec authMethod (authTypeValue USE_OPENAI)).
  { destruct (unset _ "OPENAI_API_KEY") eqn:E.
    - destruct (isEmpty answer); cbn; repeat split; auto; try discriminate.
      + intros key Hk. now rewrite lookup_insert_ne.
      + intros v. rewrite lookup_insert_eq. intros [= <-]. now right.
    - cbn. repeat split; auto; discriminate. }
  cbn. repeat split; auto; discriminate.
Qed.

End AuthFacts.

(** The OpenAI method without a key: the key typed in is stored. *)
Lemma validateAuthMethod_accepts_with_credentials_witness :
  Auth.provided
    (Auth.environment
       (Auth.validateAuthMethod Auth.authTypeName (fun env => env)
          "openai-api-key" "sk-test" ∅))
    "OPENAI_API_KEY".
Proof.
  assert (Hok : Auth.result
                  (Auth.validateAuthMethod Auth.authTypeName (fun env => env)
                     "openai-api-key" "sk-test" ∅) = None)
    by (vm_compute; reflexivity).
  destruct (validateAuthMethod_accepts_with_credentials Auth.authTypeName
              (fun env => env) "openai-api-key" "sk-test" ∅ Hok)
    as [H|[H|[[H _]|[[H _]|[[H _]|[_ H]]]]]];
    try discriminate H.
  exact H.
Defined.

(** ** The OpenAI content generator *)

Section GeneratorFacts.

Import OpenAIGenerator.

Variable parse : string -> option JSON.

Local Abbreviation onChunk := (OpenAIGenerator.onChunk parse).
Local Abbreviation generateContentStream :=
  (OpenAIGenerator.generateContentStream parse).
Local Abbreviation toolCallParts := (OpenAIGenerator.toolCallParts parse).

Lemma substring_from_app a c : substring_from (String.length a) (a +:+ c) = c.
Proof.
  unfold substring_from. induction a as [|x a IH]; simpl.
  - rewrite Nat.sub_0_r. apply substring_whole.
  - exact IH.
Qed.

Lemma joined_app l1 l2 : joined (l1 ++ l2) = joined l1 +:+ joined l2.
Proof.
  induction l1 as [|t l1 IH]; simpl; [reflexivity|].
  now rewrite IH, string_app_assoc.
Qed.

Lemma filter_text_responses l :
  filter (fun x => isIncremental x = true) (map textResponse l)
  = map textResponse l.
Proof.
  induction l as [|t l IH]; [reflexivity|]. cbn [map].
  rewrite filter_cons_True by reflexivity. f_equal. exact IH.
Qed.

Lemma generateContentStream_snoc chunks chunk :
  generateContentStream (chunks ++ [chunk])
  = onChunk (generateContentStream chunks) chunk.
Proof. unfold OpenAIGenerator.generateContentStream. now rewrite fold_left_app. Qed.

(** A throw is final. *)
Lemma onChunk_thrown r chunk :
  thrown (onChunk r chunk) = false -> thrown r = false.
Proof.
  unfold OpenAIGenerator.onChunk.
  destruct (thrown r) eqn:E; [intros H; congruence | reflexivity].
Qed.

(** The three parts of the body of the loop. *)
Lemma addContent_step r chunk :
  previousContentLength r = String.length (accumulatedContent r) ->
  thrown (addContent r chunk) = thrown r
  /\ previousContentLength (addContent r chunk)
     = String.length (accumulatedContent (addContent r chunk))
  /\ accumulatedContent (addContent r chunk)
     = accumulatedContent r +:+ joined (contentsOf [chunk])
  /\ accumulatedToolCalls (addContent r chunk) = accumulatedToolCalls r
  /\ yielded (addContent r chunk)
     = yielded r ++ map textResponse (contentsOf [chunk]).
Proof.
  intros Hp. unfold addContent, contentsOf. simpl.
  destruct (deltaContent chunk) as [content|]; simpl.
  - destruct (isEmpty content) eqn:Ec; simpl.
    + now rewrite string_app_empty_r, app_nil_r.
    + rewrite Hp, substring_from_app, Ec. simpl.
      now rewrite string_app_empty_r.
  - now rewrite string_app_empty_r, app_nil_r.
Qed.

Lemma addToolCalls_step r chunk :
  thrown (addToolCalls r chunk) = thrown r
  /\ previousContentLength (addToolCalls r chunk) = previousContentLength r
  /\ accumulatedContent (addToolCalls r chunk) = accumulatedContent r
  /\ accumulatedToolCalls (addToolCalls r chunk)
     = fold_left addToolCallDelta (deltasOf [chunk]) (accumulatedToolCalls r)
  /\ yielded (addToolCalls r chunk) = yielded r.
Proof.
  unfold addToolCalls, deltasOf. simpl. rewrite app_nil_r.
  destruct (deltaToolCalls chunk); simpl; auto.
Qed.

Lemma createStreamingResponse_complete content calls response :
  createStreamingResponse parse content true (Some calls) = Some response ->
  isIncremental response = false.
Proof.
  unfold createStreamingResponse.
  destruct (OpenAIGenerator.toolCallParts parse calls); [|discriminate].
  intros [= <-]. reflexivity.
Qed.

Lemma finishChunk_step r chunk :
  previousContentLength (finishChunk parse r chunk) = previousContentLength r
  /\ accumulatedContent (finishChunk parse r chunk) = accumulatedContent r
  /\ accumulatedToolCalls (finishChunk parse r chunk) = accumulatedToolCalls r
  /\ (accumulatedToolCalls r = [] -> finishChunk parse r chunk = r)
  /\ exists final,
       yielded (finishChunk parse r chunk) = yielded r ++ final
       /\ Forall (fun x => isIncremental x = false) final.
Proof.
  unfold finishChunk. destruct (truthyString (finish_reason chunk)).
  2:{ do 4 (split; [reflexivity|]). exists []. now rewrite app_nil_r. }
  destruct (accumulatedToolCalls r) as [|c0 cs] eqn:Ec.
  { do 2 (split; [reflexivity|]). split; [exact Ec|]. split; [reflexivity|].
    exists []. now rewrite app_nil_r. }
  destruct (createStreamingResponse parse (accumulatedContent r) true
              (Some (c0 :: cs))) as [response|] eqn:Er; simpl.
  - do 3 (split; [reflexivity|]).
    split; [discriminate|]. exists [response].
    split; [reflexivity|]. constructor; [|constructor].
    eapply createStreamingResponse_complete, Er.
  - do 3 (split; [reflexivity|]).
    split; [discriminate|]. exists []. now rewrite app_nil_r.
Qed.

(** What one chunk does to a run that has not thrown and whose
    [previousContentLength] is the length of the accumulated content. *)
Lemma onChunk_step r chunk :
  thrown r = false ->
  previousContentLength r = String.length (accumulatedContent r) ->
  previousContentLength (onChunk r chunk)
  = String.length (accumulatedContent (onChunk r chunk))
  /\ accumulatedContent (onChunk r chunk)
     = accumulatedContent r +:+ joined (contentsOf [chunk])
  /\ accumulatedToolCalls (onChunk r chunk)
     = fold_left addToolCallDelta (deltasOf [chunk]) (accumulatedToolCalls r)
  /\ filter (fun x => isIncremental x = true) (yielded (onChunk r chunk))
     = filter (fun x => isIncremental x = true) (yielded r)
       ++ map textResponse (contentsOf [chunk]).
Proof.
  intros Ht Hp. unfold OpenAIGenerator.onChunk. rewrite Ht.
  destruct (addContent_step r chunk Hp) as (_ & Hp1 & Ha1 & Hc1 & Hy1).
  destruct (addToolCalls_step (addContent r chunk) chunk)
    as (_ & Hp2 & Ha2 & Hc2 & Hy2).
  destruct (finishChunk_step (addToolCalls (addContent r chunk) chunk) chunk)
    as (Hp3 & Ha3 & Hc3 & _ & final & Hy3 & Hfin).
  rewrite Hp3, Ha3, Hc3, Hy3, Hp2, Ha2, Hc2, Hy2, Hc1, Hy1, <- Ha1.
  repeat split; try assumption.
  rewrite !filter_app, filter_text_responses.
  assert (Hnone : filter (fun x => isIncremental x = true) final = []).
  { clear Hy3. induction Hfin as [|x l Hx _ IH]; [reflexivity|].
    rewrite filter_cons_False by (rewrite Hx; discriminate). exact IH. }
  now rewrite Hnone, app_nil_r.
Qed.

Lemma contentsOf_app l1 l2 : contentsOf (l1 ++ l2) = contentsOf l1 ++ contentsOf l2.
Proof. unfold contentsOf. apply omap_app. Qed.

Lemma deltasOf_app l1 l2 : deltasOf (l1 ++ l2) = deltasOf l1 ++ deltasOf l2.
Proof. unfold deltasOf. apply flat_map_app. Qed.

(** A run that has not thrown. *)
Lemma generateContentStream_run chunks :
  thrown (generateContentStream chunks) = false ->
  previousContentLength (generateContentStream chunks)
  = String.length (accumulatedContent (generateContentStream chunks))
  /\ accumulatedContent (generateContentStream chunks)
     = joined (contentsOf chunks)
  /\ accumulatedToolCalls (generateContentStream chunks)
     = fold_left addToolCallDelta (deltasOf chunks) []
  /\ filter (fun x => isIncremental x = true)
       (yielded (generateContentStream chunks))
     = map textResponse (contentsOf chunks).
Proof.
  induction chunks as [|chunk chunks IH] using rev_ind; [now intros _|].
  rewrite generateContentStream_snoc. intros Ht.
  pose proof (onChunk_thrown _ _ Ht) as Ht0.
  destruct (IH Ht0) as (Hp & Ha & Hc & Hy).
  destruct (onChunk_step _ chunk Ht0 Hp) as (Hp' & Ha' & Hc' & Hy').
  rewrite contentsOf_app, deltasOf_app, joined_app, map_app, fold_left_app.
  rewrite <- Ha, <- Hc, <- Hy. auto.
Qed.

(** While streaming, each content of a chunk that is not empty is
    yielded as it came, in one response of its own, and the accumulated
    text is not: whatever the chunks, the responses yielded without a
    finish reason are the contents of the chunks, in order, up to where
    the generator throws, and all of them if it does not throw; the
    accumulated content is then those contents joined. *)
Theorem stream_yields_each_content (chunks : list Chunk) :
  filter (fun x => isIncremental x = true)
    (yielded (generateContentStream chunks))
  `prefix_of` map textResponse (contentsOf chunks)
  /\ (thrown (generateContentStream chunks) = false ->
      filter (fun x => isIncremental x = true)
        (yielded (generateContentStream chunks))
      = map textResponse (contentsOf chunks)
      /\ accumulatedContent (generateContentStream chunks)
         = joined (contentsOf chunks)).
Proof.
  split.
  - induction chunks as [|chunk chunks IH] using rev_ind; [reflexivity|].
    rewrite generateContentStream_snoc, contentsOf_app, map_app.
    destruct (thrown (generateContentStream chunks)) eqn:Ht.
    + unfold OpenAIGenerator.onChunk. rewrite Ht.
      now apply prefix_app_r.
    + destruct (generateContentStream_run chunks Ht) as (Hp & _ & _ & Hy).
      destruct (onChunk_step _ chunk Ht Hp) as (_ & _ & _ & Hy').
      rewrite Hy', Hy. reflexivity.
  - intros Ht. destruct (generateContentStream_run chunks Ht)
      as (_ & Ha & _ & Hy). auto.
Qed.

Lemma onChunk_text_only r chunk :
  thrown r = false ->
  previousContentLength r = String.length (accumulatedContent r) ->
  accumulatedToolCalls r = [] ->
  default [] (deltaToolCalls chunk) = [] ->
  thrown (onChunk r chunk) = false
  /\ previousContentLength (onChunk r chunk)
     = String.length (accumulatedContent (onChunk r chunk))
  /\ accumulatedToolCalls (onChunk r chunk) = []
  /\ yielded (onChunk r chunk)
     = yielded r ++ map textResponse (contentsOf [chunk]).
Proof.
  intros Ht Hp Hc Hd. unfold OpenAIGenerator.onChunk. rewrite Ht.
  destruct (addContent_step r chunk Hp) as (Ht1 & Hp1 & Ha1 & Hc1 & Hy1).
  destruct (addToolCalls_step (addContent r chunk) chunk)
    as (Ht2 & Hp2 & Ha2 & Hc2 & Hy2).
  assert (Hnil : accumulatedToolCalls (addToolCalls (addContent r chunk) chunk)
                 = []).
  { rewrite Hc2, Hc1, Hc. unfold deltasOf. simpl. now rewrite app_nil_r, Hd. }
  destruct (finishChunk_step (addToolCalls (addContent r chunk) chunk) chunk)
    as (_ & _ & _ & Hsame & _).
  rewrite (Hsame Hnil). rewrite Ht2, Ht1, Hp2, Ha2, Hy2, Hy1.
  repeat split; assumption.
Qed.

(** A stream without tool calls never reports how it finished: if no
    chunk carries a fragment of a tool call, the generator does not throw
    and yields exactly one response per non-empty content, each without
    a finish reason, whatever [finish_reason] the chunks carry. *)
Theorem text_stream_reports_no_finish (chunks : list Chunk) :
  Forall (fun c => default [] (deltaToolCalls c) = []) chunks ->
  thrown (generateContentStream chunks) = false
  /\ yielded (generateContentStream chunks)
     = map textResponse (contentsOf chunks)
  /\ Forall (fun x => finishReason x = None)
       (yielded (generateContentStream chunks)).
Proof.
  intros Hall.
  assert (H : thrown (generateContentStream chunks) = false
              /\ previousContentLength (generateContentStream chunks)
                 = String.length
                     (accumulatedContent (generateContentStream chunks))
              /\ accumulatedToolCalls (generateContentStream chunks) = []
              /\ yielded (generateContentStream chunks)
                 = map textResponse (contentsOf chunks)).
  { induction chunks as [|chunk chunks IH] using rev_ind;
      [repeat split|].
    apply Forall_app in Hall as [Hall Hc]. inversion_clear Hc as [|? ? Hd _].
    destruct (IH Hall) as (Ht & Hp & Hcalls & Hy).
    rewrite generateContentStream_snoc.
    destruct (onChunk_text_only _ chunk Ht Hp Hcalls Hd)
      as (Ht' & Hp' & Hc' & Hy').
    rewrite contentsOf_app, map_app, <- Hy. auto. }
  destruct H as (Ht & _ & _ & Hy). split; [exact Ht|]. split; [exact Hy|].
  rewrite Hy. apply Forall_map. now apply Forall_true.
Qed.

Lemma slot_assignAt_eq i call calls : slot i (assignAt i call calls) = Some call.
Proof.
  unfold slot, assignAt. destruct (Nat.ltb_spec i (length calls)).
  - now rewrite list_lookup_insert_eq.
  - rewrite lookup_app_r by lia. rewrite lookup_app_r; rewrite length_replicate;
      [|lia]. now rewrite Nat.sub_diag.
Qed.

Lemma slot_assignAt_ne i j call calls :
  i <> j -> slot j (assignAt i call calls) = slot j calls.
Proof.
  intros Hne. unfold slot, assignAt. destruct (Nat.ltb_spec i (length calls)).
  - now rewrite list_lookup_insert_ne.
  - destruct (Nat.lt_ge_cases j (length calls)).
    + now rewrite lookup_app_l.
    + rewrite (lookup_ge_None_2 calls j) by lia.
      rewrite lookup_app_r by lia.
      destruct (Nat.lt_ge_cases (j - length calls) (i - length calls)).
      * rewrite lookup_app_l by (rewrite length_replicate; lia).
        now rewrite lookup_replicate_2.
      * rewrite lookup_app_r by (rewrite length_replicate; lia).
        rewrite length_replicate.
        rewrite lookup_ge_None_2; [reflexivity|]. simpl. lia.
Qed.

(** One fragment changes the slot of its index only, adding its name and
    its arguments to the call there, or to a new call with its id. *)
Lemma addToolCallDelta_slot calls d j :
  slot j (addToolCallDelta calls d)
  = if decide (index d = j)
    then Some (extendCall
                 (default {| toolCallId := deltaId d; functionName := "";
                             functionArguments := "" |} (slot j calls))
                 [d])
    else slot j calls.
Proof.
  unfold addToolCallDelta.
  set (calls1 := match slot (index d) calls with Some _ => calls | None => _ end).
  assert (H1 : forall k, slot k calls1
                = if decide (index d = k)
                  then Some (default {| toolCallId := deltaId d;
                                        functionName := "";
                                        functionArguments := "" |}
                               (slot k calls))
                  else slot k calls).
  { intros k. subst calls1. destruct (decide (index d = k)) as [<-|Hk].
    - destruct (slot (index d) calls) eqn:E; [now rewrite E|].
      now rewrite slot_assignAt_eq.
    - destruct (slot (index d) calls); [reflexivity|].
      now rewrite slot_assignAt_ne. }
  set (calls2 := match slot (index d) calls1, deltaName d with
                 | Some _, Some _ => _ | _, _ => calls1 end).
  set (c0 := default {| toolCallId := deltaId d; functionName := "";
                        functionArguments := "" |} (slot (index d) calls)).
  assert (H2 : forall k, slot k calls2
                = if decide (index d = k)
                  then Some {| toolCallId := toolCallId c0;
                               functionName :=
                                 functionName c0
                                 +:+ joined (omap deltaName [d]);
                               functionArguments := functionArguments c0 |}
                  else slot k calls1).
  { intros k. subst calls2. pose proof (H1 (index d)) as Hd.
    rewrite decide_True in Hd by reflexivity. rewrite Hd. fold c0.
    simpl. destruct (deltaName d) as [n|]; simpl.
    - destruct (isEmpty n) eqn:En.
      + apply isEmpty_true in En. subst n. simpl.
        rewrite string_app_empty_r.
        destruct (decide (index d = k)) as [<-|]; [|reflexivity].
        rewrite Hd. fold c0. generalize c0. now intros [].
      + rewrite string_app_empty_r.
        destruct (decide (index d = k)) as [<-|Hk].
        * now rewrite slot_assignAt_eq.
        * now rewrite slot_assignAt_ne.
    - rewrite string_app_empty_r.
      destruct (decide (index d = k)) as [<-|]; [|reflexivity].
      rewrite Hd. fold c0. generalize c0. now intros []. }
  pose proof (H2 (index d)) as Hd2.
  rewrite decide_True in Hd2 by reflexivity. rewrite Hd2.
  unfold extendCall. simpl.
  destruct (deltaArguments d) as [a|]; simpl.
  - destruct (isEmpty a) eqn:Ea.
    + apply isEmpty_true in Ea. subst a. simpl.
      rewrite H2. destruct (decide (index d = j)) as [<-|Hj].
      * fold c0. now rewrite ?string_app_empty_r.
      * rewrite H1. now rewrite decide_False.
    + destruct (decide (index d = j)) as [<-|Hj].
      * rewrite slot_assignAt_eq. fold c0. now rewrite ?string_app_empty_r.
      * rewrite slot_assignAt_ne by exact Hj.
        rewrite H2, decide_False by exact Hj.
        rewrite H1. now rewrite decide_False.
  - rewrite H2.
    destruct (decide (index d = j)) as [<-|Hj].
    + fold c0. now rewrite ?string_app_empty_r.
    + rewrite H1. now rewrite decide_False.
Qed.

Lemma extendCall_cons call d fs :
  extendCall (extendCall call [d]) fs = extendCall call (d :: fs).
Proof.
  unfold extendCall. simpl.
  destruct (deltaName d), (deltaArguments d); simpl;
    rewrite ?string_app_empty_r, ?string_app_assoc; reflexivity.
Qed.

Lemma extendCall_nil call : extendCall call [] = call.
Proof.
  unfold extendCall. simpl. rewrite !string_app_empty_r. now destruct call.
Qed.

Lemma fold_addToolCallDelta_slot ds calls j :
  slot j (fold_left addToolCallDelta ds calls)
  = match slot j calls, fragmentsFor j ds with
    | Some call, fs => Some (extendCall call fs)
    | None, [] => None
    | None, d :: fs =>
        Some (extendCall {| toolCallId := deltaId d; functionName := "";
                            functionArguments := "" |} (d :: fs))
    end.
Proof.
  revert calls. induction ds as [|d ds IH]; intros calls.
  - simpl. destruct (slot j calls); [now rewrite extendCall_nil | reflexivity].
  - simpl. rewrite IH, addToolCallDelta_slot. unfold fragmentsFor.
    destruct (decide (index d = j)) as [Hd|Hd].
    + rewrite filter_cons_True by exact Hd.
      rewrite extendCall_cons. now destruct (slot j calls).
    + now rewrite filter_cons_False by exact Hd.
Qed.

(** The fragments of tool calls are put together by index: after any
    fragments, the array holds at an index nothing if no fragment had it,
    and otherwise the call whose id is that of the first fragment with
    the index and whose name and arguments are the names and the
    arguments of the fragments with the index, joined in order; this is
    the array the generator has when it has not thrown. *)
Theorem tool_call_fragments_joined (chunks : list Chunk)
  (ds : list ToolCallDelta) (i : nat) :
  slot i (fold_left addToolCallDelta ds [])
  = match fragmentsFor i ds with
    | [] => None
    | d :: fs =>
        Some {| toolCallId := deltaId d;
                functionName := joined (omap deltaName (d :: fs));
                functionArguments := joined (omap deltaArguments (d :: fs)) |}
    end
  /\ (thrown (generateContentStream chunks) = false ->
      accumulatedToolCalls (generateContentStream chunks)
      = fold_left addToolCallDelta (deltasOf chunks) []).
Proof.
  split.
  - rewrite fold_addToolCallDelta_slot. unfold slot. simpl.
    destruct (fragmentsFor i ds); reflexivity.
  - intros Ht. now destruct (generateContentStream_run chunks Ht)
      as (_ & _ & Hc & _).
Qed.

(** When the completion ends with tool calls, the text is sent again:
    at a chunk with a finish reason, if tool calls were accumulated and
    none is a hole, the generator yields, after the content of the chunk,
    a last response with the finish reason STOP whose parts are the whole
    text accumulated since the start (unless it is empty), before the
    function calls. *)
Theorem final_response_repeats_text (chunks : list Chunk) (chunk : Chunk)
  (callParts : list Part) :
  thrown (generateContentStream chunks) = false ->
  truthyString (finish_reason chunk) = true ->
  accumulatedToolCalls (generateContentStream (chunks ++ [chunk])) <> [] ->
  toolCallParts (accumulatedToolCalls (generateContentStream (chunks ++ [chunk])))
  = Some callParts ->
  yielded (generateContentStream (chunks ++ [chunk]))
  = yielded (generateContentStream chunks)
    ++ map textResponse (contentsOf [chunk])
    ++ [{| candidateParts :=
             (if isEmpty (joined (contentsOf (chunks ++ [chunk]))) then []
              else [textPart (joined (contentsOf (chunks ++ [chunk])))])
             ++ callParts;
           finishReason := Some Stream.STOP |}].
Proof.
  intros Ht Hfin. rewrite generateContentStream_snoc.
  destruct (generateContentStream_run chunks Ht) as (Hp & Ha & _ & _).
  unfold OpenAIGenerator.onChunk. rewrite Ht.
  destruct (addContent_step (generateContentStream chunks) chunk Hp)
    as (Ht1 & _ & Ha1 & _ & Hy1).
  destruct (addToolCalls_step
              (addContent (generateContentStream chunks) chunk) chunk)
    as (Ht2 & _ & Ha2 & _ & Hy2).
  set (r2 := addToolCalls (addContent (generateContentStream chunks) chunk)
               chunk) in *.
  assert (Hacc : accumulatedContent r2 = joined (contentsOf (chunks ++ [chunk])))
    by (now rewrite Ha2, Ha1, Ha, contentsOf_app, joined_app).
  destruct (finishChunk_step r2 chunk) as (_ & _ & Hc3 & _).
  rewrite Hc3. intros Hne Hparts.
  unfold finishChunk. rewrite Hfin.
  destruct (accumulatedToolCalls r2) as [|c0 cs] eqn:Ec; [contradiction|].
  unfold createStreamingResponse. rewrite Hparts, Hacc. simpl.
  now rewrite Hy2, Hy1, <- app_assoc.
Qed.

Lemma toolCallParts_hole calls :
  None ∈ calls -> toolCallParts calls = None.
Proof.
  induction calls as [|c calls IH]; intros Hin; [inversion Hin|].
  destruct c as [call|]; [|reflexivity].
  apply elem_of_cons in Hin as [Hin|Hin]; [discriminate|].
  simpl. now rewrite (IH Hin).
Qed.

(** Streaming may drop a tool call silently, the plain conversion keeps
    all or throws.  [createStreamingResponse] gives, for an array without
    holes, a function call for each tool call that has a name, arguments
    and arguments that parse, skipping the others, and throws as soon as
    the array has a hole.  [convertToGenerateContentResponse], if it does
    not throw, gives a function call for every tool call of the message,
    parsing empty arguments as [{}]. *)
Theorem tool_calls_dropped_or_kept (calls : list ToolCall) :
  toolCallParts (map Some calls)
  = Some (omap
            (fun call =>
               if negb (isEmpty (functionName call))
                  && negb (isEmpty (functionArguments call))
               then functionCallPart (functionName call)
                      <$> parse (functionArguments call)
               else None) calls)
  /\ (forall holed, None ∈ holed -> toolCallParts holed = None)
  /\ (forall ps,
      messageToolCallParts parse calls = Some ps ->
      Forall2
        (fun call p =>
           exists a,
             parse (if isEmpty (functionArguments call) then "{}"
                    else functionArguments call) = Some a
             /\ p = functionCallPart (functionName call) a)
        calls ps).
Proof.
  split; [|split].
  - induction calls as [|call calls IH]; [reflexivity|].
    cbn [map OpenAIGenerator.toolCallParts omap list_omap]. rewrite IH.
    destruct (negb (isEmpty (functionName call))
              && negb (isEmpty (functionArguments call))); [|reflexivity].
    destruct (parse (functionArguments call)); reflexivity.
  - apply toolCallParts_hole.
  - induction calls as [|call calls IH]; intros ps; simpl.
    + intros [= <-]. constructor.
    + destruct (parse _) as [a|] eqn:Ea; [|discriminate].
      destruct (messageToolCallParts parse calls) as [more|]; [|discriminate].
      intros [= <-]. constructor; [eauto | now apply IH].
Qed.

(** A completion that was converted always has a finish reason, and the
    transcript shows a notice for it unless the completion finished with
    [stop] or [tool_calls]: [mapFinishReason] never gives [undefined],
    and [handleFinishedEvent] has a message for its result exactly when
    the reason is neither of the two. *)
Theorem finish_reason_notice (reason : option string) :
  exists r,
    mapFinishReason reason = Some r
    /\ (Stream.finishReasonMessages r = None
        <-> reason = Some "stop" \/ reason = Some "tool_calls").
Proof.
  unfold mapFinishReason. destruct reason as [s|].
  - destruct (String.eqb_spec s "stop") as [->|H1].
    { eexists. split; [reflexivity|]. simpl. tauto. }
    destruct (String.eqb_spec s "length") as [->|H2].
    { eexists. split; [reflexivity|]. simpl.
      split; [discriminate | intros [H|H]; discriminate]. }
    destruct (String.eqb_spec s "tool_calls") as [->|H3].
    { eexists. split; [reflexivity|]. simpl. tauto. }
    destruct (String.eqb_spec s "content_filter") as [->|H4];
      eexists; (split; [reflexivity|]); simpl;
      (split; [discriminate | intros [H|H]; congruence]).
  - eexists. split; [reflexivity|]. simpl.
    split; [discriminate | intros [H|H]; discriminate].
Qed.

End GeneratorFacts.


Lemma text_stream_reports_no_finish_witness :
  Forall (fun c => default [] (OpenAIGenerator.deltaToolCalls c) = [])
    textChunks
  /\ OpenAIGenerator.yielded
       (OpenAIGenerator.generateContentStream parseEmptyObject textChunks)
     = [OpenAIGenerator.textResponse "Hel"; OpenAIGenerator.textResponse "lo"].
Proof.
  assert (H : Forall
                (fun c => default [] (OpenAIGenerator.deltaToolCalls c) = [])
                textChunks)
    by (repeat constructor).
  split; [exact H|].
  exact (proj1 (proj2 (text_stream_reports_no_finish parseEmptyObject
                         textChunks H))).
Defined.

Lemma final_response_repeats_text_witness :
  OpenAIGenerator.yielded
    (OpenAIGenerator.generateContentStream parseEmptyObject
       (toolChunks ++ [lastToolChunk]))
  = [ OpenAIGenerator.textResponse "Hi";
      {| OpenAIGenerator.candidateParts :=
           [ OpenAIGenerator.textPart "Hi";
             OpenAIGenerator.functionCallPart "read" (JObject []) ];
         OpenAIGenerator.finishReason := Some Stream.STOP |} ].
Proof.
  assert (H1 : OpenAIGenerator.thrown
                 (OpenAIGenerator.generateContentStream parseEmptyObject
                    toolChunks) = false)
    by (vm_compute; reflexivity).
  assert (H2 : OpenAIGenerator.truthyString
                 (OpenAIGenerator.finish_reason lastToolChunk) = true)
    by (vm_compute; reflexivity).
  assert (H3 : OpenAIGenerator.accumulatedToolCalls
                 (OpenAIGenerator.generateContentStream parseEmptyObject
                    (toolChunks ++ [lastToolChunk])) <> [])
    by (vm_compute; discriminate).
  assert (H4 : OpenAIGenerator.toolCallParts parseEmptyObject
                 (OpenAIGenerator.accumulatedToolCalls
                    (OpenAIGenerator.generateContentStream parseEmptyObject
                       (toolChunks ++ [lastToolChunk])))
               = Some [OpenAIGenerator.functionCallPart "read" (JObject [])])
    by (vm_compute; reflexivity).
  exact (final_response_repeats_text parseEmptyObject toolChunks lastToolChunk
           _ H1 H2 H3 H4).
Defined.

(** ** Every restorable call is accounted for *)

Section CheckpointAccounting.

Import Submission Checkpoint.

Variable basename : string -> string.
Variable join : string -> string -> string.

Local Abbreviation saveOne := (Checkpoint.saveOne basename join).
Local Abbreviation saveAll := (Checkpoint.saveAll basename join).
Local Abbreviation saveRestorableToolCalls :=
  (Checkpoint.saveRestorableToolCalls basename join).

Lemma writeCheckpoint_outcomes checkpointDir history e tc filePath commitHash
  reported :
  filter (fun n => leavesCall n = true) reported = [] ->
  outcomes
    (Checkpoint.writeCheckpoint basename join checkpointDir history e tc
       filePath commitHash reported) = 1.
Proof.
  intros Hr. unfold Checkpoint.writeCheckpoint, outcomes.
  destruct filePath as [[| | |path| |]|];
    try (cbn [files notices]; rewrite filter_app, Hr; reflexivity).
  destruct (getHistory e);
    [|cbn [files notices]; rewrite filter_app, Hr; reflexivity].
  destruct (writeFileOk e); cbn [files notices].
  - now rewrite Hr.
  - rewrite filter_app, Hr. reflexivity.
Qed.

Lemma saveOne_outcomes checkpointDir history gitService e tc :
  outcomes (saveOne checkpointDir history gitService e tc) = 1.
Proof.
  unfold Checkpoint.saveOne.
  destruct (truthy (lookupArg "file_path" (args (request tc))));
    [|reflexivity].
  destruct gitService; [|reflexivity]. cbn [negb].
  assert (Hr : filter (fun n => leavesCall n = true)
                 match createFileSnapshot e with
                 | Some _ => []
                 | None => [SnapshotFailed]
                 end = [])
    by (destruct (createFileSnapshot e); reflexivity).
  destruct (usable (createFileSnapshot e)).
  - now apply writeCheckpoint_outcomes.
  - destruct (getCurrentCommitHash e) as [h|].
    + destruct (usable (Some h)).
      * now apply writeCheckpoint_outcomes.
      * unfold outcomes. cbn [files notices]. rewrite filter_app, Hr.
        reflexivity.
    + unfold outcomes. cbn [files notices]. rewrite filter_app, Hr.
      reflexivity.
Qed.

Lemma saveOne_no_git checkpointDir history e tc :
  files (saveOne checkpointDir history false e tc) = [].
Proof.
  unfold Checkpoint.saveOne.
  now destruct (truthy (lookupArg "file_path" (args (request tc)))).
Qed.

Lemma saveAll_outcomes checkpointDir history gitService env i calls :
  outcomes (saveAll checkpointDir history gitService env i calls)
  = length calls.
Proof.
  revert i. induction calls as [|tc calls IH]; intros i; [reflexivity|].
  pose proof (saveOne_outcomes checkpointDir history gitService (env i) tc)
    as H1.
  specialize (IH (S i)). unfold outcomes in *.
  cbn [Checkpoint.saveAll files notices length].
  rewrite filter_app, !length_app. lia.
Qed.

Lemma saveAll_no_git checkpointDir history env i calls :
  files (saveAll checkpointDir history false env i calls) = [].
Proof.
  revert i. induction calls as [|tc calls IH]; intros i; [reflexivity|].
  cbn [Checkpoint.saveAll files]. now rewrite saveOne_no_git, IH.
Qed.

(** No restorable call is passed over in silence.  When checkpointing
    is enabled, the directory is known and could be made, every call of
    [replace] or [write_file] that awaits approval ends in exactly one of
    two ways: its checkpoint file is written, or one notice says why it
    has none (no file path, no Git service, no commit hash, or a failure
    while writing): files and such notices together are as many as the
    calls.  In every case there are no more files than such calls, and
    without the Git service no file is written. *)
Theorem checkpoint_calls_accounted (checkpointingEnabled : bool)
  (checkpointDir : option string) (mkdirOk gitService : bool)
  (history : JSON) (env : nat -> CallEnv) (toolCalls : list TrackedToolCall) :
  (checkpointingEnabled = true -> is_Some checkpointDir -> mkdirOk = true ->
   outcomes
     (saveRestorableToolCalls checkpointingEnabled checkpointDir mkdirOk
        gitService history env toolCalls)
   = length (filter (fun tc => isRestorable tc = true) toolCalls))
  /\ length
       (files
          (saveRestorableToolCalls checkpointingEnabled checkpointDir mkdirOk
             gitService history env toolCalls))
     <= length (filter (fun tc => isRestorable tc = true) toolCalls)
  /\ (gitService = false ->
      files
        (saveRestorableToolCalls checkpointingEnabled checkpointDir mkdirOk
           gitService history env toolCalls) = []).
Proof.
  unfold Checkpoint.saveRestorableToolCalls.
  destruct (filter (fun tc => isRestorable tc = true) toolCalls)
    as [|tc0 rest] eqn:Efil.
  { destruct checkpointingEnabled; cbn; repeat split; auto. }
  pose proof (saveAll_outcomes) as Hall.
  split; [|split].
  - intros -> [dir ->] ->. cbn [negb]. apply Hall.
  - destruct checkpointingEnabled; cbn [negb files length]; [|lia].
    destruct checkpointDir as [dir|]; cbn [files length]; [|lia].
    destruct mkdirOk; cbn [files length]; [|lia].
    specialize (Hall dir history gitService env 0 (tc0 :: rest)).
    unfold outcomes in Hall. cbn [length] in Hall. lia.
  - intros ->. destruct checkpointingEnabled; cbn [negb files]; [|reflexivity].
    destruct checkpointDir as [dir|]; cbn [files]; [|reflexivity].
    destruct mkdirOk; cbn [files]; [|reflexivity].
    apply saveAll_no_git.
Qed.

End CheckpointAccounting.

(** ** A turn of the conversation *)

Section TurnFacts.

Import Stream Turn.

Variable findLastSafeSplitPoint : string -> nat.
Variable eventTypeName : GeminiEventType.t -> string.
Variable parseAndFormatApiError : string -> string.
Variable getModel : string.
Variable getMaxSessionTurns : Z.
Variable trim : string -> string.
Variable handleSlashCommand :
  string -> Session -> option (option SlashCommandResult) * Session.
Variable shellModeActive : bool.
Variable handleShellCommand : string -> Session -> option bool * Session.
Variable isAtCommand : string -> bool.
Variable handleAtCommand :
  string -> N -> Session -> option (bool * option PartListUnion) * Session.
Variable getSessionId : string.
Variable getPromptCount : nat.

Local Abbreviation processEvent :=
  (Stream.processEvent findLastSafeSplitPoint eventTypeName
     parseAndFormatApiError getModel getMaxSessionTurns).
Local Abbreviation dispatchEvent :=
  (Stream.dispatchEvent findLastSafeSplitPoint parseAndFormatApiError
     getModel getMaxSessionTurns).
Local Abbreviation eventId := (Stream.eventId eventTypeName).
Local Abbreviation onInbound :=
  (Turn.onInbound findLastSafeSplitPoint eventTypeName
     parseAndFormatApiError getModel getMaxSessionTurns).
Local Abbreviation runInbound :=
  (Turn.runInbound findLastSafeSplitPoint eventTypeName
     parseAndFormatApiError getModel getMaxSessionTurns).
Local Abbreviation respond :=
  (Turn.respond findLastSafeSplitPoint eventTypeName parseAndFormatApiError
     getModel getMaxSessionTurns trim).
Local Abbreviation submitQuery :=
  (Turn.submitQuery findLastSafeSplitPoint eventTypeName
     parseAndFormatApiError getModel getMaxSessionTurns trim
     handleSlashCommand shellModeActive handleShellCommand isAtCommand
     handleAtCommand getSessionId getPromptCount).

(** *** The transcript only grows *)

Lemma ensureGeminiPending_grows ts h :
  transcript h `prefix_of` transcript (ensureGeminiPending ts h).
Proof.
  unfold ensureGeminiPending.
  destruct (isGeminiItem (pendingHistoryItemRef h)); [reflexivity|].
  destruct (pendingHistoryItemRef h); simpl;
    [now apply prefix_app_r | reflexivity].
Qed.

Lemma emitContent_grows newBuffer ts h :
  transcript h
  `prefix_of` transcript (snd (emitContent findLastSafeSplitPoint newBuffer ts h)).
Proof.
  unfold emitContent.
  pose proof (ensureGeminiPending_grows ts h) as H1.
  destruct (_ =? _).
  - destruct (shouldUpdate _ _); exact H1.
  - simpl. destruct (_ && _); simpl; [|exact H1].
    etrans; [exact H1|]. now apply prefix_app_r.
Qed.

Lemma handleContentEvent_grows ev buf ts h :
  transcript h
  `prefix_of`
  transcript (snd (handleContentEvent findLastSafeSplitPoint ev buf ts h)).
Proof.
  unfold handleContentEvent.
  destruct (turnCancelledRef h); [reflexivity|].
  destruct (isEmpty ev); [reflexivity|].
  destruct (String.eqb _ _); [reflexivity|]. apply emitContent_grows.
Qed.

Lemma handleUserCancelledEvent_grows ts h :
  transcript h `prefix_of` transcript (handleUserCancelledEvent ts h).
Proof.
  unfold handleUserCancelledEvent.
  destruct (turnCancelledRef h); [reflexivity|].
  destruct (pendingHistoryItemRef h) as [[ty t|tools]|]; simpl;
    rewrite <- ?app_assoc; now apply prefix_app_r.
Qed.

Lemma handleErrorEvent_grows ev ts h :
  transcript h
  `prefix_of` transcript (handleErrorEvent parseAndFormatApiError ev ts h).
Proof.
  unfold handleErrorEvent.
  destruct (pendingHistoryItemRef h); simpl;
    rewrite <- ?app_assoc; now apply prefix_app_r.
Qed.

Lemma handleFinishedEvent_grows r ts h :
  transcript h `prefix_of` transcript (handleFinishedEvent r ts h).
Proof.
  unfold handleFinishedEvent.
  destruct (finishReasonMessages r); simpl;
    [now apply prefix_app_r | reflexivity].
Qed.

Lemma dispatchEvent_grows d ts s :
  transcript (hook s) `prefix_of` transcript (hook (dispatchEvent d ts s)).
Proof.
  unfold Stream.dispatchEvent. destruct (event d); simpl;
    try reflexivity; try (now apply prefix_app_r).
  - apply handleContentEvent_grows.
  - now destruct (hasRequest _ _).
  - apply handleUserCancelledEvent_grows.
  - apply handleErrorEvent_grows.
  - apply handleFinishedEvent_grows.
Qed.

Lemma processEvent_grows ts s d :
  transcript (hook s) `prefix_of` transcript (hook (processEvent ts s d)).
Proof.
  unfold Stream.processEvent. destruct (decide _); [reflexivity|].
  apply (dispatchEvent_grows d ts
           {| geminiMessageBuffer := geminiMessageBuffer s;
              toolCallRequests := toolCallRequests s;
              processedEventIds := {[ eventId d ]} ∪ processedEventIds s;
              hook := hook s |}).
Qed.

Lemma cancelOngoingRequest_grows seen now1 now2 s :
  transcript (hookState s)
  `prefix_of` transcript (hookState (cancelOngoingRequest seen now1 now2 s)).
Proof.
  unfold cancelOngoingRequest. destruct seen; try reflexivity.
  destruct (turnCancelledRef (hookState s)); [reflexivity|].
  destruct (pendingHistoryItemRef (hookState s)) eqn:E; simpl; rewrite E;
    simpl; rewrite <- ?app_assoc; now apply prefix_app_r.
Qed.

Lemma onInbound_sync ts st i : inSync (onInbound ts st i).
Proof. destruct i; reflexivity. Qed.

Lemma runInbound_from ts inbound st (P : LoopState * Session -> Prop) :
  (forall st' i, inSync st' -> P st' -> P (onInbound ts st' i)) ->
  inSync st -> P st ->
  P (fold_left (onInbound ts) inbound st)
  /\ inSync (fold_left (onInbound ts) inbound st).
Proof.
  intros Hstep. revert st. induction inbound as [|i inbound IH];
    intros st Hs HP; simpl; [now split|].
  apply IH; [apply onInbound_sync | now apply Hstep].
Qed.

Lemma runInbound_sync ts inbound s : inSync (runInbound ts inbound s).
Proof.
  now apply (runInbound_from ts inbound (loopStart (hookState s), s)
               (fun _ => True)).
Qed.

Lemma runInbound_snoc ts inbound i s :
  runInbound ts (inbound ++ [i]) s = onInbound ts (runInbound ts inbound s) i.
Proof. unfold Turn.runInbound. now rewrite fold_left_app. Qed.

Lemma runInbound_app ts before after s :
  runInbound ts (before ++ after) s
  = fold_left (onInbound ts) after (runInbound ts before s).
Proof. unfold Turn.runInbound. now rewrite fold_left_app. Qed.

Lemma onInbound_grows ts st i :
  inSync st ->
  transcript (hook (fst st))
  `prefix_of` transcript (hook (fst (onInbound ts st i))).
Proof.
  intros Hs. destruct i as [d|seen now1 now2]; simpl.
  - apply processEvent_grows.
  - rewrite Hs. apply cancelOngoingRequest_grows.
Qed.

Lemma fold_onInbound_grows ts inbound st :
  inSync st ->
  transcript (hook (fst st))
  `prefix_of` transcript (hook (fst (fold_left (onInbound ts) inbound st))).
Proof.
  revert st. induction inbound as [|i inbound IH]; intros st Hs; simpl;
    [reflexivity|].
  etrans; [apply (onInbound_grows ts st i Hs)|].
  apply IH, onInbound_sync.
Qed.

Lemma flushPending_grows ts h :
  transcript h `prefix_of` transcript (flushPending trim ts h).
Proof.
  unfold flushPending. destruct (pendingHistoryItemRef h) as [[ty t|]|];
    try reflexivity.
  destruct (isEmpty (trim t)); simpl; [reflexivity | now apply prefix_app_r].
Qed.

Lemma reportLoop_grows clock h :
  transcript h `prefix_of` transcript (reportLoop clock h).
Proof.
  unfold reportLoop. destruct (loopDetectedRef h); simpl;
    [now apply prefix_app_r | reflexivity].
Qed.

Lemma onStreamEnd_grows ts clock requests h :
  transcript h `prefix_of` transcript (onStreamEnd trim ts clock requests h).
Proof.
  unfold onStreamEnd.
  etrans; [|apply reportLoop_grows]. etrans; [|apply flushPending_grows].
  now destruct requests.
Qed.

Lemma onStreamError_grows e ts s :
  transcript (hookState s)
  `prefix_of`
  transcript (hookState (onStreamError parseAndFormatApiError e ts s)).
Proof.
  destruct e; simpl; try reflexivity. now apply prefix_app_r.
Qed.

Lemma opening_transcript q isContinuation pid s :
  transcript (hookState (opening q isContinuation pid s))
  = transcript (hookState s).
Proof. now destruct isContinuation. Qed.

(** The transcript is only added to.  From the moment [submitQuery] has
    a query to send until it settles, whatever the stream delivers, with
    the Escape key pressed at any moments, and whether the stream ends or
    throws, the transcript that was there stays as it is, at the front
    of the transcript that results. *)
Theorem turn_transcript_append_only (queryToSend : PartListUnion)
  (isContinuation : bool) (prompt_id0 : string) (userMessageTimestamp : N)
  (inbound : list Inbound) (ending : Ending) (loopClock : N) (s : Session) :
  transcript (hookState s)
  `prefix_of`
  transcript
    (hookState
       (snd (respond queryToSend isContinuation prompt_id0
               userMessageTimestamp inbound ending loopClock s))).
Proof.
  unfold Turn.respond.
  pose proof (runInbound_sync userMessageTimestamp inbound
                (opening queryToSend isContinuation prompt_id0 s)) as Hs.
  pose proof (fold_onInbound_grows userMessageTimestamp inbound
                (loopStart
                   (hookState (opening queryToSend isContinuation
                                 prompt_id0 s)),
                 opening queryToSend isContinuation prompt_id0 s)
                eq_refl) as Hg.
  fold (runInbound userMessageTimestamp inbound
          (opening queryToSend isContinuation prompt_id0 s)) in Hg.
  cbn [fst loopStart hook] in Hg. rewrite opening_transcript in Hg.
  rewrite Hs in Hg.
  destruct ending as [|e]; cbn [snd withHook hookState].
  - etrans; [exact Hg|]. cbn [setIsResponding transcript].
    apply onStreamEnd_grows.
  - etrans; [exact Hg|]. cbn [setIsResponding transcript].
    apply onStreamError_grows.
Qed.

(** *** What the loop leaves alone *)

Lemma processEvent_scheduled ts s d :
  scheduled (hook (processEvent ts s d)) = scheduled (hook s).
Proof.
  destruct (decide (eventId d ∈ processedEventIds s)) as [H|H].
  - now rewrite processEvent_seen.
  - rewrite processEvent_fresh by exact H. now rewrite dispatchEvent_scheduled.
Qed.

Lemma cancelOngoingRequest_logs seen now1 now2 s :
  scheduled (hookState (cancelOngoingRequest seen now1 now2 s))
  = scheduled (hookState s)
  /\ loopDetectedRef (hookState (cancelOngoingRequest seen now1 now2 s))
     = loopDetectedRef (hookState s)
  /\ sent (cancelOngoingRequest seen now1 now2 s) = sent s
  /\ newPrompts (cancelOngoingRequest seen now1 now2 s) = newPrompts s
  /\ authErrors (cancelOngoingRequest seen now1 now2 s) = authErrors s.
Proof.
  unfold cancelOngoingRequest. destruct seen; try (now repeat split).
  destruct (turnCancelledRef (hookState s)); [now repeat split|].
  destruct (pendingHistoryItemRef (hookState s)) eqn:E; simpl; rewrite ?E;
    now repeat split.
Qed.

Lemma onInbound_logs ts st i :
  inSync st ->
  scheduled (hook (fst (onInbound ts st i))) = scheduled (hook (fst st))
  /\ sent (snd (onInbound ts st i)) = sent (snd st)
  /\ newPrompts (snd (onInbound ts st i)) = newPrompts (snd st)
  /\ authErrors (snd (onInbound ts st i)) = authErrors (snd st).
Proof.
  intros Hs. destruct i as [d|seen now1 now2]; cbn [Turn.onInbound fst snd].
  - split; [apply processEvent_scheduled | now repeat split].
  - cbn [hook]. rewrite Hs.
    destruct (cancelOngoingRequest_logs seen now1 now2 (snd st))
      as (H1 & _ & H3 & H4 & H5). now repeat split.
Qed.

Lemma runInbound_logs ts inbound s :
  scheduled (hook (fst (runInbound ts inbound s))) = scheduled (hookState s)
  /\ sent (snd (runInbound ts inbound s)) = sent s
  /\ newPrompts (snd (runInbound ts inbound s)) = newPrompts s
  /\ authErrors (snd (runInbound ts inbound s)) = authErrors s.
Proof.
  apply (runInbound_from ts inbound (loopStart (hookState s), s)
           (fun st =>
              scheduled (hook (fst st)) = scheduled (hookState s)
              /\ sent (snd st) = sent s
              /\ newPrompts (snd st) = newPrompts s
              /\ authErrors (snd st) = authErrors s));
    [|reflexivity|now repeat split].
  intros st i Hs (H1 & H2 & H3 & H4).
  destruct (onInbound_logs ts st i Hs) as (G1 & G2 & G3 & G4).
  repeat split; congruence.
Qed.

(** *** The loop flag *)

Lemma handleContentEvent_loop ev buf ts h :
  loopDetectedRef (snd (handleContentEvent findLastSafeSplitPoint ev buf ts h))
  = loopDetectedRef h.
Proof.
  unfold handleContentEvent, emitContent, ensureGeminiPending.
  repeat case_match; reflexivity.
Qed.

Lemma dispatchEvent_loop d ts s :
  loopDetectedRef (hook (dispatchEvent d ts s))
  = match event d with
    | LoopDetected => true
    | _ => loopDetectedRef (hook s)
    end.
Proof.
  unfold Stream.dispatchEvent. destruct (event d); simpl; try reflexivity.
  - apply handleContentEvent_loop.
  - now destruct (hasRequest _ _).
  - unfold handleUserCancelledEvent. repeat case_match; reflexivity.
  - unfold handleErrorEvent. repeat case_match; reflexivity.
  - unfold handleFinishedEvent. repeat case_match; reflexivity.
Qed.

Lemma processEvent_loop_kept ts s d :
  loopDetectedRef (hook s) = true ->
  loopDetectedRef (hook (processEvent ts s d)) = true.
Proof.
  intros H. destruct (decide (eventId d ∈ processedEventIds s)) as [Hi|Hi].
  - now rewrite processEvent_seen.
  - rewrite processEvent_fresh by exact Hi. rewrite dispatchEvent_loop.
    now destruct (event d).
Qed.

Lemma onInbound_loop_kept ts st i :
  inSync st ->
  loopDetectedRef (hook (fst st)) = true ->
  loopDetectedRef (hook (fst (onInbound ts st i))) = true.
Proof.
  intros Hs H. destruct i as [d|seen now1 now2]; cbn [Turn.onInbound fst].
  - now apply processEvent_loop_kept.
  - cbn [hook].
    destruct (cancelOngoingRequest_logs seen now1 now2 (snd st))
      as (_ & H2 & _). rewrite H2, <- Hs. exact H.
Qed.

Lemma fold_onInbound_loop_kept ts inbound st :
  inSync st ->
  loopDetectedRef (hook (fst st)) = true ->
  loopDetectedRef (hook (fst (fold_left (onInbound ts) inbound st))) = true.
Proof.
  intros Hs H.
  now apply (runInbound_from ts inbound st
               (fun st => loopDetectedRef (hook (fst st)) = true));
    [intros st' i; apply onInbound_loop_kept| |].
Qed.

Lemma flushPending_loop ts h :
  loopDetectedRef (flushPending trim ts h) = loopDetectedRef h.
Proof. unfold flushPending. repeat case_match; reflexivity. Qed.

Lemma onStreamError_hook e ts s :
  loopDetectedRef (hookState (onStreamError parseAndFormatApiError e ts s))
  = loopDetectedRef (hookState s)
  /\ scheduled (hookState (onStreamError parseAndFormatApiError e ts s))
     = scheduled (hookState s)
  /\ pendingHistoryItemRef
       (hookState (onStreamError parseAndFormatApiError e ts s))
     = pendingHistoryItemRef (hookState s).
Proof. destruct e; now repeat split. Qed.

(** A loop that was detected is reported by the turn that completes
    next, which need not be the turn in which it was detected.  A turn
    whose stream is exhausted lowers the flag, and if the flag was up
    when the stream ended, the last entry of the transcript is the
    notice of the loop.  A turn whose stream throws leaves the flag as
    the events left it.  The loop over the events never lowers the flag
    and a fresh [LoopDetected] event raises it: a flag that a failed turn
    left up is still up when the stream of the next turn ends, whatever
    that stream delivered. *)
Theorem loop_reported_by_next_completed_turn (queryToSend : PartListUnion)
  (isContinuation : bool) (prompt_id0 : string) (userMessageTimestamp : N)
  (inbound : list Inbound) (e : StreamError) (loopClock : N) (s : Session) :
  loopDetectedRef
    (hookState
       (snd (respond queryToSend isContinuation prompt_id0
               userMessageTimestamp inbound Ends loopClock s))) = false
  /\ (loopDetectedRef
        (hook (fst (runInbound userMessageTimestamp inbound
                      (opening queryToSend isContinuation prompt_id0 s))))
      = true ->
      last
        (transcript
           (hookState
              (snd (respond queryToSend isContinuation prompt_id0
                      userMessageTimestamp inbound Ends loopClock s))))
      = Some
          (TextItem info
             "A potential loop was detected. This can happen due to repetitive tool calls or other model behavior. The request has been halted.",
           loopClock))
  /\ loopDetectedRef
       (hookState
          (snd (respond queryToSend isContinuation prompt_id0
                  userMessageTimestamp inbound (Fails e) loopClock s)))
     = loopDetectedRef
         (hook (fst (runInbound userMessageTimestamp inbound
                       (opening queryToSend isContinuation prompt_id0 s))))
  /\ (loopDetectedRef (hookState s) = true ->
      loopDetectedRef
        (hook (fst (runInbound userMessageTimestamp inbound
                      (opening queryToSend isContinuation prompt_id0 s))))
      = true)
  /\ (forall before d after,
      inbound = before ++ Deliver d :: after ->
      event d = LoopDetected ->
      eventId d
      ∉ processedEventIds
          (fst (runInbound userMessageTimestamp before
                  (opening queryToSend isContinuation prompt_id0 s))) ->
      loopDetectedRef
        (hook (fst (runInbound userMessageTimestamp inbound
                      (opening queryToSend isContinuation prompt_id0 s))))
      = true).
Proof.
  pose proof (runInbound_sync userMessageTimestamp inbound
                (opening queryToSend isContinuation prompt_id0 s)) as Hs.
  unfold inSync in Hs. unfold Turn.respond.
  cbn [snd withHook hookState]. rewrite <- Hs.
  set (l := fst (runInbound userMessageTimestamp inbound
                   (opening queryToSend isContinuation prompt_id0 s))).
  split; [|split; [|split; [|split]]].
  - unfold onStreamEnd, reportLoop. cbn [setIsResponding loopDetectedRef].
    destruct (loopDetectedRef (flushPending trim _ _)) eqn:E;
      [reflexivity | exact E].
  - intros Hup. unfold onStreamEnd, reportLoop.
    rewrite flushPending_loop.
    replace (loopDetectedRef
               match toolCallRequests l with
               | [] => hook l
               | _ :: _ => scheduleToolCalls (toolCallRequests l) (hook l)
               end) with true by (now destruct (toolCallRequests l)).
    cbn [setIsResponding handleLoopDetectedEvent addItem transcript].
    apply last_snoc.
  - cbn [setIsResponding loopDetectedRef].
    destruct (onStreamError_hook e userMessageTimestamp
                (snd (runInbound userMessageTimestamp inbound
                        (opening queryToSend isContinuation prompt_id0 s))))
      as (H1 & _). rewrite H1. now rewrite <- Hs.
  - intros Hup. subst l. unfold Turn.runInbound.
    apply fold_onInbound_loop_kept; [reflexivity|].
    cbn [fst loopStart hook]. now destruct isContinuation.
  - intros before d after -> Hev Hfresh. subst l.
    rewrite runInbound_app. cbn [fold_left].
    apply fold_onInbound_loop_kept; [apply onInbound_sync|].
    cbn [Turn.onInbound fst]. rewrite processEvent_fresh by exact Hfresh.
    rewrite dispatchEvent_loop. now rewrite Hev.
Qed.

(** A turn whose stream throws schedules no tool call, not even those
    that the stream had requested before it threw; the pending item is
    not moved to the transcript; an error other than an
    [UnauthorizedError] or an [AbortError] adds one error entry, the
    other two add nothing; and the hook is no longer responding. *)
Theorem failed_turn_schedules_nothing (queryToSend : PartListUnion)
  (isContinuation : bool) (prompt_id0 : string) (userMessageTimestamp : N)
  (inbound : list Inbound) (e : StreamError) (loopClock : N) (s : Session) :
  scheduled
    (hookState
       (snd (respond queryToSend isContinuation prompt_id0
               userMessageTimestamp inbound (Fails e) loopClock s)))
  = scheduled (hookState s)
  /\ isResponding
       (hookState
          (snd (respond queryToSend isContinuation prompt_id0
                  userMessageTimestamp inbound (Fails e) loopClock s)))
     = false
  /\ pendingHistoryItemRef
       (hookState
          (snd (respond queryToSend isContinuation prompt_id0
                  userMessageTimestamp inbound (Fails e) loopClock s)))
     = pendingHistoryItemRef
         (hook (fst (runInbound userMessageTimestamp inbound
                       (opening queryToSend isContinuation prompt_id0 s))))
  /\ transcript
       (hookState
          (snd (respond queryToSend isContinuation prompt_id0
                  userMessageTimestamp inbound (Fails e) loopClock s)))
     = transcript
         (hook (fst (runInbound userMessageTimestamp inbound
                       (opening queryToSend isContinuation prompt_id0 s))))
       ++ match e with
          | OtherError message =>
              [(TextItem error
                  (parseAndFormatApiError
                     (if isEmpty message then "Unknown error" else message)),
                userMessageTimestamp)]
          | _ => []
          end
  /\ authErrors
       (snd (respond queryToSend isContinuation prompt_id0
               userMessageTimestamp inbound (Fails e) loopClock s))
     = match e with
       | Unauthorized => S (authErrors s)
       | _ => authErrors s
       end.
Proof.
  pose proof (runInbound_sync userMessageTimestamp inbound
                (opening queryToSend isContinuation prompt_id0 s)) as Hs.
  destruct (runInbound_logs userMessageTimestamp inbound
              (opening queryToSend isContinuation prompt_id0 s))
    as (H1 & _ & _ & H4).
  unfold inSync in Hs. unfold Turn.respond.
  cbn [snd withHook hookState]. rewrite Hs in *.
  assert (Ho : scheduled
                 (hookState (opening queryToSend isContinuation prompt_id0 s))
               = scheduled (hookState s)) by (now destruct isContinuation).
  assert (Ha : authErrors (opening queryToSend isContinuation prompt_id0 s)
               = authErrors s) by (now destruct isContinuation).
  destruct e; cbn; rewrite ?app_nil_r; repeat split; congruence.
Qed.

(** *** After the Escape key *)







(** *** The last fragment of a reply *)

Lemma processEvent_content_quiet ts l d v :
  event d = ContentEvent v ->
  findLastSafeSplitPoint (accumulate v (geminiMessageBuffer l))
  = String.length (accumulate v (geminiMessageBuffer l)) ->
  shouldUpdate (pendingText (hook l)) (accumulate v (geminiMessageBuffer l))
  = false ->
  pendingHistoryItemRef (hook l) = None
  \/ isGeminiItem (pendingHistoryItemRef (hook l)) = true ->
  toolCallRequests (processEvent ts l d) = toolCallRequests l
  /\ (hook (processEvent ts l d) = hook l
      \/ (pendingHistoryItemRef (hook l) = None
          /\ hook (processEvent ts l d)
             = setPendingHistoryItem (Some (TextItem gemini "")) (hook l))).
Proof.
  intros Hev Hsplit Hupd Hpend.
  destruct (decide (eventId d ∈ processedEventIds l)) as [H|H].
  { rewrite processEvent_seen by exact H. now split; [|left]. }
  rewrite processEvent_fresh by exact H. split.
  { rewrite dispatchEvent_requests. now rewrite Hev. }
  unfold Stream.dispatchEvent. rewrite Hev. cbn [hook geminiMessageBuffer].
  unfold handleContentEvent.
  destruct (turnCancelledRef (hook l)); [now left|].
  destruct (isEmpty v); [now left|].
  destruct (String.eqb _ _); [now left|].
  rewrite (emitContent_no_split findLastSafeSplitPoint _ _ _ Hsplit).
  cbn [snd]. unfold ensureGeminiPending.
  destruct Hpend as [Hp|Hp].
  - rewrite Hp. cbn [isGeminiItem].
    unfold pendingText in Hupd. rewrite Hp in Hupd.
    unfold pendingText. cbn [setPendingHistoryItem pendingHistoryItemRef].
    rewrite Hupd. now right.
  - rewrite Hp. rewrite Hupd. now left.
Qed.

Lemma flushPending_blank ts h :
  trim "" = "" -> trim (pendingText (flushPending trim ts h)) = "".
Proof.
  intros Ht. unfold flushPending, pendingText.
  destruct (pendingHistoryItemRef h) as [[ty t|tools]|] eqn:E;
    rewrite ?E; try exact Ht.
  destruct (isEmpty (trim t)) eqn:Eb.
  - rewrite E. now apply isEmpty_true.
  - exact Ht.
Qed.

(** The last fragment of a reply may never be shown.  Take a content
    event that comes last in the stream of a turn, while the pending item
    is a gemini item or there is none.  If the buffer it leads to needs
    no split and the pending item is not rewritten for it (the buffer is
    at most five code units longer than the pending text and ends in none
    of blank, full stop, exclamation mark and question mark), then the
    turn ends with the same transcript as if the event had not come, and
    when the stream is exhausted the text of the pending item that is
    left is blank: a reply like [Hi] is lost. *)
Theorem last_fragment_not_shown (queryToSend : PartListUnion)
  (isContinuation : bool) (prompt_id0 : string) (userMessageTimestamp : N)
  (before : list Inbound) (d : Delivery) (v : string) (ending : Ending)
  (loopClock : N) (s : Session) (l : LoopState) :
  trim "" = "" ->
  l = fst (runInbound userMessageTimestamp before
             (opening queryToSend isContinuation prompt_id0 s)) ->
  event d = ContentEvent v ->
  findLastSafeSplitPoint (accumulate v (geminiMessageBuffer l))
  = String.length (accumulate v (geminiMessageBuffer l)) ->
  shouldUpdate (pendingText (hook l)) (accumulate v (geminiMessageBuffer l))
  = false ->
  pendingHistoryItemRef (hook l) = None
  \/ isGeminiItem (pendingHistoryItemRef (hook l)) = true ->
  transcript
    (hookState
       (snd (respond queryToSend isContinuation prompt_id0
               userMessageTimestamp (before ++ [Deliver d]) ending
               loopClock s)))
  = transcript
      (hookState
         (snd (respond queryToSend isContinuation prompt_id0
                 userMessageTimestamp before ending loopClock s)))
  /\ trim
       (pendingText
          (hookState
             (snd (respond queryToSend isContinuation prompt_id0
                     userMessageTimestamp (before ++ [Deliver d]) Ends
                     loopClock s)))) = "".
Proof.
  intros Htrim Hl Hev Hsplit Hupd Hpend.
  destruct (processEvent_content_quiet userMessageTimestamp l d v Hev Hsplit
              Hupd Hpend) as (Hreq & Hhook).
  pose proof (runInbound_sync userMessageTimestamp before
                (opening queryToSend isContinuation prompt_id0 s)) as Hs.
  unfold inSync in Hs. rewrite <- Hl in Hs.
  unfold Turn.respond. rewrite runInbound_snoc.
  cbn [Turn.onInbound fst snd]. rewrite <- Hl.
  split.
  - destruct ending as [|e]; cbn [snd withHook hookState].
    + rewrite Hreq, <- Hs. cbn [setIsResponding transcript].
      destruct Hhook as [->|(Hp & ->)]; [reflexivity|].
      unfold onStreamEnd, flushPending, reportLoop.
      destruct (toolCallRequests l); cbn; rewrite Hp, Htrim; cbn;
        destruct (loopDetectedRef (hook l)); reflexivity.
    + assert (Ht : transcript (hook (processEvent userMessageTimestamp l d))
                   = transcript (hook l))
        by (destruct Hhook as [->|(_ & ->)]; reflexivity).
      destruct e; cbn; rewrite <- Hs, Ht; reflexivity.
  - cbn [snd withHook hookState]. unfold onStreamEnd, reportLoop.
    set (h := flushPending trim userMessageTimestamp _).
    assert (Hb : trim (pendingText h) = "")
      by (now apply flushPending_blank).
    unfold pendingText in *.
    destruct (loopDetectedRef h); exact Hb.
Qed.

(** *** Continuations, and queries that are not sent *)

Lemma fold_onInbound_flag ts inbound st :
  Forall (fun i => isDeliver i = true) inbound ->
  turnCancelledRef (hook (fst (fold_left (onInbound ts) inbound st)))
  = turnCancelledRef (hook (fst st)).
Proof.
  revert st. induction inbound as [|i inbound IH]; intros st Hall;
    [reflexivity|].
  apply Forall_cons in Hall as [Hi Hall]. cbn [fold_left].
  rewrite IH by exact Hall. destruct i; [|discriminate].
  cbn [Turn.onInbound fst]. apply processEvent_flag.
Qed.

Lemma onStreamEnd_flag ts clock requests h :
  turnCancelledRef (onStreamEnd trim ts clock requests h) = turnCancelledRef h.
Proof.
  unfold onStreamEnd, reportLoop, flushPending.
  destruct requests; repeat case_match; reflexivity.
Qed.

(** A continuation is never refused, and it lifts a cancellation.
    [submitQuery] called with parts (the responses of tools) as a
    continuation goes on to the model in every streaming state and in
    every state of the session, also after the user has cancelled the
    turn: the query is sent under the prompt id given, no new prompt is
    counted, and unless the Escape key is pressed again the turn is not
    cancelled when the call settles. *)
Theorem continuation_always_sent (ps : list Part) (prompt_id0 : string)
  (seen : StreamingState) (now idClock : N) (idRandom : string)
  (inbound : list Inbound) (ending : Ending) (loopClock : N) (s : Session) :
  fst (submitQuery (QueryParts ps) true (Some prompt_id0) seen now idClock
         idRandom inbound ending loopClock s)
  = match ending with Ends => StreamEnded | Fails _ => StreamFailed end
  /\ sent
       (snd (submitQuery (QueryParts ps) true (Some prompt_id0) seen now
               idClock idRandom inbound ending loopClock s))
     = sent s
       ++ [(QueryParts ps,
            if isEmpty prompt_id0
            then getSessionId +:+ "########" +:+ pretty getPromptCount
            else prompt_id0)]
  /\ newPrompts
       (snd (submitQuery (QueryParts ps) true (Some prompt_id0) seen now
               idClock idRandom inbound ending loopClock s))
     = newPrompts s
  /\ (Forall (fun i => isDeliver i = true) inbound ->
      turnCancelledRef
        (hookState
           (snd (submitQuery (QueryParts ps) true (Some prompt_id0) seen now
                   idClock idRandom inbound ending loopClock s)))
      = false).
Proof.
  unfold Turn.submitQuery. rewrite andb_false_r.
  unfold prepareQueryForGemini, promptIdOr.
  assert (Hs1 : sent (arming true s) = sent s
                /\ newPrompts (arming true s) = newPrompts s)
    by (now split).
  destruct Hs1 as [Hs1 Hn1].
  change (turnCancelledRef (hookState (arming true s))) with false.
  cbn match.
  set (pid := if isEmpty prompt_id0 then _ else prompt_id0).
  set (s1 := arming true s) in *.
  unfold Turn.respond.
  destruct (runInbound_logs now inbound (opening (QueryParts ps) true pid s1))
    as (_ & Hsent & Hnew & _).
  pose proof (runInbound_sync now inbound
                (opening (QueryParts ps) true pid s1)) as Hs.
  unfold inSync in Hs.
  split; [now destruct ending|]. split; [|split].
  - destruct ending as [|e]; cbn [snd withHook sent]; [exact Hsent|].
    destruct e; cbn; exact Hsent.
  - destruct ending as [|e]; cbn [snd withHook newPrompts]; [exact Hnew|].
    destruct e; cbn; exact Hnew.
  - intros Hall.
    pose proof (fold_onInbound_flag now inbound
                  (loopStart (hookState (opening (QueryParts ps) true pid s1)),
                   opening (QueryParts ps) true pid s1) Hall) as Hf.
    fold (runInbound now inbound (opening (QueryParts ps) true pid s1)) in Hf.
    cbn in Hf. rewrite Hs in Hf.
    destruct ending as [|e]; cbn [snd withHook hookState].
    + cbn [setIsResponding turnCancelledRef]. now rewrite onStreamEnd_flag.
    + destruct e; cbn; exact Hf.
Qed.

Lemma streamingState_idle isResponding toolCalls :
  streamingState isResponding toolCalls = Idle
  <-> isResponding = false
      /\ Forall (fun tc => isSubmitted tc = true) toolCalls.
Proof.
  unfold streamingState.
  assert (H : forall tcs,
            existsb awaitsApproval tcs = false
            /\ existsb keepsResponding tcs = false
            <-> Forall (fun tc => isSubmitted tc = true) tcs).
  { induction tcs as [|tc tcs IH]; cbn [existsb].
    - split; [constructor | now split].
    - rewrite Forall_cons, <- IH, !orb_false_iff.
      unfold awaitsApproval, keepsResponding, isSubmitted.
      destruct (toolStatus tc), (responseSubmittedToGemini tc); cbn;
        intuition congruence. }
  specialize (H toolCalls).
  destruct (existsb awaitsApproval toolCalls);
    [split; [discriminate | intros [_ Hf]; apply H in Hf as [Hf _];
                            discriminate]|].
  destruct isResponding;
    [cbn; split; [discriminate | intros [Hf _]; discriminate]|].
  cbn [orb]. destruct (existsb keepsResponding toolCalls).
  - split; [discriminate|]. intros [_ Hf]. apply H in Hf as [_ Hf].
    discriminate.
  - split; [|reflexivity]. intros _. split; [reflexivity|]. now apply H.
Qed.

(** A query is taken only when the hook is idle, and a blank query is
    never sent.  The streaming state is [Idle] exactly when the hook is
    not responding and every tool call has ended and has had its
    response handed to the model.  In any other state [submitQuery]
    drops a query that is not a continuation without a trace: the
    session is left as it is.  A query that is a string of nothing but
    blanks is not sent in any state: the transcript, the pending item
    and the log of queries sent stay as they are. *)
Theorem query_taken_only_when_idle (isResponding0 : bool)
  (toolCalls : list ToolCallState) (query : PartListUnion)
  (prompt_id0 : option string) (now idClock : N) (idRandom : string)
  (inbound : list Inbound) (ending : Ending) (loopClock : N) (s : Session) :
  (streamingState isResponding0 toolCalls = Idle
   <-> isResponding0 = false
       /\ Forall (fun tc => isSubmitted tc = true) toolCalls)
  /\ (streamingState isResponding0 toolCalls <> Idle ->
      submitQuery query false prompt_id0
        (streamingState isResponding0 toolCalls) now idClock idRandom
        inbound ending loopClock s
      = (Busy, s))
  /\ (forall q isContinuation seen,
      query = QueryString q -> isEmpty (trim q) = true ->
      fst (submitQuery query isContinuation prompt_id0 seen now idClock
             idRandom inbound ending loopClock s)
      <> StreamEnded
      /\ fst (submitQuery query isContinuation prompt_id0 seen now idClock
                idRandom inbound ending loopClock s)
         <> StreamFailed
      /\ transcript
           (hookState
              (snd (submitQuery query isContinuation prompt_id0 seen now
                      idClock idRandom inbound ending loopClock s)))
         = transcript (hookState s)
      /\ pendingHistoryItemRef
           (hookState
              (snd (submitQuery query isContinuation prompt_id0 seen now
                      idClock idRandom inbound ending loopClock s)))
         = pendingHistoryItemRef (hookState s)
      /\ sent
           (snd (submitQuery query isContinuation prompt_id0 seen now
                   idClock idRandom inbound ending loopClock s))
         = sent s).
Proof.
  split; [apply streamingState_idle|]. split.
  - intros Hbusy. unfold Turn.submitQuery.
    now destruct (streamingState isResponding0 toolCalls).
  - intros q isContinuation seen -> Hblank. unfold Turn.submitQuery.
    destruct (_ && _); [now repeat split|].
    unfold prepareQueryForGemini.
    change (turnCancelledRef (hookState (arming isContinuation s)))
      with false.
    cbn match. rewrite Hblank. now repeat split.
Qed.

End TurnFacts.

Lemma last_fragment_not_shown_witness :
  Stream.transcript
    (Turn.hookState
       (snd (Turn.respond Stream.noSplit Stream.kindName
               (fun message => message) "model" 100 Turn.asciiTrim
               (Turn.QueryString "hello") false "p1" 7%N
               ([] ++ [Turn.Deliver (Turn.contentDelivery "Hi")]) Turn.Ends
               9%N Turn.idleSession)))
  = Stream.transcript
      (Turn.hookState
         (snd (Turn.respond Stream.noSplit Stream.kindName
                 (fun message => message) "model" 100 Turn.asciiTrim
                 (Turn.QueryString "hello") false "p1" 7%N [] Turn.Ends 9%N
                 Turn.idleSession)))
  /\ Turn.asciiTrim
       (Stream.pendingText
          (Turn.hookState
             (snd (Turn.respond Stream.noSplit Stream.kindName
                     (fun message => message) "model" 100 Turn.asciiTrim
                     (Turn.QueryString "hello") false "p1" 7%N
                     ([] ++ [Turn.Deliver (Turn.contentDelivery "Hi")])
                     Turn.Ends 9%N Turn.idleSession)))) = "".
Proof.
  apply (last_fragment_not_shown Stream.noSplit Stream.kindName
           (fun message => message) "model" 100 Turn.asciiTrim
           (Turn.QueryString "hello") false "p1" 7%N []
           (Turn.contentDelivery "Hi") "Hi" Turn.Ends 9%N Turn.idleSession
           _ eq_refl eq_refl eq_refl);
    [vm_compute; reflexivity | vm_compute; reflexivity | left; reflexivity].
Defined.



(** ** Messages for the OpenAI API *)

Section MessageFacts.

Import OpenAIMessages.

Variable stringify : JSON -> string.
Variable clock : nat -> N.

Local Abbreviation convertPart := (OpenAIMessages.convertPart stringify clock).
Local Abbreviation convertContent :=
  (OpenAIMessages.convertContent stringify clock).
Local Abbreviation convertToOpenAIMessages :=
  (OpenAIMessages.convertToOpenAIMessages stringify clock).
Local Abbreviation toolMessage := (OpenAIMessages.toolMessage stringify clock).
Local Abbreviation toolMessages :=
  (OpenAIMessages.toolMessages stringify clock).

Lemma convertPart_step r acc part :
  convertPart r acc part
  = {| messages := messages acc ++ option_list (toolMessage r (ticks acc) part);
       contentParts := contentParts acc ++ option_list (contentPartOf part);
       ticks := ticks acc + length (option_list (toolMessage r (ticks acc) part))
    |}.
Proof.
  unfold OpenAIMessages.convertPart, OpenAIMessages.toolMessage, contentPartOf.
  destruct acc as [ms cs k]. cbn [messages contentParts ticks].
  destruct (truthyText part);
    [cbn; now rewrite app_nil_r, Nat.add_0_r|].
  destruct (inlineData part) as [[mimeType data]|];
    [cbn; now rewrite app_nil_r, Nat.add_0_r|].
  destruct (functionCall part) as [[fname fargs]|].
  - destruct r; try (cbn; now rewrite !app_nil_r, Nat.add_0_r).
    destruct (isEmpty fname); cbn;
      now rewrite ?app_nil_r, ?Nat.add_0_r, ?Nat.add_1_r.
  - destruct (functionResponse part) as [[rname response]|]; cbn;
      now rewrite ?app_nil_r, ?Nat.add_0_r, ?Nat.add_1_r.
Qed.

Lemma fold_convertPart r ps acc :
  fold_left (convertPart r) ps acc
  = {| messages := messages acc ++ toolMessages r (ticks acc) ps;
       contentParts := contentParts acc ++ omap contentPartOf ps;
       ticks := ticks acc + length (toolMessages r (ticks acc) ps) |}.
Proof.
  revert acc. induction ps as [|part ps IH]; intros acc.
  - destruct acc. cbn. now rewrite !app_nil_r, Nat.add_0_r.
  - cbn [fold_left]. rewrite IH, convertPart_step.
    cbn [messages contentParts ticks].
    assert (Ho : omap contentPartOf (part :: ps)
                 = option_list (contentPartOf part) ++ omap contentPartOf ps)
      by (cbn; destruct (contentPartOf part); reflexivity).
    assert (Hm : toolMessages r (ticks acc) (part :: ps)
                 = option_list (toolMessage r (ticks acc) part)
                   ++ toolMessages r
                        (ticks acc
                         + length (option_list (toolMessage r (ticks acc) part)))
                        ps).
    { cbn [OpenAIMessages.toolMessages].
      destruct (toolMessage r (ticks acc) part); cbn [option_list length app];
        now rewrite ?Nat.add_0_r, ?Nat.add_1_r. }
    rewrite Ho, Hm, !length_app, <- !app_assoc. f_equal. lia.
Qed.

Lemma toolMessages_ids r k ps :
  omap callIdOf (toolMessages r k ps)
  = map (fun i => "call_" +:+ pretty (clock i))
      (seq k (length (toolMessages r k ps)))
  /\ Forall (fun m => is_Some (callIdOf m)) (toolMessages r k ps).
Proof.
  revert k. induction ps as [|part ps IH]; intros k;
    [split; [reflexivity | constructor]|].
  cbn [OpenAIMessages.toolMessages].
  destruct (toolMessage r k part) as [m|] eqn:E; [|apply IH].
  destruct (IH (S k)) as [IH1 IH2].
  assert (Hm : callIdOf m = Some ("call_" +:+ pretty (clock k))).
  { unfold OpenAIMessages.toolMessage in E.
    destruct (truthyText part); [discriminate|].
    destruct (inlineData part); [discriminate|].
    destruct (functionCall part) as [[fname fargs]|].
    - destruct r; try discriminate.
      destruct (isEmpty fname); [discriminate|]. now injection E as <-.
    - destruct (functionResponse part) as [[rname response]|];
        [|discriminate]. now injection E as <-. }
  split.
  - cbn [omap list_omap length seq map]. rewrite Hm. cbn. f_equal.
    exact IH1.
  - constructor; [now rewrite Hm | exact IH2].
Qed.

Lemma closing_no_ids r collected :
  Forall (fun m => callIdOf m = None) (closing r collected).
Proof.
  unfold closing. destruct collected; [constructor|].
  destruct r; try (repeat constructor).
  destruct (isEmpty _); repeat constructor.
Qed.

Lemma convertContent_complex acc rl ps :
  isSimple ps = false ->
  convertContent acc {| role := rl; parts := Some ps |}
  = {| messages :=
         messages acc ++ toolMessages (roleOf rl) (ticks acc) ps
         ++ closing (roleOf rl) (omap contentPartOf ps);
       contentParts := [];
       ticks := ticks acc + length (toolMessages (roleOf rl) (ticks acc) ps) |}.
Proof.
  intros Hs. unfold OpenAIMessages.convertContent. cbn [parts role].
  assert (H : forall qs,
            {| messages :=
                 messages
                   (fold_left (convertPart (roleOf rl)) qs
                      {| messages := messages acc; contentParts := [];
                         ticks := ticks acc |})
                 ++ closing (roleOf rl)
                      (contentParts
                         (fold_left (convertPart (roleOf rl)) qs
                            {| messages := messages acc; contentParts := [];
                               ticks := ticks acc |}));
               contentParts := [];
               ticks :=
                 ticks
                   (fold_left (convertPart (roleOf rl)) qs
                      {| messages := messages acc; contentParts := [];
                         ticks := ticks acc |}) |}
            = {| messages :=
                   messages acc ++ toolMessages (roleOf rl) (ticks acc) qs
                   ++ closing (roleOf rl) (omap contentPartOf qs);
                 contentParts := [];
                 ticks :=
                   ticks acc
                   + length (toolMessages (roleOf rl) (ticks acc) qs) |}).
  { intros qs. rewrite fold_convertPart. cbn [messages contentParts ticks app].
    now rewrite <- app_assoc. }
  destruct ps as [|p [|q ps]]; try apply H.
  unfold isSimple in Hs. destruct (truthyText p); [discriminate|]. apply H.
Qed.

Lemma convertContent_messages acc rl ps :
  messages (convertContent acc {| role := rl; parts := Some ps |})
  = messages acc
    ++ (if isSimple ps
        then [Plain (roleOf rl) (join (omap truthyText ps))]
        else toolMessages (roleOf rl) (ticks acc) ps
             ++ closing (roleOf rl) (omap contentPartOf ps)).
Proof.
  destruct (isSimple ps) eqn:Hs.
  - destruct ps as [|p [|q ps]]; try discriminate.
    unfold isSimple in Hs. unfold OpenAIMessages.convertContent.
    cbn [parts role omap list_omap].
    destruct (truthyText p); [reflexivity | discriminate].
  - now rewrite convertContent_complex.
Qed.

(** The tool messages of a content go before its text, whatever the
    order of its parts.  A content with one part that has text becomes
    one message with that text.  Any other content with parts becomes
    first a message for each part that is a function call (of the model,
    with a name) or a function response, having no text and no inline
    data, in the order of the parts, and then at most one message for
    all the text and images of the content; a function call in a content
    that is not of the model, or without a name, is dropped. *)
Theorem tool_messages_precede_text (acc : Acc) (rl : string) (ps : list Part) :
  messages (convertContent acc {| role := rl; parts := Some ps |})
  = messages acc
    ++ (if isSimple ps
        then [Plain (roleOf rl) (join (omap truthyText ps))]
        else toolMessages (roleOf rl) (ticks acc) ps
             ++ closing (roleOf rl) (omap contentPartOf ps))
  /\ Forall (fun m => is_Some (callIdOf m))
       (toolMessages (roleOf rl) (ticks acc) ps)
  /\ Forall (fun m => callIdOf m = None)
       (closing (roleOf rl) (omap contentPartOf ps))
  /\ length (closing (roleOf rl) (omap contentPartOf ps)) <= 1
  /\ (roleOf rl <> assistant ->
      Forall (fun m => exists content id, m = ToolResult content id)
        (toolMessages (roleOf rl) (ticks acc) ps)).
Proof.
  split; [|split; [|split; [|split]]].
  - apply convertContent_messages.
  - apply toolMessages_ids.
  - apply closing_no_ids.
  - unfold closing. destruct (omap contentPartOf ps); [cbn; lia|].
    destruct (roleOf rl); cbn; try lia. destruct (isEmpty _); cbn; lia.
  - intros Hr. generalize (ticks acc).
    induction ps as [|part ps IH]; intros k; [constructor|].
    cbn [OpenAIMessages.toolMessages].
    destruct (toolMessage (roleOf rl) k part) as [m|] eqn:E; [|apply IH].
    constructor; [|apply IH].
    unfold OpenAIMessages.toolMessage in E.
    destruct (truthyText part); [discriminate|].
    destruct (inlineData part); [discriminate|].
    destruct (functionCall part) as [[fname fargs]|].
    + destruct (roleOf rl); try discriminate. contradiction.
    + destruct (functionResponse part) as [[rname response]|];
        [|discriminate]. injection E as <-. eauto.
Qed.

Lemma convertContent_ids acc c :
  exists n,
    omap callIdOf (messages (convertContent acc c))
    = omap callIdOf (messages acc)
      ++ map (fun i => "call_" +:+ pretty (clock i)) (seq (ticks acc) n)
    /\ ticks (convertContent acc c) = ticks acc + n.
Proof.
  destruct c as [rl [ps|]].
  - destruct (isSimple ps) eqn:Hs.
    + exists 0. destruct ps as [|p [|q ps]]; try discriminate.
      unfold isSimple in Hs. unfold OpenAIMessages.convertContent.
      cbn [parts role]. destruct (truthyText p); [|discriminate].
      cbn [messages ticks]. rewrite omap_app. cbn.
      now rewrite !app_nil_r, Nat.add_0_r.
    + rewrite convertContent_complex by exact Hs.
      exists (length (toolMessages (roleOf rl) (ticks acc) ps)).
      cbn [messages ticks]. split; [|reflexivity].
      rewrite !omap_app.
      destruct (toolMessages_ids (roleOf rl) (ticks acc) ps) as [-> _].
      assert (Hc : omap callIdOf (closing (roleOf rl) (omap contentPartOf ps))
                   = []).
      { pose proof (closing_no_ids (roleOf rl) (omap contentPartOf ps)) as Hf.
        induction Hf as [|m l Hm Hf IH]; [reflexivity|].
        cbn. now rewrite Hm. }
      now rewrite Hc, app_nil_r.
  - exists 0. cbn. now rewrite app_nil_r, Nat.add_0_r.
Qed.

Lemma fold_convertContent_ids contents acc :
  exists n,
    omap callIdOf (messages (fold_left convertContent contents acc))
    = omap callIdOf (messages acc)
      ++ map (fun i => "call_" +:+ pretty (clock i)) (seq (ticks acc) n).
Proof.
  revert acc. induction contents as [|c contents IH]; intros acc.
  - exists 0. cbn. now rewrite app_nil_r.
  - cbn [fold_left]. destruct (IH (convertContent acc c)) as (n2 & H2).
    destruct (convertContent_ids acc c) as (n1 & H1 & Ht).
    exists (n1 + n2). rewrite H2, H1, Ht, seq_app, map_app.
    now rewrite app_assoc.
Qed.

(** The identifiers of tool calls come from the clock alone.  In the
    messages made from any contents, the identifiers of the tool calls
    and the [tool_call_id]s of the tool results are, in the order of the
    messages, [call_] followed by the first, the second, ... reading of
    the clock: the [id] that a function call or a function response has
    is not used.  So when a function call of the model is followed by
    its response, the response refers to the call exactly when the clock
    showed the same time at both. *)
Theorem tool_ids_come_from_clock (contents : list Content) :
  omap callIdOf (convertToOpenAIMessages contents)
  = map (fun i => "call_" +:+ pretty (clock i))
      (seq 0 (length (omap callIdOf (convertToOpenAIMessages contents))))
  /\ (forall fname fargs rname response,
      isEmpty fname = false ->
      exists arguments content,
        convertToOpenAIMessages
          [{| role := "model";
              parts :=
                Some [{| text := None; inlineData := None;
                         functionCall := Some (fname, fargs);
                         functionResponse := None |}] |};
           {| role := "user";
              parts :=
                Some [{| text := None; inlineData := None;
                         functionCall := None;
                         functionResponse := Some (rname, response) |}] |}]
        = [ToolCalls ("call_" +:+ pretty (clock 0)) fname arguments;
           ToolResult content ("call_" +:+ pretty (clock 1))]
        /\ ("call_" +:+ pretty (clock 0) = "call_" +:+ pretty (clock 1)
            <-> clock 0 = clock 1)).
Proof.
  split.
  - unfold OpenAIMessages.convertToOpenAIMessages.
    destruct (fold_convertContent_ids contents
                {| messages := []; contentParts := []; ticks := 0 |})
      as (n & Hn).
    cbn [messages ticks omap list_omap app] in Hn. rewrite Hn.
    now rewrite length_map, length_seq.
  - intros fname fargs rname response Hname.
    eexists _, _. split.
    + unfold OpenAIMessages.convertToOpenAIMessages,
        OpenAIMessages.convertContent, OpenAIMessages.convertPart.
      cbn. rewrite Hname. cbn. reflexivity.
    + split; [|now intros ->]. intros H. cbn in H.
      injection H as H. now apply (inj pretty) in H.
Qed.

Lemma join_occurs t l : t ∈ l -> occursIn t (join l).
Proof.
  induction l as [|a l IH]; intros Hin; [inversion Hin|].
  apply elem_of_cons in Hin as [->|Hin].
  - destruct l as [|b l]; cbn [join].
    + exists "", "". cbn. now rewrite string_app_empty_r.
    + exists "", (" " +:+ join (b :: l)). reflexivity.
  - destruct (IH Hin) as (before & after & E).
    destruct l as [|b l]; [inversion Hin|].
    change (join (a :: b :: l)) with (a +:+ " " +:+ join (b :: l)).
    rewrite E.
    exists (a +:+ " " +:+ before), after.
    now rewrite !string_app_assoc.
Qed.

Lemma occursIn_nonempty t s : t <> "" -> occursIn t s -> isEmpty s = false.
Proof.
  intros Ht (before & after & ->). destruct before; [|reflexivity].
  destruct t; [contradiction | reflexivity].
Qed.

Lemma truthyText_nonempty p t : truthyText p = Some t -> t <> "".
Proof.
  unfold truthyText. destruct (text p) as [u|]; [|discriminate].
  destruct (isEmpty u) eqn:E; [discriminate|]. intros [= <-].
  now apply isEmpty_false.
Qed.

Lemma closing_keeps_text r ps p t :
  p ∈ ps -> truthyText p = Some t ->
  exists m,
    m ∈ closing r (omap contentPartOf ps)
    /\ exists carried, carried ∈ textsOfMessage m /\ occursIn t carried.
Proof.
  intros Hin Ht.
  assert (Hc : TextContent t ∈ omap contentPartOf ps).
  { apply list_elem_of_omap. exists p. split; [exact Hin|].
    unfold contentPartOf. now rewrite Ht. }
  assert (Ho : t ∈ omap textOnly (omap contentPartOf ps)).
  { apply list_elem_of_omap. now exists (TextContent t). }
  unfold closing.
  destruct (omap contentPartOf ps) as [|c0 cs] eqn:E; [inversion Hc|].
  destruct r.
  - eexists. split; [apply list_elem_of_singleton; reflexivity|].
    exists t. split; [exact Ho|]. exists "", "". cbn.
    now rewrite string_app_empty_r.
  - pose proof (join_occurs t _ Ho) as Hj.
    rewrite (occursIn_nonempty t _ (truthyText_nonempty p t Ht) Hj).
    eexists. split; [apply list_elem_of_singleton; reflexivity|].
    eexists. split; [apply list_elem_of_singleton; reflexivity | exact Hj].
  - eexists. split; [apply list_elem_of_singleton; reflexivity|].
    eexists. split; [apply list_elem_of_singleton; reflexivity|].
    apply join_occurs. apply list_elem_of_In, in_map_iff.
    exists (TextContent t). split; [reflexivity | now apply list_elem_of_In].
Qed.

Lemma convertContent_grows acc c :
  messages acc `prefix_of` messages (convertContent acc c).
Proof.
  destruct c as [rl [ps|]]; [|reflexivity].
  rewrite convertContent_messages. now apply prefix_app_r.
Qed.

Lemma fold_convertContent_grows contents acc :
  messages acc `prefix_of` messages (fold_left convertContent contents acc).
Proof.
  revert acc. induction contents as [|c contents IH]; intros acc;
    [reflexivity|].
  cbn [fold_left]. etrans; [apply convertContent_grows | apply IH].
Qed.

Lemma convertContent_keeps_text acc rl ps p t :
  p ∈ ps -> truthyText p = Some t ->
  exists m,
    m ∈ messages (convertContent acc {| role := rl; parts := Some ps |})
    /\ exists carried, carried ∈ textsOfMessage m /\ occursIn t carried.
Proof.
  intros Hin Ht. rewrite convertContent_messages.
  destruct (isSimple ps) eqn:Hs.
  - destruct ps as [|q [|q' ps]]; try discriminate.
    apply list_elem_of_singleton in Hin as ->.
    cbn [omap list_omap]. rewrite Ht. cbn [join].
    eexists. split; [apply elem_of_app; right;
                     apply list_elem_of_singleton; reflexivity|].
    exists t. split; [apply list_elem_of_singleton; reflexivity|].
    exists "", "". cbn. now rewrite string_app_empty_r.
  - destruct (closing_keeps_text (roleOf rl) ps p t Hin Ht)
      as (m & Hm & Hc).
    exists m. split; [|exact Hc]. rewrite !elem_of_app. now right; right.
Qed.

(** No text is lost in the conversion.  Every part of the contents
    whose text is not empty has its text in the messages: as the content
    of a message, as a text part of a user message, or within the
    content of an assistant or system message, where the texts of a
    content are joined with blanks. *)
Theorem conversion_keeps_text (contents : list Content) (c : Content)
  (ps : list Part) (p : Part) (t : string) :
  c ∈ contents -> parts c = Some ps -> p ∈ ps -> truthyText p = Some t ->
  exists m,
    m ∈ convertToOpenAIMessages contents
    /\ exists carried, carried ∈ textsOfMessage m /\ occursIn t carried.
Proof.
  intros Hc Hps Hin Ht. unfold OpenAIMessages.convertToOpenAIMessages.
  generalize {| messages := []; contentParts := []; ticks := 0 |}.
  induction contents as [|c0 contents IH]; intros acc; [inversion Hc|].
  cbn [fold_left]. apply elem_of_cons in Hc as [<-|Hc]; [|now apply IH].
  destruct c as [rl ops]. cbn [parts] in Hps. subst ops.
  destruct (convertContent_keeps_text acc rl ps p t Hin Ht) as (m & Hm & Hcar).
  exists m. split; [|exact Hcar].
  destruct (fold_convertContent_grows contents
              (convertContent acc {| role := rl; parts := Some ps |}))
    as [k ->].
  apply elem_of_app. now left.
Qed.

End MessageFacts.

Lemma conversion_keeps_text_witness :
  exists m,
    m ∈ OpenAIMessages.convertToOpenAIMessages (fun _ => "{}") N.of_nat
          [OpenAIMessages.announcedCall]
    /\ exists carried,
         carried ∈ OpenAIMessages.textsOfMessage m
         /\ OpenAIMessages.occursIn "I will read it." carried.
Proof.
  apply (conversion_keeps_text (fun _ => "{}") N.of_nat
           [OpenAIMessages.announcedCall] OpenAIMessages.announcedCall
           [OpenAIGenerator.textPart "I will read it.";
            OpenAIGenerator.functionCallPart "read_file" (JObject [])]
           (OpenAIGenerator.textPart "I will read it.") "I will read it.");
    [constructor | reflexivity | constructor | reflexivity].
Defined.


(** ** What a submission pass marks and refreshes *)

Section SubmissionAccounting.

Import Submission.

Lemma handleCompletedTools_memory isResponding ms batch r :
  isResponding || toolSubmissionInProgressRef r = false ->
  processedMemoryToolsRef (snd (handleCompletedTools_start isResponding ms batch r))
  = list_to_set
      (map (fun t => callId (request t))
         (filter (fun t => isNewMemorySave (processedMemoryToolsRef r) t = true)
            (filter (fun tc => completedAndReadyToSubmit tc = true) batch)))
    ∪ processedMemoryToolsRef r
  /\ memoryRefreshes (snd (handleCompletedTools_start isResponding ms batch r))
     = match
         filter (fun t => isNewMemorySave (processedMemoryToolsRef r) t = true)
           (filter (fun tc => completedAndReadyToSubmit tc = true) batch)
       with
       | [] => memoryRefreshes r
       | _ :: _ => S (memoryRefreshes r)
       end.
Proof.
  intros H. unfold handleCompletedTools_start. rewrite H.
  destruct (filter (fun t => isClientInitiated (request t) = false) _);
    [now split|].
  destruct (forallb isCancelled _); [now split|].
  destruct ms; now split.
Qed.

Lemma handleCompletedTools_submitted isResponding ms batch r :
  isResponding || toolSubmissionInProgressRef r = false ->
  concat (submitted (snd (handleCompletedTools_start isResponding ms batch r)))
  = concat (submitted r)
    ++ map (fun t => callId (request t))
         (filter (fun t => isClientInitiated (request t) = true)
            (filter (fun tc => completedAndReadyToSubmit tc = true) batch))
    ++ map (fun t => callId (request t))
         (filter (fun t => isClientInitiated (request t) = false)
            (filter (fun tc => completedAndReadyToSubmit tc = true) batch)).
Proof.
  intros H. unfold handleCompletedTools_start. rewrite H.
  set (ready := filter (fun tc => completedAndReadyToSubmit tc = true) batch).
  assert (Hc : concat
                 match filter (fun t => isClientInitiated (request t) = true)
                         ready with
                 | [] => submitted r
                 | _ :: _ =>
                     submitted r
                     ++ [map (fun t => callId (request t))
                           (filter
                              (fun t => isClientInitiated (request t) = true)
                              ready)]
                 end
               = concat (submitted r)
                 ++ map (fun t => callId (request t))
                      (filter (fun t => isClientInitiated (request t) = true)
                         ready)).
  { destruct (filter (fun t => isClientInitiated (request t) = true) ready);
      [cbn; now rewrite app_nil_r|].
    rewrite concat_app. cbn [concat]. now rewrite app_nil_r. }
  destruct (filter (fun t => isClientInitiated (request t) = false) ready)
    as [|g gs] eqn:Eg.
  { cbn [snd submitted map]. now rewrite app_nil_r. }
  destruct (forallb isCancelled (g :: gs)).
  { cbn [snd submitted]. rewrite concat_app, Hc. cbn [concat].
    now rewrite app_nil_r, <- app_assoc. }
  destruct ms; cbn [snd submitted]; rewrite concat_app, Hc; cbn [concat];
    now rewrite app_nil_r, <- app_assoc.
Qed.

(** Every tool call that is ready is marked as submitted, and no other.
    A pass of [handleCompletedTools] that goes past its guard hands to
    [markToolsAsSubmitted] the call ids of the calls of the batch that
    have ended with a response, those of the client first and then the
    others, whether the pass ends with a continuation, with the history
    entry for cancelled calls, or at the quota check; so every such call
    is marked, and a call that has not ended or has no response is not.
    A pass that is refused at the guard marks nothing.  The last part
    gives the ids in the order in which they are marked. *)
Theorem ready_calls_marked_submitted (isResponding ms : bool)
  (batch : list TrackedToolCall) (r : Refs) :
  (isResponding || toolSubmissionInProgressRef r = true ->
   submitted (snd (handleCompletedTools_start isResponding ms batch r))
   = submitted r)
  /\ (isResponding || toolSubmissionInProgressRef r = false ->
      concat
        (submitted (snd (handleCompletedTools_start isResponding ms batch r)))
      ≡ₚ concat (submitted r)
         ++ map (fun t => callId (request t))
              (filter (fun tc => completedAndReadyToSubmit tc = true) batch))
  /\ (isResponding || toolSubmissionInProgressRef r = false ->
      forall tc,
        tc ∈ batch -> completedAndReadyToSubmit tc = true ->
        callId (request tc)
        ∈ concat
            (submitted
               (snd (handleCompletedTools_start isResponding ms batch r))))
  /\ (isResponding || toolSubmissionInProgressRef r = false ->
      concat
        (submitted (snd (handleCompletedTools_start isResponding ms batch r)))
      = concat (submitted r)
        ++ map (fun t => callId (request t))
             (filter (fun t => isClientInitiated (request t) = true)
                (filter (fun tc => completedAndReadyToSubmit tc = true)
                   batch))
        ++ map (fun t => callId (request t))
             (filter (fun t => isClientInitiated (request t) = false)
                (filter (fun tc => completedAndReadyToSubmit tc = true)
                   batch))).
Proof.
  assert (Hperm : forall l : list TrackedToolCall,
            map (fun t => callId (request t))
              (filter (fun t => isClientInitiated (request t) = true) l)
            ++ map (fun t => callId (request t))
                 (filter (fun t => isClientInitiated (request t) = false) l)
            ≡ₚ map (fun t => callId (request t)) l).
  { induction l as [|t l IH]; [reflexivity|].
    destruct (isClientInitiated (request t)) eqn:E.
    - rewrite filter_cons_True, filter_cons_False by (rewrite E; auto).
      cbn [map app]. now rewrite IH.
    - rewrite filter_cons_False, filter_cons_True by (rewrite E; auto).
      cbn [map]. rewrite <- Permutation_middle. now rewrite IH. }
  split; [|split; [|split]]; [| | |apply handleCompletedTools_submitted].
  - intros H. now rewrite handleCompletedTools_refused.
  - intros H. rewrite handleCompletedTools_submitted by exact H.
    now rewrite Hperm.
  - intros H tc Hin Hready.
    rewrite handleCompletedTools_submitted by exact H.
    apply elem_of_app. right.
    rewrite (Hperm (filter (fun tc => completedAndReadyToSubmit tc = true)
                      batch)).
    apply list_elem_of_In, in_map_iff. exists tc. split; [reflexivity|].
    apply list_elem_of_In, list_elem_of_filter. now split.
Qed.

Lemma new_saves_grow_set (seen : gset string) (saves : list TrackedToolCall) :
  Forall (fun t => isNewMemorySave seen t = true) saves ->
  saves <> [] ->
  size seen
  < size (list_to_set (map (fun t => callId (request t)) saves) ∪ seen).
Proof.
  intros Hall Hne. apply subset_size.
  destruct saves as [|t ts]; [contradiction|].
  apply Forall_cons in Hall as [Ht _].
  unfold isNewMemorySave in Ht. apply andb_true_iff in Ht as [_ Ht].
  apply negb_true_iff, bool_decide_eq_false in Ht.
  cbn [map list_to_set]. set_solver.
Qed.

Lemma handleCompletedTools_refresh_bound isResponding ms batch r :
  memoryRefreshes r <= size (processedMemoryToolsRef r) ->
  memoryRefreshes (snd (handleCompletedTools_start isResponding ms batch r))
  <= size
       (processedMemoryToolsRef
          (snd (handleCompletedTools_start isResponding ms batch r))).
Proof.
  intros Hle.
  destruct (isResponding || toolSubmissionInProgressRef r) eqn:H.
  { now rewrite handleCompletedTools_refused. }
  destruct (handleCompletedTools_memory isResponding ms batch r H) as [-> ->].
  set (saves := filter _ (filter _ batch)).
  destruct saves as [|t ts] eqn:E.
  - cbn [map list_to_set]. rewrite (left_id_L ∅ (∪)). exact Hle.
  - pose proof (new_saves_grow_set (processedMemoryToolsRef r) (t :: ts))
      as Hgrow.
    assert (Hall : Forall
                     (fun t => isNewMemorySave (processedMemoryToolsRef r) t
                               = true) (t :: ts)).
    { rewrite <- E. subst saves. apply Forall_forall. intros x Hx.
      now apply list_elem_of_filter in Hx as [Hx _]. }
    specialize (Hgrow Hall ltac:(discriminate)). lia.
Qed.

Lemma step_refresh_bound m a :
  memoryRefreshes (refs m) <= size (processedMemoryToolsRef (refs m)) ->
  memoryRefreshes (refs (step m a))
  <= size (processedMemoryToolsRef (refs (step m a))).
Proof.
  intros Hle. destruct a as [isResponding ms batch|resolved|].
  - unfold step, onComplete. destruct batch as [|tc batch]; [exact Hle|].
    cbn [fst snd]. destruct (toolSubmissionInProgressRef (refs m)) eqn:El;
      cbn [fst snd toolSubmissionInProgressRef]; rewrite ?El; cbn [fst snd refs];
      [exact Hle|].
    set (out := handleCompletedTools_start isResponding ms (tc :: batch) _).
    assert (Ho : memoryRefreshes (snd out)
                 <= size (processedMemoryToolsRef (snd out)))
      by (apply handleCompletedTools_refresh_bound; exact Hle).
    unfold record. destruct (fst out); exact Ho.
  - unfold step. destruct (inFlight m); [exact Hle|].
    cbn [refs]. unfold handleCompletedTools_finally.
    destruct (pendingToolSubmissionRef (refs m)); exact Hle.
  - unfold step. destruct (timers (refs m)) as [|pendingTools rest];
      [exact Hle|].
    set (out := handleCompletedTools_start false false pendingTools _).
    assert (Ho : memoryRefreshes (snd out)
                 <= size (processedMemoryToolsRef (snd out)))
      by (apply handleCompletedTools_refresh_bound; exact Hle).
    unfold record. destruct (fst out); exact Ho.
Qed.

(** A saved memory is refreshed once.  However the batches arrive, the
    number of calls of [performMemoryRefresh] is at most the number of
    call ids recorded as processed: each refresh is for at least one
    successful [save_memory] call that had not been seen.  And when a
    pass has gone past the guard for a batch, a later pass for the same
    batch, in any state that still knows the ids recorded, causes no
    refresh. *)
Theorem memory_refreshed_once_per_save (actions : list Action)
  (isResponding ms isResponding' ms' : bool) (batch : list TrackedToolCall)
  (r r' : Refs) :
  memoryRefreshes (refs (run actions initialMachine))
  <= size (processedMemoryToolsRef (refs (run actions initialMachine)))
  /\ (isResponding || toolSubmissionInProgressRef r = false ->
      processedMemoryToolsRef
        (snd (handleCompletedTools_start isResponding ms batch r))
      ⊆ processedMemoryToolsRef r' ->
      memoryRefreshes
        (snd (handleCompletedTools_start isResponding' ms' batch r'))
      = memoryRefreshes r').
Proof.
  split.
  - unfold run.
    assert (H0 : memoryRefreshes (refs initialMachine)
                 <= size (processedMemoryToolsRef (refs initialMachine)))
      by (cbn; lia).
    revert H0. generalize initialMachine.
    induction actions as [|a actions IH]; intros m Hm; [exact Hm|].
    cbn [fold_left]. apply IH. now apply step_refresh_bound.
  - intros H Hsub.
    destruct (isResponding' || toolSubmissionInProgressRef r') eqn:H'.
    { now rewrite handleCompletedTools_refused. }
    destruct (handleCompletedTools_memory isResponding' ms' batch r' H')
      as [_ ->].
    destruct (handleCompletedTools_memory isResponding ms batch r H)
      as [Hset _].
    rewrite Hset in Hsub.
    destruct (filter
                (fun t => isNewMemorySave (processedMemoryToolsRef r') t = true)
                (filter (fun tc => completedAndReadyToSubmit tc = true) batch))
      as [|t ts] eqn:E; [reflexivity|]. exfalso.
    assert (Hin : t ∈ filter
                    (fun t => isNewMemorySave (processedMemoryToolsRef r') t
                              = true)
                    (filter (fun tc => completedAndReadyToSubmit tc = true)
                       batch)) by (rewrite E; constructor).
    apply list_elem_of_filter in Hin as [Hnew Hready].
    unfold isNewMemorySave in Hnew.
    apply andb_true_iff in Hnew as [Hsave Hnot].
    apply negb_true_iff, bool_decide_eq_false in Hnot. apply Hnot, Hsub.
    destruct (decide (callId (request t) ∈ processedMemoryToolsRef r))
      as [Hold|Hold]; [now apply elem_of_union_r|].
    apply elem_of_union_l, elem_of_list_to_set.
    apply list_elem_of_In, in_map_iff. exists t. split; [reflexivity|].
    apply list_elem_of_In, list_elem_of_filter. split; [|exact Hready].
    unfold isNewMemorySave. rewrite Hsave. cbn.
    now apply negb_true_iff, bool_decide_eq_false.
Qed.

End SubmissionAccounting.


(** ** A plain query, and the two ways of cancelling *)

Section QueryFacts.

Import Stream Turn.

Variable findLastSafeSplitPoint : string -> nat.
Variable eventTypeName : GeminiEventType.t -> string.
Variable parseAndFormatApiError : string -> string.
Variable getModel : string.
Variable getMaxSessionTurns : Z.
Variable trim : string -> string.
Variable handleSlashCommand :
  string -> Session -> option (option SlashCommandResult) * Session.
Variable shellModeActive : bool.
Variable handleShellCommand : string -> Session -> option bool * Session.
Variable isAtCommand : string -> bool.
Variable handleAtCommand :
  string -> N -> Session -> option (bool * option PartListUnion) * Session.
Variable getSessionId : string.
Variable getPromptCount : nat.

Local Abbreviation runInbound :=
  (Turn.runInbound findLastSafeSplitPoint eventTypeName
     parseAndFormatApiError getModel getMaxSessionTurns).
Local Abbreviation respond :=
  (Turn.respond findLastSafeSplitPoint eventTypeName parseAndFormatApiError
     getModel getMaxSessionTurns trim).
Local Abbreviation submitQuery :=
  (Turn.submitQuery findLastSafeSplitPoint eventTypeName
     parseAndFormatApiError getModel getMaxSessionTurns trim
     handleSlashCommand shellModeActive handleShellCommand isAtCommand
     handleAtCommand getSessionId getPromptCount).
Local Abbreviation promptIdOr := (Turn.promptIdOr getSessionId getPromptCount).

Lemma respond_grows q isContinuation pid ts inbound ending clock s :
  transcript (hookState s)
  `prefix_of`
  transcript
    (hookState (snd (respond q isContinuation pid ts inbound ending clock s))).
Proof.
  unfold Turn.respond.
  pose proof (runInbound_sync findLastSafeSplitPoint eventTypeName
                parseAndFormatApiError getModel getMaxSessionTurns ts inbound
                (opening q isContinuation pid s)) as Hs.
  pose proof (fold_onInbound_grows findLastSafeSplitPoint eventTypeName
                parseAndFormatApiError getModel getMaxSessionTurns ts inbound
                (loopStart (hookState (opening q isContinuation pid s)),
                 opening q isContinuation pid s) eq_refl) as Hg.
  fold (runInbound ts inbound (opening q isContinuation pid s)) in Hg.
  cbn [fst loopStart hook] in Hg. rewrite opening_transcript in Hg.
  rewrite Hs in Hg.
  destruct ending as [|e]; cbn [snd withHook hookState];
    (etrans; [exact Hg|]); cbn [setIsResponding transcript].
  - apply onStreamEnd_grows.
  - apply onStreamError_grows.
Qed.

Lemma respond_logs q isContinuation pid ts inbound ending clock s :
  sent (snd (respond q isContinuation pid ts inbound ending clock s))
  = sent s ++ [(q, pid)]
  /\ newPrompts (snd (respond q isContinuation pid ts inbound ending clock s))
     = if isContinuation then newPrompts s else S (newPrompts s).
Proof.
  unfold Turn.respond.
  destruct (runInbound_logs findLastSafeSplitPoint eventTypeName
              parseAndFormatApiError getModel getMaxSessionTurns ts inbound
              (opening q isContinuation pid s)) as (_ & Hsent & Hnew & _).
  assert (Ho : sent (opening q isContinuation pid s) = sent s ++ [(q, pid)]
               /\ newPrompts (opening q isContinuation pid s)
                  = if isContinuation then newPrompts s else S (newPrompts s))
    by (destruct isContinuation; now split).
  destruct Ho as [Ho1 Ho2]. rewrite <- Ho1, <- Ho2.
  destruct ending as [|e]; cbn [snd withHook sent newPrompts];
    [now split|].
  destruct e; cbn; now split.
Qed.

(** What is sent is the query without the blanks around it.  When the
    hook is idle and the query is a string that is not blank, not
    handled as a slash command, not taken by the shell mode and not an
    @-command, [submitQuery] adds the entry of the user with the trimmed
    text, stamped with the time of the submission, to the transcript that
    the slash command handler left, before anything of the turn; it sends
    the trimmed text under the prompt id, and counts a new prompt. *)
Theorem plain_query_sent_trimmed (q : string) (prompt_id0 : option string)
  (now idClock : N) (idRandom : string) (inbound : list Inbound)
  (ending : Ending) (loopClock : N) (s s1 : Session) :
  isEmpty (trim q) = false ->
  handleSlashCommand (trim q) (arming false s) = (Some None, s1) ->
  shellModeActive = false ->
  isAtCommand (trim q) = false ->
  sent
    (snd (submitQuery (QueryString q) false prompt_id0 Idle now idClock
            idRandom inbound ending loopClock s))
  = sent s1 ++ [(QueryString (trim q), promptIdOr prompt_id0)]
  /\ transcript (hookState s1) ++ [(TextItem user (trim q), now)]
     `prefix_of`
     transcript
       (hookState
          (snd (submitQuery (QueryString q) false prompt_id0 Idle now idClock
                  idRandom inbound ending loopClock s)))
  /\ newPrompts
       (snd (submitQuery (QueryString q) false prompt_id0 Idle now idClock
               idRandom inbound ending loopClock s))
     = S (newPrompts s1).
Proof.
  intros Hq Hslash Hshell Hat. unfold Turn.submitQuery. cbn [andb].
  unfold prepareQueryForGemini.
  change (turnCancelledRef (hookState (arming false s))) with false.
  cbn match. rewrite Hq, Hslash, Hshell. unfold prepareText. rewrite Hat.
  destruct (respond_logs (QueryString (trim q)) false (promptIdOr prompt_id0)
              now inbound ending loopClock (userItem (trim q) now s1))
    as [Hsent Hnew].
  split; [exact Hsent|]. split; [|exact Hnew].
  apply (respond_grows (QueryString (trim q)) false (promptIdOr prompt_id0)
           now inbound ending loopClock (userItem (trim q) now s1)).
Qed.

Lemma cancelTool_settles tools :
  Forall
    (fun tool =>
       match displayStatus tool with
       | Pending | Confirming | Executing => False
       | _ => True
       end) (map cancelTool tools)
  /\ map displayCallId (map cancelTool tools) = map displayCallId tools
  /\ map displayName (map cancelTool tools) = map displayName tools.
Proof.
  induction tools as [|tool tools (IH1 & IH2 & IH3)];
    [repeat split; constructor|].
  cbn [map]. rewrite IH2, IH3. split; [|split].
  - constructor; [|exact IH1]. unfold cancelTool.
    destruct (displayStatus tool) eqn:E; cbn; rewrite ?E; exact I.
  - f_equal. unfold cancelTool. now destruct (displayStatus tool).
  - f_equal. unfold cancelTool. now destruct (displayStatus tool).
Qed.

(** The two ways of cancelling treat running tools differently.  With a
    group of tools pending in a turn that is not cancelled, the event
    [UserCancelled] of the stream moves the group to the transcript with
    every tool that was pending, confirming or executing marked as
    cancelled (the others, the ids and the names as they were) and adds
    [User cancelled the request.]; the Escape key moves the group to the
    transcript as it is, with tools still shown as running, and adds
    [Request cancelled.].  Both leave no pending item. *)
Theorem cancel_paths_differ_on_tools (ts now1 now2 : N) (s : Session)
  (tools : list IndividualToolCallDisplay) :
  turnCancelledRef (hookState s) = false ->
  pendingHistoryItemRef (hookState s) = Some (ToolGroupItem tools) ->
  transcript (handleUserCancelledEvent ts (hookState s))
  = transcript (hookState s)
    ++ [(ToolGroupItem (map cancelTool tools), ts);
        (TextItem info "User cancelled the request.", ts)]
  /\ Forall
       (fun tool =>
          match displayStatus tool with
          | Pending | Confirming | Executing => False
          | _ => True
          end) (map cancelTool tools)
  /\ map displayCallId (map cancelTool tools) = map displayCallId tools
  /\ map displayName (map cancelTool tools) = map displayName tools
  /\ transcript (hookState (cancelOngoingRequest Responding now1 now2 s))
     = transcript (hookState s)
       ++ [(ToolGroupItem tools, now1);
           (TextItem info "Request cancelled.", now2)]
  /\ pendingHistoryItemRef (handleUserCancelledEvent ts (hookState s)) = None
  /\ pendingHistoryItemRef
       (hookState (cancelOngoingRequest Responding now1 now2 s)) = None.
Proof.
  intros Hc Hp. destruct (cancelTool_settles tools) as (H1 & H2 & H3).
  unfold handleUserCancelledEvent, cancelOngoingRequest.
  rewrite Hc, Hp. cbn. rewrite Hp. cbn. rewrite <- !app_assoc.
  now repeat split.
Qed.

End QueryFacts.

Lemma plain_query_sent_trimmed_witness :
  Turn.sent
    (snd (Turn.submitQuery Stream.noSplit Stream.kindName
            (fun message => message) "model" 100 Turn.asciiTrim
            (fun _ s => (Some None, s)) false (fun _ s => (Some false, s))
            (fun _ => false) (fun _ _ s => (None, s)) "session" 1
            (Turn.QueryString "  hello ") false None Turn.Idle 7%N 7%N "8a"
            [] Turn.Ends 9%N Turn.idleSession))
  = [(Turn.QueryString "hello", "session########1")].
Proof.
  destruct (plain_query_sent_trimmed Stream.noSplit Stream.kindName
              (fun message => message) "model" 100 Turn.asciiTrim
              (fun _ s => (Some None, s)) false (fun _ s => (Some false, s))
              (fun _ => false) (fun _ _ s => (None, s)) "session" 1
              "  hello " None 7%N 7%N "8a" [] Turn.Ends 9%N Turn.idleSession
              (Turn.arming false Turn.idleSession)
              eq_refl eq_refl eq_refl eq_refl) as (Hsent & _).
  exact Hsent.
Defined.

Lemma cancel_paths_differ_on_tools_witness :
  Forall
    (fun tool =>
       match Stream.displayStatus tool with
       | Stream.Pending | Stream.Confirming | Stream.Executing => False
       | _ => True
       end)
    (map Stream.cancelTool Turn.runningTools).
Proof.
  destruct (cancel_paths_differ_on_tools 7%N 8%N 8%N Turn.toolsPending
              Turn.runningTools eq_refl eq_refl) as (_ & H & _).
  exact H.
Defined.


(** ** Reassembly of a message in the event loop *)

Section ReassemblyFacts.

Import Stream.

Variable findLastSafeSplitPoint : string -> nat.
Variable eventTypeName : GeminiEventType.t -> string.
Variable parseAndFormatApiError : string -> string.
Variable getModel : string.
Variable getMaxSessionTurns : Z.

Local Abbreviation handleContentEvent :=
  (Stream.handleContentEvent findLastSafeSplitPoint).
Local Abbreviation emitContent := (Stream.emitContent findLastSafeSplitPoint).
Local Abbreviation eventId := (Stream.eventId eventTypeName).
Local Abbreviation processEvent :=
  (Stream.processEvent findLastSafeSplitPoint eventTypeName
     parseAndFormatApiError getModel getMaxSessionTurns).
Local Abbreviation runLoop :=
  (Stream.runLoop findLastSafeSplitPoint eventTypeName
     parseAndFormatApiError getModel getMaxSessionTurns).
Local Abbreviation stepFaithful :=
  (Stream.stepFaithful findLastSafeSplitPoint eventTypeName).
Local Abbreviation faithful :=
  (Stream.faithful findLastSafeSplitPoint eventTypeName
     parseAndFormatApiError getModel getMaxSessionTurns).

Lemma string_app_cancel_l s a b : s +:+ a = s +:+ b -> a = b.
Proof.
  induction s as [|c s IH]; cbn; intros H; [exact H|].
  injection H as H. auto.
Qed.

(** Entries added to the transcript add their text to the text of the
    message. *)
Lemma committedSince_grows base h h' extra :
  base <= length (transcript h) ->
  transcript h' = transcript h ++ extra ->
  committedSince base h' = committedSince base h +:+ committedText extra.
Proof.
  intros Hb E. unfold committedSince.
  now rewrite E, drop_app_le, committedText_app.
Qed.

(** The emission step keeps the text of the message when the split
    keeps it. *)
Lemma emitContent_reconstructedSince base newBuffer ts h :
  base <= length (transcript h) ->
  splitKeepsText findLastSafeSplitPoint newBuffer ts h = true ->
  reconstructedSince base (fst (emitContent newBuffer ts h))
    (snd (emitContent newBuffer ts h))
  = committedSince base h +:+ newBuffer.
Proof.
  intros Hb Hk.
  pose proof (emitContent_reconstructed findLastSafeSplitPoint newBuffer ts h
                Hk) as Hall.
  destruct (emitContent_grows findLastSafeSplitPoint newBuffer ts h)
    as [extra E].
  unfold reconstructed in Hall.
  rewrite E, committedText_app, string_app_assoc in Hall.
  apply string_app_cancel_l in Hall.
  unfold reconstructedSince.
  rewrite (committedSince_grows base h _ extra Hb E).
  now rewrite string_app_assoc, Hall.
Qed.

(** One fragment that the content handler reads as it is meant. *)
Lemma handleContentEvent_reconstructedSince base ts buffer h f :
  turnCancelledRef h = false ->
  base <= length (transcript h) ->
  readAsMeant base f buffer h = true ->
  isEmpty (payload f)
  || String.eqb (accumulate (payload f) buffer) buffer
  || splitKeepsText findLastSafeSplitPoint (accumulate (payload f) buffer)
       ts h = true ->
  reconstructedSince base
    (fst (handleContentEvent (payload f) buffer ts h))
    (snd (handleContentEvent (payload f) buffer ts h))
  = intend (reconstructedSince base buffer h) f.
Proof.
  intros Hc Hb Hm Hk.
  destruct (isEmpty (payload f)) eqn:Hev.
  - (* an empty fragment *)
    apply isEmpty_true in Hev. rewrite Hev.
    rewrite (handleContentEvent_empty findLastSafeSplitPoint) by exact Hc.
    simpl. destruct f as [d|w]; simpl in *; subst.
    + unfold reconstructedSince.
      now rewrite string_app_assoc, string_app_empty_r.
    + apply andb_true_iff in Hm as [Hcm Hpre].
      apply isEmpty_true in Hcm. apply startsWith_of_empty in Hpre.
      subst. unfold reconstructedSince. now rewrite Hcm.
  - apply isEmpty_false in Hev. simpl in Hk.
    destruct (String.eqb_spec (accumulate (payload f) buffer) buffer)
      as [E|E].
    + (* the buffer does not change *)
      rewrite (handleContentEvent_same findLastSafeSplitPoint)
        by assumption.
      simpl.
      destruct (startsWith (payload f) buffer) eqn:Hpre.
      * rewrite accumulate_whole in E by exact Hpre.
        destruct f as [d|w]; simpl in *; subst.
        -- rewrite Hpre in Hm. simpl in Hm.
           rewrite orb_false_r in Hm. apply orb_true_iff in Hm as [Hm|Hm];
             apply isEmpty_true in Hm; congruence.
        -- apply andb_true_iff in Hm as [Hcm _].
           apply isEmpty_true in Hcm. unfold reconstructedSince.
           now rewrite Hcm.
      * rewrite accumulate_increment in E by exact Hpre.
        now apply increment_changes in E.
    + (* the buffer changes and is emitted *)
      simpl in Hk.
      rewrite (handleContentEvent_emit findLastSafeSplitPoint)
        by assumption.
      rewrite (emitContent_reconstructedSince base _ _ _ Hb Hk).
      unfold accumulate, reconstructedSince.
      destruct f as [d|w]; simpl in *.
      * destruct (startsWith d buffer) eqn:Hpre; simpl in Hm.
        -- rewrite orb_false_r in Hm. apply orb_true_iff in Hm as [Hm|Hm];
             apply isEmpty_true in Hm; [contradiction|].
           subst. now rewrite string_app_empty_r.
        -- now rewrite string_app_assoc.
      * apply andb_true_iff in Hm as [Hcm Hpre]. rewrite Hpre.
        apply isEmpty_true in Hcm. now rewrite Hcm.
Qed.

(** For a content event only its value counts. *)
Lemma processEvent_fragment ts s d f :
  event d = ContentEvent (payload f) ->
  processEvent ts s d = processEvent ts s (fragmentDelivery f).
Proof.
  intros Hev. unfold Stream.processEvent, Stream.eventId,
    Stream.dispatchEvent.
  rewrite Hev. reflexivity.
Qed.

(** One fragment through the loop. *)
Lemma processEvent_reconstructedSince base ts s f :
  turnCancelledRef (hook s) = false ->
  base <= length (transcript (hook s)) ->
  stepFaithful base ts s f = true ->
  reconstructedSince base
    (geminiMessageBuffer (processEvent ts s (fragmentDelivery f)))
    (hook (processEvent ts s (fragmentDelivery f)))
  = intend (reconstructedSince base (geminiMessageBuffer s) (hook s)) f.
Proof.
  intros Hc Hb Hs. unfold Stream.stepFaithful in Hs.
  destruct (decide (eventId (fragmentDelivery f) ∈ processedEventIds s))
    as [Hseen|Hfresh].
  - rewrite bool_decide_eq_true_2 in Hs by exact Hseen.
    rewrite (processEvent_seen findLastSafeSplitPoint eventTypeName
               parseAndFormatApiError getModel getMaxSessionTurns)
      by exact Hseen.
    symmetry. now apply String.eqb_eq.
  - rewrite bool_decide_eq_false_2 in Hs by exact Hfresh.
    apply andb_true_iff in Hs as [Hm Hk].
    rewrite (processEvent_fresh findLastSafeSplitPoint eventTypeName
               parseAndFormatApiError getModel getMaxSessionTurns)
      by exact Hfresh.
    unfold Stream.dispatchEvent.
    cbn [fragmentDelivery event geminiMessageBuffer hook].
    now apply handleContentEvent_reconstructedSince.
Qed.

(** C1, amended.  Take the content fragments of one assistant message,
    delivered to the event loop of a turn that is not cancelled, the
    transcript having [base] entries when the message begins.  If every
    fragment keeps its meaning in the loop (a fragment with the
    identifier of an event seen before in the turn, which the loop
    skips, adds nothing to the text; any other increment is empty, or
    meets an empty buffer, or does not start with the buffer; any other
    whole-message fragment starts with the buffer and comes while no text
    of this message has been moved to the transcript; and no split drops
    the text before the split point), then the text of the message moved
    to the transcript followed by the open buffer is the text the
    fragments stand for: no fragment is applied twice and none is
    lost. *)
Theorem reassembly_reconstructs (base : nat) (ts : N) (fs : list Fragment)
  (stream : list Delivery) (s : LoopState) :
  turnCancelledRef (hook s) = false ->
  base <= length (transcript (hook s)) ->
  Forall2 (fun f d => event d = ContentEvent (payload f)) fs stream ->
  faithful base ts fs s = true ->
  reconstructedSince base (geminiMessageBuffer (runLoop ts stream s))
    (hook (runLoop ts stream s))
  = fold_left intend fs
      (reconstructedSince base (geminiMessageBuffer s) (hook s)).
Proof.
  intros Hc Hb Hfs. revert s Hc Hb.
  induction Hfs as [|f d fs stream Hd Hfs IH]; intros s Hc Hb Hf;
    [reflexivity|].
  cbn [Stream.faithful] in Hf. apply andb_true_iff in Hf as [Hs Hf].
  cbn [Stream.runLoop fold_left].
  rewrite (processEvent_fragment ts s d f Hd).
  change (fold_left (processEvent ts) stream
            (processEvent ts s (fragmentDelivery f)))
    with (runLoop ts stream (processEvent ts s (fragmentDelivery f))).
  rewrite IH; [| | |exact Hf].
  - cbn [fold_left]. now rewrite processEvent_reconstructedSince.
  - now rewrite (processEvent_flag findLastSafeSplitPoint eventTypeName
                   parseAndFormatApiError getModel getMaxSessionTurns).
  - etrans; [exact Hb|]. apply prefix_length.
    apply (processEvent_grows findLastSafeSplitPoint eventTypeName
             parseAndFormatApiError getModel getMaxSessionTurns).
Qed.

End ReassemblyFacts.

(** The scenario of the specification: "Hel", "Hello", "Hello wo", the
    first an increment and the others the whole text so far, in a turn
    whose transcript holds an earlier reply; and two increments with a
    split after the blank line between them. *)
Lemma reassembly_reconstructs_witness :
  Stream.reconstructedSince 2
    (Stream.geminiMessageBuffer
       (Stream.runLoop Stream.noSplit Stream.kindName (fun e => e) "model"
          100 7%N
          [Stream.contentAt 1 "Hel"; Stream.contentAt 2 "Hello";
           Stream.contentAt 3 "Hello wo"]
          (Stream.loopStart afterFirstReply)))
    (Stream.hook
       (Stream.runLoop Stream.noSplit Stream.kindName (fun e => e) "model"
          100 7%N
          [Stream.contentAt 1 "Hel"; Stream.contentAt 2 "Hello";
           Stream.contentAt 3 "Hello wo"]
          (Stream.loopStart afterFirstReply)))
  = "Hello wo"
  /\ Stream.reconstructedSince 0
       (Stream.geminiMessageBuffer
          (Stream.runLoop Stream.splitAfterBlankLine Stream.kindName
             (fun e => e) "model" 100 7%N
             [Stream.contentAt 1 "Hello.";
              Stream.contentAt 2 (String "010" (String "010" "World"))]
             (Stream.loopStart Stream.idleHook)))
       (Stream.hook
          (Stream.runLoop Stream.splitAfterBlankLine Stream.kindName
             (fun e => e) "model" 100 7%N
             [Stream.contentAt 1 "Hello.";
              Stream.contentAt 2 (String "010" (String "010" "World"))]
             (Stream.loopStart Stream.idleHook)))
     = "Hello." +:+ String "010" (String "010" "World").
Proof.
  split.
  - assert (Hf : Stream.faithful Stream.noSplit Stream.kindName (fun e => e)
                   "model" 100 2 7%N
                   [Stream.Delta "Hel"; Stream.Snapshot "Hello";
                    Stream.Snapshot "Hello wo"]
                   (Stream.loopStart afterFirstReply) = true)
      by (vm_compute; reflexivity).
    exact (reassembly_reconstructs Stream.noSplit Stream.kindName
             (fun e => e) "model" 100 2 7%N
             [Stream.Delta "Hel"; Stream.Snapshot "Hello";
              Stream.Snapshot "Hello wo"]
             [Stream.contentAt 1 "Hel"; Stream.contentAt 2 "Hello";
              Stream.contentAt 3 "Hello wo"]
             (Stream.loopStart afterFirstReply) eq_refl (le_n 2)
             ltac:(repeat constructor) Hf).
  - assert (Hf : Stream.faithful Stream.splitAfterBlankLine Stream.kindName
                   (fun e => e) "model" 100 0 7%N
                   [Stream.Delta "Hello.";
                    Stream.Delta (String "010" (String "010" "World"))]
                   (Stream.loopStart Stream.idleHook) = true)
      by (vm_compute; reflexivity).
    exact (reassembly_reconstructs Stream.splitAfterBlankLine
             Stream.kindName (fun e => e) "model" 100 0 7%N
             [Stream.Delta "Hello.";
              Stream.Delta (String "010" (String "010" "World"))]
             [Stream.contentAt 1 "Hello.";
              Stream.contentAt 2 (String "010" (String "010" "World"))]
             (Stream.loopStart Stream.idleHook) eq_refl (le_n 0)
             ltac:(repeat constructor) Hf).
Defined.

(** A fragment that repeats the length and the ending of an earlier one
    is dropped by the loop: the increments "ha", "!", "ha" stand for
    "ha!ha", and the loop ends with "ha!". *)
Example repeated_increment_dropped :
  fold_left Stream.intend
    [Stream.Delta "ha"; Stream.Delta "!"; Stream.Delta "ha"] ""
  = "ha!ha"
  /\ Stream.reconstructedSince 0
       (Stream.geminiMessageBuffer
          (Stream.runLoop Stream.noSplit Stream.kindName (fun e => e)
             "model" 100 7%N
             [Stream.contentAt 1 "ha"; Stream.contentAt 2 "!";
              Stream.contentAt 3 "ha"]
             (Stream.loopStart Stream.idleHook)))
       (Stream.hook
          (Stream.runLoop Stream.noSplit Stream.kindName (fun e => e)
             "model" 100 7%N
             [Stream.contentAt 1 "ha"; Stream.contentAt 2 "!";
              Stream.contentAt 3 "ha"]
             (Stream.loopStart Stream.idleHook)))
     = "ha!".
Proof. split; [reflexivity | vm_compute; reflexivity]. Qed.


(** ** Batches that are lost *)

Section SubmissionDefects.

Import Submission.

Local Abbreviation lock m := (toolSubmissionInProgressRef (refs m)).

(** A timer that fires while the lock is held runs into the guard: its
    batch leaves the timers and goes nowhere. *)
Lemma step_timer_refused m batch rest :
  lock m = true -> timers (refs m) = batch :: rest ->
  timers (refs (step m TimerFires)) = rest
  /\ pendingToolSubmissionRef (refs (step m TimerFires))
     = pendingToolSubmissionRef (refs m)
  /\ started (step m TimerFires) = started m
  /\ submitted (refs (step m TimerFires)) = submitted (refs m)
  /\ refused (step m TimerFires) = refused m ++ [batch].
Proof.
  intros Hl Ht. unfold step. rewrite Ht.
  rewrite handleCompletedTools_refused by (cbn; exact Hl).
  cbn. now rewrite Ht.
Qed.

(** With nothing in flight and nothing waiting, only the arrival of a
    batch changes the state. *)
Lemma run_idle actions m :
  inFlight m = 0 -> timers (refs m) = [] ->
  Forall (fun a => isArrival a = false) actions ->
  run actions m = m.
Proof.
  intros H0 Ht Hall. induction Hall as [|a actions Ha _ IH]; [reflexivity|].
  cbn [run fold_left]. fold (run actions (step m a)).
  assert (Hs : step m a = m).
  { destruct a as [isResponding ms batch|resolved|]; [discriminate| |].
    - unfold step. now rewrite H0.
    - unfold step. now rewrite Ht. }
  rewrite Hs. exact IH.
Qed.

(** C2 fails on the code.  A batch that was queued while a pass was
    running can be lost without having been replaced.  The batch waits
    for the timer of line 1027; if the lock is held when the timer fires,
    [handleCompletedTools] returns at its guard and the batch is in no
    slot and with no timer any more, where [onComplete], in the same
    situation, puts a batch in the pending slot.  The event loop reaches
    such a state: the batch of [call-2] is with the timer while the pass
    for [call-3] holds the lock; the timer fires, the continuation
    settles, and then nothing is in flight or waiting, the batch of
    [call-2] has started no pass and its call is not marked as
    submitted; left alone, the hook stays in that state. *)
Theorem queued_batch_lost_at_timer_guard (m : Machine)
  (batch : list TrackedToolCall) (rest : list (list TrackedToolCall))
  (isResponding ms : bool) (idle : list Action) :
  (lock m = true -> timers (refs m) = batch :: rest ->
   timers (refs (step m TimerFires)) = rest
   /\ pendingToolSubmissionRef (refs (step m TimerFires))
      = pendingToolSubmissionRef (refs m)
   /\ started (step m TimerFires) = started m
   /\ submitted (refs (step m TimerFires)) = submitted (refs m)
   /\ refused (step m TimerFires) = refused m ++ [batch])
  /\ (lock m = true -> batch <> [] ->
      pendingToolSubmissionRef (refs (step m (Settle isResponding ms batch)))
      = Some batch)
  /\ lock raceBeforeTimer = true
  /\ timers (refs raceBeforeTimer) = [[sampleCall "call-2" success false]]
  /\ started (run [TimerFires; ContinuationSettles true] raceBeforeTimer)
     = [[sampleCall "call-1" success false];
        [sampleCall "call-3" success false]]
  /\ submitted (refs (run [TimerFires; ContinuationSettles true]
                        raceBeforeTimer))
     = [["call-1"]; ["call-3"]]
  /\ pendingToolSubmissionRef
       (refs (run [TimerFires; ContinuationSettles true] raceBeforeTimer))
     = None
  /\ replaced (run [TimerFires; ContinuationSettles true] raceBeforeTimer)
     = []
  /\ (Forall (fun a => isArrival a = false) idle ->
      run idle (run [TimerFires; ContinuationSettles true] raceBeforeTimer)
      = run [TimerFires; ContinuationSettles true] raceBeforeTimer).
Proof.
  split; [apply step_timer_refused|].
  split; [intros Hl Hne; now apply step_queues|].
  assert (Hend : inFlight (run [TimerFires; ContinuationSettles true]
                             raceBeforeTimer) = 0
                 /\ timers (refs (run [TimerFires; ContinuationSettles true]
                                    raceBeforeTimer)) = [])
    by (vm_compute; split; reflexivity).
  destruct Hend as [H0 Ht].
  do 6 (split; [vm_compute; reflexivity|]).
  intros Hidle. now apply run_idle.
Qed.

(** While the lock is held nothing is added to the history of the
    client. *)
Lemma step_locked_history m a :
  lock m = true -> clientHistory (refs (step m a)) = clientHistory (refs m).
Proof.
  intros Hl. destruct a as [isResponding ms batch|resolved|].
  - unfold step, onComplete. destruct batch as [|t batch]; [reflexivity|].
    cbn [toolSubmissionInProgressRef]. rewrite Hl. reflexivity.
  - unfold step. destruct (inFlight m); [reflexivity|].
    unfold handleCompletedTools_finally.
    now destruct (pendingToolSubmissionRef (refs m)).
  - unfold step. destruct (timers (refs m)) as [|p rest] eqn:Et;
      [reflexivity|].
    rewrite handleCompletedTools_refused by (cbn; exact Hl). reflexivity.
Qed.

Lemma run_locked_history actions m :
  lock m = true -> inFlight m = 0 ->
  clientHistory (refs (run actions m)) = clientHistory (refs m).
Proof.
  revert m. induction actions as [|a actions IH]; intros m Hl H0;
    [reflexivity|].
  destruct (step_locked m a Hl) as (_ & _ & _ & Hkeep).
  destruct (Hkeep H0) as [Hl' H0'].
  cbn [run fold_left]. fold (run actions (step m a)).
  rewrite (IH (step m a) Hl' H0'). now apply step_locked_history.
Qed.

(** C6 fails on the code.  The batch of [call-1], a call for the model
    that was cancelled, is taken up as the claim says: its response
    parts are added to the history of the client, the call is marked as
    submitted and no continuation is issued.  But the pass returns with
    the lock held (line 979 precedes the [try ... finally] of lines
    1005-1029), and from then on, whatever happens, a batch whose calls
    for the model were all cancelled is only put in the pending slot: the
    history of the client stays as it was and nothing more is marked as
    submitted; so for the batch of [call-2]. *)
Theorem cancelled_batch_unrecorded_behind_lock (actions : list Action)
  (isResponding ms : bool) (batch : list TrackedToolCall) :
  clientHistory (refs afterCancelledBatch)
  = [{| role := "user";
        parts :=
          Some [{| text := Some "call-1"; inlineData := None;
                   functionCall := None; functionResponse := None |}] |}]
  /\ submitted (refs afterCancelledBatch) = [["call-1"]]
  /\ continuations (refs afterCancelledBatch) = []
  /\ lock afterCancelledBatch = true
  /\ inFlight afterCancelledBatch = 0
  /\ pendingToolSubmissionRef
       (refs (step afterCancelledBatch
                (Settle false false [sampleCall "call-2" cancelled false])))
     = Some [sampleCall "call-2" cancelled false]
  /\ clientHistory
       (refs (run (Settle false false [sampleCall "call-2" cancelled false]
                   :: actions) afterCancelledBatch))
     = clientHistory (refs afterCancelledBatch)
  /\ submitted
       (refs (run (Settle false false [sampleCall "call-2" cancelled false]
                   :: actions) afterCancelledBatch))
     = [["call-1"]]
  /\ clientHistory
       (refs (run (Settle isResponding ms batch :: actions)
                afterCancelledBatch))
     = clientHistory (refs afterCancelledBatch)
  /\ submitted
       (refs (run (Settle isResponding ms batch :: actions)
                afterCancelledBatch))
     = [["call-1"]].
Proof.
  assert (Hl : lock afterCancelledBatch = true) by reflexivity.
  assert (H0 : inFlight afterCancelledBatch = 0) by reflexivity.
  do 6 (split; [reflexivity|]).
  split; [now apply run_locked_history|].
  split.
  { destruct (run_locked
                (Settle false false [sampleCall "call-2" cancelled false]
                 :: actions) afterCancelledBatch Hl H0)
      as (_ & _ & _ & _ & Hsub). exact Hsub. }
  split; [now apply run_locked_history|].
  destruct (run_locked (Settle isResponding ms batch :: actions)
              afterCancelledBatch Hl H0) as (_ & _ & _ & _ & Hsub).
  exact Hsub.
Qed.

End SubmissionDefects.
